(** * The persona conversation simulator: a shallow embedding of
      [simulation_core.py] and the properties of its specification.

    Conventions of the embedding.
    - A Python [str] is a [string], read as the sequence of its code points;
      the text covered is the one over the code points 0..255.
    - A Python [float] is an IEEE-754 binary64 number, a [spec_float] of the
      standard library's reference implementation with [prec = 53] and
      [emax = 1024].
    - A Python [int] is a [Z].
    - The module-level random source of Python's [random] is an explicit
      state threaded through every function that draws from it.
    - An uncaught exception is the [None] of the monad [M]. *)

From Stdlib Require Import ZArith NArith List String Ascii Bool Lia.
From Stdlib Require Import DecimalString.
From Stdlib Require Import Floats.SpecFloat.
Import ListNotations.

Local Open Scope string_scope.
Local Open Scope Z_scope.

(** ** Python strings *)

Module PyStr.

Definition code (c : ascii) : N := N_of_ascii c.

(** [str.lower] on one code point: the upper-case letters below 256 are
    A..Z, U+00C0..U+00D6 and U+00D8..U+00DE; each is 32 below its
    lower-case letter. *)
Definition lower_char (c : ascii) : ascii :=
  let n := code c in
  if ((65 <=? n) && (n <=? 90) ||
      (192 <=? n) && (n <=? 214) ||
      (216 <=? n) && (n <=? 222))%N%bool
  then ascii_of_N (n + 32) else c.

Fixpoint lower (s : string) : string :=
  match s with
  | EmptyString => EmptyString
  | String c s' => String (lower_char c) (lower s')
  end.

(** The characters [str.strip()] removes: tab, line feed, vertical tab,
    form feed, carriage return, the separators U+001C..U+001F, the space,
    U+0085 and U+00A0. *)
Definition is_space (c : ascii) : bool :=
  let n := code c in
  ((9 <=? n) && (n <=? 13) || (28 <=? n) && (n <=? 32) ||
   (n =? 133) || (n =? 160))%N%bool.

Fixpoint lstrip (s : string) : string :=
  match s with
  | EmptyString => EmptyString
  | String c s' => if is_space c then lstrip s' else s
  end.

(** [rstrip] keeps a character when it is not a space or when something
    remains after it. *)
Fixpoint rstrip (s : string) : string :=
  match s with
  | EmptyString => EmptyString
  | String c s' =>
      match rstrip s' with
      | EmptyString => if is_space c then EmptyString else String c EmptyString
      | r => String c r
      end
  end.

Definition strip (s : string) : string := rstrip (lstrip s).

(** [s.startswith(k)] *)
Fixpoint startswith (s k : string) : bool :=
  match k, s with
  | EmptyString, _ => true
  | String _ _, EmptyString => false
  | String a k', String b s' => Ascii.eqb a b && startswith s' k'
  end.

(** [k in s]: [k] occurs in [s] as a substring *)
Fixpoint str_in (k s : string) : bool :=
  startswith s k ||
  match s with
  | EmptyString => false
  | String _ s' => str_in k s'
  end.

(** [any(k in s for k in ks)] *)
Definition any_in (ks : list string) (s : string) : bool :=
  existsb (fun k => str_in k s) ks.

(** [sep.join(l)] *)
Fixpoint join (sep : string) (l : list string) : string :=
  match l with
  | [] => EmptyString
  | [x] => x
  | x :: l' => x ++ sep ++ join sep l'
  end.

(** [str(n)] for an [int] *)
Definition of_int (n : Z) : string := NilZero.string_of_int (Z.to_int n).

(** The truth value of a string: it is not empty. *)
Definition truthy (s : string) : bool :=
  match s with EmptyString => false | _ => true end.

Definition nl : string := String (ascii_of_N 10) EmptyString.

End PyStr.

(** ** Python floats *)

Module PyFloat.

Definition prec : Z := 53.
Definition emax : Z := 1024.

Definition float : Type := spec_float.

Definition of_Z (n : Z) : float := binary_normalize prec emax n 0 false.

Definition add : float -> float -> float := SFadd prec emax.
Definition sub : float -> float -> float := SFsub prec emax.
Definition mul : float -> float -> float := SFmul prec emax.
Definition div : float -> float -> float := SFdiv prec emax.
Definition ltb : float -> float -> bool := SFltb.
Definition leb : float -> float -> bool := SFleb.

(** The float a decimal literal [n / 10^d] denotes: the binary64 number
    nearest to it, which the correctly rounded division of two integers
    that are floats themselves gives. *)
Definition literal (n : Z) (d : Z) : float := div (of_Z n) (of_Z (10 ^ d)).

Definition f0_05 : float := Eval vm_compute in literal 5 2.
Definition f0_1  : float := Eval vm_compute in literal 1 1.
Definition f0_15 : float := Eval vm_compute in literal 15 2.
Definition f0_2  : float := Eval vm_compute in literal 2 1.
Definition f0_5  : float := Eval vm_compute in literal 5 1.
Definition f0_55 : float := Eval vm_compute in literal 55 2.
Definition f0_65 : float := Eval vm_compute in literal 65 2.
Definition f0_75 : float := Eval vm_compute in literal 75 2.
Definition f0_95 : float := Eval vm_compute in literal 95 2.

(** [min(a, b)] keeps its first argument unless the second is smaller;
    [max(a, b)] keeps its first argument unless the second is larger. *)
Definition min (a b : float) : float := if ltb b a then b else a.
Definition max (a b : float) : float := if ltb a b then b else a.

(** The float [random.random()] builds from its 53 random bits [k]:
    [k * 2^-53]. *)
Definition of_bits53 (k : N) : float :=
  binary_normalize prec emax (Z.of_N k) (-53) false.

(** Division of [a] by [2^s] rounded to the nearest integer, a tie to the
    even one. *)
Definition div2k_half_even (a : Z) (s : Z) : Z :=
  let q := Z.shiftr a s in
  let r := a - Z.shiftl q s in
  match Z.compare (2 * r) (Z.shiftl 1 s) with
  | Lt => q
  | Gt => q + 1
  | Eq => if Z.even q then q else q + 1
  end.

(** [round(x, 2)]: the exact value of [x] is rounded to the nearest
    multiple of 1/100, a tie to the even one, and the result is the float
    nearest to that decimal. Zeros, infinities and NaN are returned as
    they are. *)
Definition round2 (x : float) : float :=
  match x with
  | S754_finite s m e =>
      let n := if (0 <=? e) then Z.shiftl (100 * Zpos m) e
               else div2k_half_even (100 * Zpos m) (- e) in
      let r := div (of_Z n) (of_Z 100) in
      if s then SFopp r else r
  | _ => x
  end.

End PyFloat.

(** ** The random source

    Python's [random] module is not part of the repository: the embedding
    takes it as an interface.  [rng_seed] is [random.seed], [rng_bits53]
    the 53 random bits from which [random.random()] builds its float, and
    [rng_below n] is [_randbelow(n)], from which [randint] and [choice]
    draw. *)

Class RandomSource : Type := {
  rng : Type;
  rng_seed : Z -> rng;
  rng_bits53 : rng -> N * rng;
  rng_below : N -> rng -> N * rng;
  rng_bits53_lt : forall s, (fst (rng_bits53 s) < 2 ^ 53)%N;
  rng_below_lt : forall n s, (0 < n)%N -> (fst (rng_below n s) < n)%N
}.

(** A linear congruential generator, an instance of the interface on which
    the functions below can be run. *)
Module Lcg.

Definition next (s : N) : N :=
  ((s * 6364136223846793005 + 1442695040888963407) mod 2 ^ 64)%N.

Definition seed (n : Z) : N := (Z.to_N (Z.abs n) mod 2 ^ 64)%N.

Definition bits53 (s : N) : N * N := (N.shiftr (next s) 11, next s).

Definition below (n : N) (s : N) : N * N :=
  ((N.shiftr (next s) 11 mod n)%N, next s).

End Lcg.

Definition lcg : RandomSource.
Proof.
  refine {| rng := N;
            rng_seed := Lcg.seed;
            rng_bits53 := Lcg.bits53;
            rng_below := Lcg.below |}.
  - intros s. unfold Lcg.bits53, Lcg.next; cbn [fst].
    rewrite N.shiftr_div_pow2.
    apply N.Div0.div_lt_upper_bound.
    change (2 ^ 11 * 2 ^ 53)%N with (2 ^ 64)%N.
    apply N.mod_lt. discriminate.
  - intros n s Hn. unfold Lcg.below; cbn [fst].
    apply N.mod_lt. lia.
Defined.

(** ** The data model *)

Module Persona.
Record t : Type := make {
  id : string;
  name : string;
  archetype : string;
  demographics : list (string * string);
  traits : list string;
  goals : list string;
  tech_literacy : string;
  risk_aversion : string;
  tone : string;
  pain_points : list string;
  motivations : list string;
  domain_expertise : list string;
  context : string
}.
End Persona.

(** The two values the [role] of a message takes. *)
Module Role.
Inductive t : Type := user | persona.

Definition eqb (a b : t) : bool :=
  match a, b with
  | user, user | persona, persona => true
  | _, _ => false
  end.
End Role.

(** The reasoning record [_heuristic_persona_reply] returns beside the reply;
    [keywords_hit] is its [signals["keywords_hit"]]. *)
Module Reasoning.
Record t : Type := make {
  salient_traits : list string;
  assumptions : list string;
  keywords_hit : list string;
  confidence : PyFloat.float;
  follow_ups : list string
}.
End Reasoning.

(** The [meta] dictionary of a message: empty on a user message, the
    reasoning record on a heuristic reply, [source] and [turn] on a reply of
    the agent backend. *)
Inductive Meta : Type :=
| MetaEmpty
| MetaReasoning (r : Reasoning.t)
| MetaAgent (source : string) (turn : Z).

Module Message.
Record t : Type := make {
  role : Role.t;
  content : string;
  meta : Meta
}.
End Message.

Module Conversation.
Record t : Type := make {
  feature_id : string;
  feature_title : string;
  feature_spec : string;
  persona : Persona.t;
  seed : Z;
  messages : list Message.t;
  created_at : string
}.
End Conversation.

(** ** What [simulate] reads from outside the program *)

(** The two readings of the clock: [int(time.time())] and
    [datetime.datetime.utcnow().isoformat()]. *)
Record Clock : Type := {
  unix_time : Z;
  utcnow_isoformat : string
}.

(** [os.getenv] *)
Definition Environ : Type := string -> option string.

(** The [tinytroupe] package, when its import succeeded: the constructor of
    a [TinyPerson] and its [listen_and_act], which answers with the text of
    the response and the person's next state, or raises. *)
Record TinyTroupe : Type := {
  TinyPerson : Type;
  new_TinyPerson : string -> string -> string -> TinyPerson;
  listen_and_act : TinyPerson -> string -> option (string * TinyPerson)
}.

(** ** The monad of the engine: the state of the random source, and failure *)

Declare Scope engine_scope.
Delimit Scope engine_scope with engine.

Section Monad.
Context {R : RandomSource}.

Definition M (A : Type) : Type := rng -> option (A * rng).

Definition ret {A : Type} (a : A) : M A := fun s => Some (a, s).

Definition bind {A B : Type} (m : M A) (k : A -> M B) : M B :=
  fun s => match m s with
           | Some (a, s') => k a s'
           | None => None
           end.

Definition raise {A : Type} : M A := fun _ => None.

(** Running a computation from a freshly seeded source. *)
Definition run_seeded {A : Type} (seed : Z) (m : M A) : option A :=
  match m (rng_seed seed) with
  | Some (a, _) => Some a
  | None => None
  end.

(** [random.random()] *)
Definition random_random : M PyFloat.float :=
  fun s => let (k, s') := rng_bits53 s in Some (PyFloat.of_bits53 k, s').

(** [random.randint(a, b)]: [a + _randbelow(b - a + 1)], a [ValueError]
    on an empty range. *)
Definition random_randint (a b : Z) : M Z :=
  fun s =>
    if 0 <? b - a + 1 then
      let (k, s') := rng_below (Z.to_N (b - a + 1)) s in Some (a + Z.of_N k, s')
    else None.

(** [random.choice(seq)]: [seq[_randbelow(len(seq))]], an [IndexError] on
    an empty sequence. *)
Definition random_choice {A : Type} (seq : list A) : M A :=
  fun s =>
    match seq with
    | [] => None
    | _ :: _ =>
        let (i, s') := rng_below (N.of_nat (List.length seq)) s in
        match nth_error seq (N.to_nat i) with
        | Some x => Some (x, s')
        | None => None
        end
    end.

End Monad.

Notation "x <- m ;; k" := (bind m (fun x => k))
  (at level 61, m at next level, right associativity) : engine_scope.
Notation "' p <- m ;; k" := (bind m (fun p => k))
  (at level 61, p pattern, m at next level, right associativity) : engine_scope.

Local Open Scope engine_scope.

(** ** The signal extractor and the reply generator *)

Section Engine.
Context {R : RandomSource}.

Import PyStr.

(** [if c: l.append(x)] *)
Definition append_if {A : Type} (c : bool) (x : A) (l : list A) : list A :=
  if c then l ++ [x] else l.

Definition hedge_words : list string := ["unclear"; "confusing"; "not sure"].

Definition _score_confidence (persona : Persona.t) (text : string)
  : M PyFloat.float :=
  let base := PyFloat.f0_55 in
  let base := if (Persona.tech_literacy persona =? "expert")%string
              then PyFloat.add base PyFloat.f0_15 else base in
  let base := if (Persona.risk_aversion persona =? "high")%string
              then PyFloat.sub base PyFloat.f0_05 else base in
  let base := if any_in hedge_words (lower text)
              then PyFloat.sub base PyFloat.f0_2 else base in
  r <- random_random ;;
  ret (PyFloat.max PyFloat.f0_05
         (PyFloat.min PyFloat.f0_95
            (PyFloat.add base
               (PyFloat.mul (PyFloat.sub r PyFloat.f0_5) PyFloat.f0_1)))).

Definition q_metrics : string :=
  "Which success metrics and target thresholds are defined?".
Definition q_skip : string :=
  "Can users skip steps and finish later?".
Definition q_trial : string :=
  "Is there a free trial or grace period before payment is required?".
Definition q_keyboard : string :=
  "Have you tested keyboard-only navigation and screen-reader labels?".
Definition q_data : string :=
  "What data is collected and how is it governed?".
Definition q_job : string :=
  "What is the primary job-to-be-done for this feature?".

Definition _extract_followups (persona : Persona.t) (spec : string)
  : list string :=
  let qs := [] in
  let low := lower spec in
  let qs := append_if (str_in "analytics" low) q_metrics qs in
  let qs := append_if (str_in "onboarding" low) q_skip qs in
  let qs := append_if (str_in "paywall" low || str_in "pricing" low
                       || str_in "trial" low) q_trial qs in
  let qs := append_if
              (any_in ["accessibility"; "aria"; "keyboard"; "contrast"; "wcag"] low)
              q_keyboard qs in
  let qs := append_if (str_in "privacy" low || str_in "gdpr" low) q_data qs in
  let qs := append_if (match qs with [] => true | _ => false end) q_job qs in
  firstn 6 qs.

(** The three lists of [_heuristic_persona_reply], in the order of its
    tuple assignment: concerns, kudos, suggestions. *)
Definition reply_ingredients (persona : Persona.t) (lower : string)
  : list string * list string * list string :=
  let concerns := [] in
  let kudos := [] in
  let suggestions := [] in
  let arch := PyStr.lower (Persona.archetype persona) in
  let concerns := append_if (str_in "onboarding" lower || str_in "signup" lower)
      "Onboarding may be too long; consider progressive disclosure." concerns in
  let suggestions := append_if (str_in "dashboard" lower)
      "Surface the top 3 KPIs above the fold; defer advanced charts." suggestions in
  let concerns := append_if (str_in "mobile" lower)
      "Ensure tap targets are >= 44px and content is responsive." concerns in
  let suggestions := append_if
      (any_in ["access"; "aria"; "keyboard"; "contrast"; "wcag"; "color"] lower)
      "Add aria-labels, visible focus states, and non-color cues to meet WCAG 2.2 AA."
      suggestions in
  let concerns := append_if (any_in ["paywall"; "pricing"; "trial"] lower)
      "Hard paywalls can increase drop-off; test a trial or freemium." concerns in
  let concerns := append_if (str_in "privacy" lower || str_in "gdpr" lower)
      "Clarify data processing, retention, and opt-out; add a DPIA summary." concerns in
  let suggestions := append_if (str_in "api" lower || str_in "export" lower)
      "Provide API endpoints and bulk export options for power users." suggestions in
  let concerns := append_if (startswith arch "security" || str_in "security" arch)
      "Need SSO/MFA, audit logs, and data retention controls." concerns in
  let suggestions := append_if (str_in "product manager" arch)
      "Define success metrics and an A/B test plan." suggestions in
  let concerns := append_if (str_in "screen" arch || str_in "accessibility" arch)
      "Verify no keyboard traps; test with VoiceOver/NVDA." concerns in
  let kudos := append_if (str_in "gen z" arch || (Persona.tone persona =? "casual")%string)
      "Looks fun if visuals stay bold with quick motion affordances." kudos in
  (concerns, kudos, suggestions).

Definition fallback_reply : string :=
  "Looks promising; would like to test a clickable prototype.".

Definition nonempty {A : Type} (l : list A) : bool :=
  match l with [] => false | _ => true end.

(** The [summary] list and its join. *)
Definition compose_summary (kudos concerns suggestions : list string)
  : list string :=
  let summary := [] in
  let summary := append_if (nonempty kudos)
                   ("**What I like:** " ++ join "; " kudos) summary in
  let summary := append_if (nonempty concerns)
                   ("**Concerns:** " ++ join "; " concerns) summary in
  let summary := append_if (nonempty suggestions)
                   ("**Suggestions:** " ++ join "; " suggestions) summary in
  append_if (negb (nonempty summary)) fallback_reply summary.

Definition tracked_keywords : list string :=
  ["onboarding"; "dashboard"; "mobile"; "access"; "paywall"; "pricing";
   "aria"; "privacy"; "gdpr"; "keyboard"; "contrast"].

Definition _heuristic_persona_reply
    (persona : Persona.t) (user_msg feature_spec : string)
  : M (string * Reasoning.t) :=
  let lower := PyStr.lower (user_msg ++ " " ++ feature_spec) in
  let '(concerns, kudos, suggestions) := reply_ingredients persona lower in
  confidence <- _score_confidence persona user_msg ;;
  let followups := _extract_followups persona feature_spec in
  let summary := compose_summary kudos concerns suggestions in
  let reasoning :=
    {| Reasoning.salient_traits := firstn 3 (Persona.traits persona);
       Reasoning.assumptions :=
         ["User intent inferred from provided spec"; "No live usability data"];
       Reasoning.keywords_hit :=
         filter (fun k => str_in k lower) tracked_keywords;
       Reasoning.confidence := PyFloat.round2 confidence;
       Reasoning.follow_ups := followups |} in
  let reply := join (nl ++ nl) summary in
  ret (reply, reasoning).

End Engine.

(** ** The conversation driver *)

Section Driver.
Context {R : RandomSource}.

Import PyStr.

Definition user_message (content : string) : Message.t :=
  Message.make Role.user content MetaEmpty.

(** [x or y] on strings *)
Definition str_or (x y : string) : string := if truthy x then x else y.

(** The truth value of [os.getenv(k)] *)
Definition env_set (env : Environ) (k : string) : bool :=
  match env k with
  | Some v => truthy v
  | None => false
  end.

(** [TT_AVAILABLE and (os.getenv("OPENAI_API_KEY") or
    os.getenv("AZURE_OPENAI_KEY"))]: the package the agent branch runs on
    when the condition holds, [None] when it does not. *)
Definition agent_backend (tt : option TinyTroupe) (env : Environ)
  : option TinyTroupe :=
  match tt with
  | Some tt' =>
      if env_set env "OPENAI_API_KEY" || env_set env "AZURE_OPENAI_KEY"
      then Some tt' else None
  | None => None
  end.

Definition user_open_of (feature_title feature_spec : string) : string :=
  "Please review the feature: " ++ feature_title ++ ". Key context:" ++ nl
    ++ feature_spec ++ nl ++ "Share candid feedback in your usual tone.".

(** [for t in range(1, turns)] of the heuristic branch, [n] iterations
    left; [follow_ups] is [meta["follow_ups"]] of the first reply. *)
Fixpoint heuristic_turns (n : nat) (persona : Persona.t)
    (feature_spec : string) (follow_ups : list string)
    (messages : list Message.t) : M (list Message.t) :=
  match n with
  | O => ret messages
  | S n' =>
      q <- random_choice follow_ups ;;
      let messages := (messages ++ [user_message q])%list in
      '(follow_reply, meta2) <- _heuristic_persona_reply persona q feature_spec ;;
      let messages :=
        (messages ++ [Message.make Role.persona follow_reply (MetaReasoning meta2)])%list in
      heuristic_turns n' persona feature_spec follow_ups messages
  end.

(** [for t in range(turns)] of the agent branch, [n] iterations left, the
    next one with index [t]. *)
Fixpoint agent_turns (tt : TinyTroupe) (n : nat) (t : Z)
    (tiny_person : TinyPerson tt) (prompt : string)
    (persona : Persona.t) (feature_spec : string)
    (messages : list Message.t) : M (list Message.t) :=
  match n with
  | O => ret messages
  | S n' =>
      match listen_and_act tt tiny_person prompt with
      | None => raise
      | Some (response, tiny_person) =>
          let messages :=
            (messages ++ [Message.make Role.persona response
                            (MetaAgent "tinytroupe" (t + 1))])%list in
          let follow_qs := _extract_followups persona feature_spec in
          q <- random_choice follow_qs ;;
          let prompt := "Follow-up: " ++ q in
          let messages := (messages ++ [user_message prompt])%list in
          agent_turns tt n' (t + 1) tiny_person prompt persona feature_spec messages
      end
  end.

(** The [if] branch of [simulate]: the agent backend answers. *)
Definition agent_branch (tt : TinyTroupe) (persona : Persona.t)
    (feature_spec : string) (turns : Z) (user_open : string)
    (messages : list Message.t) : M (list Message.t) :=
  let tiny_person := new_TinyPerson tt
    (Persona.name persona)
    (Persona.archetype persona ++ ". Traits: "
       ++ join ", " (Persona.traits persona) ++ ". Goals: "
       ++ join ", " (Persona.goals persona) ++ ".")
    ("Context: " ++ Persona.context persona ++ ". Pain points: "
       ++ join ", " (Persona.pain_points persona)
       ++ ". Domain expertise: "
       ++ join ", " (Persona.domain_expertise persona) ++ ".") in
  let prompt := user_open in
  agent_turns tt (Z.to_nat turns) 0 tiny_person prompt
    persona feature_spec messages.

(** The [else] branch of [simulate]: the heuristic reply generator. *)
Definition heuristic_branch (persona : Persona.t)
    (feature_spec : string) (turns : Z) (user_open : string)
    (messages : list Message.t) : M (list Message.t) :=
  '(reply, meta) <- _heuristic_persona_reply persona user_open feature_spec ;;
  let messages :=
    (messages ++ [Message.make Role.persona reply (MetaReasoning meta)])%list in
  heuristic_turns (Z.to_nat (turns - 1)) persona feature_spec
    (Reasoning.follow_ups meta) messages.

(** The body of [simulate] after [random.seed(seed)]. *)
Definition simulate_body (tt : option TinyTroupe) (env : Environ) (clock : Clock)
    (persona : Persona.t) (feature_title feature_spec : string)
    (turns : Z) (seed : Z) : M Conversation.t :=
  suffix <- random_randint 1000 9999 ;;
  let conv := Conversation.make
    (of_int (unix_time clock) ++ "-" ++ of_int suffix)
    (str_or (strip feature_title) "Untitled Feature")
    (strip feature_spec)
    persona
    seed in
  let created_at := utcnow_isoformat clock ++ "Z" in
  let user_open := user_open_of feature_title feature_spec in
  let messages := ([] ++ [user_message user_open])%list in
  messages <-
    match agent_backend tt env with
    | Some tt' => agent_branch tt' persona feature_spec turns user_open messages
    | None => heuristic_branch persona feature_spec turns user_open messages
    end ;;
  ret (conv messages created_at).

(** [SimulationEngine.simulate]: [None] when an exception escapes. *)
Definition simulate (tt : option TinyTroupe) (env : Environ) (clock : Clock)
    (persona : Persona.t) (feature_title feature_spec : string)
    (system_preamble : option string) (turns : Z) (seed : Z)
  : option Conversation.t :=
  run_seeded seed
    (simulate_body tt env clock persona feature_title feature_spec turns seed).

(** The state of the source after [random.seed(seed)] and the draw of the
    suffix of [feature_id], and that suffix. *)
Definition after_suffix (seed : Z) : rng :=
  snd (rng_below 9000 (rng_seed seed)).

Definition suffix_of (seed : Z) : Z :=
  1000 + Z.of_N (fst (rng_below 9000 (rng_seed seed))).

End Driver.

(** ** The vocabulary of the specification *)

Section Vocabulary.
Import PyStr.

Definition other_role (r : Role.t) : Role.t :=
  match r with
  | Role.user => Role.persona
  | Role.persona => Role.user
  end.

(** The roles [rs] are [r], the other role, [r], ... *)
Fixpoint roles_alternate (r : Role.t) (rs : list Role.t) : bool :=
  match rs with
  | [] => true
  | r' :: rs' => Role.eqb r' r && roles_alternate (other_role r) rs'
  end.

(** The messages strictly alternate and the first one is a user message. *)
Definition alternates_from_user (ms : list Message.t) : bool :=
  nonempty ms && roles_alternate Role.user (map Message.role ms).

(** The number of messages of role [r]. *)
Definition count_role (r : Role.t) (ms : list Message.t) : nat :=
  List.length (filter (Role.eqb r) (map Message.role ms)).

(** The roles of [n] turns that each add a message of role [a] and then
    one of role [b]. *)
Fixpoint turn_roles (a b : Role.t) (n : nat) : list Role.t :=
  match n with
  | O => []
  | S n' => a :: b :: turn_roles a b n'
  end.

(** The confidence score a message carries, if it carries one. *)
Definition confidence_of (m : Message.t) : option PyFloat.float :=
  match Message.meta m with
  | MetaReasoning r => Some (Reasoning.confidence r)
  | _ => None
  end.

(** The float [v] lies in the closed interval from [lo] to [hi]. *)
Definition in_range (lo hi v : PyFloat.float) : bool :=
  PyFloat.leb lo v && PyFloat.leb v hi.

(** The keyword rules of the follow-up extraction as the specification
    lists them: keyword group, question. *)
Definition followup_rules : list (list string * string) :=
  [ (["analytics"], q_metrics);
    (["onboarding"], q_skip);
    (["paywall"; "pricing"; "trial"], q_trial);
    (["accessibility"; "aria"; "keyboard"; "contrast"; "wcag"], q_keyboard);
    (["privacy"; "gdpr"], q_data) ].

Definition rule_matches (low : string) (rule : list string * string) : bool :=
  any_in (fst rule) low.

(** The follow-ups as the specification words them: the questions of the
    matching rules in rule order, the generic question when there is none,
    at most six of them. *)
Definition followups_by_rules (spec : string) : list string :=
  let low := lower spec in
  let hits := map snd (filter (rule_matches low) followup_rules) in
  firstn 6 (match hits with [] => [q_job] | _ => hits end).

(** One category block: none for an empty category, else the bolded label
    followed by the items joined with a semicolon and a space. *)
Definition category_block (label : string) (items : list string) : list string :=
  match items with
  | [] => []
  | _ => [label ++ join "; " items]
  end.

(** The reply as the specification words it: the blocks of the categories
    that are not empty, kudos then concerns then suggestions, one blank
    line between two blocks; the fallback sentence when there is none. *)
Definition reply_by_blocks (kudos concerns suggestions : list string) : string :=
  match (category_block "**What I like:** " kudos
           ++ category_block "**Concerns:** " concerns
           ++ category_block "**Suggestions:** " suggestions)%list with
  | [] => fallback_reply
  | blocks => join (nl ++ nl) blocks
  end.

(** What a conversation holds apart from the readings of the clock. *)
Definition clock_free (c : Conversation.t)
  : string * string * Persona.t * Z * list Message.t :=
  (Conversation.feature_title c, Conversation.feature_spec c,
   Conversation.persona c, Conversation.seed c, Conversation.messages c).

(** The position of the first occurrence of [x] in [l]. *)
Fixpoint index_of (x : string) (l : list string) : option nat :=
  match l with
  | [] => None
  | y :: l' => if (x =? y)%string then Some O
               else option_map S (index_of x l')
  end.

(** The base of the confidence score before the jitter. *)
Definition confidence_base (persona : Persona.t) (text : string) : PyFloat.float :=
  let base := PyFloat.f0_55 in
  let base := if (Persona.tech_literacy persona =? "expert")%string
              then PyFloat.add base PyFloat.f0_15 else base in
  let base := if (Persona.risk_aversion persona =? "high")%string
              then PyFloat.sub base PyFloat.f0_05 else base in
  if any_in hedge_words (lower text)
  then PyFloat.sub base PyFloat.f0_2 else base.

(** The score before the clamp, for the 53 random bits [k]. *)
Definition unclamped_for (base : PyFloat.float) (k : N) : PyFloat.float :=
  PyFloat.add base
    (PyFloat.mul (PyFloat.sub (PyFloat.of_bits53 k) PyFloat.f0_5) PyFloat.f0_1).

(** The score for the 53 random bits [k]. *)
Definition confidence_for (base : PyFloat.float) (k : N) : PyFloat.float :=
  PyFloat.max PyFloat.f0_05 (PyFloat.min PyFloat.f0_95 (unclamped_for base k)).

End Vocabulary.

(** ** Sample inputs *)

Module Sample.

Definition ann : Persona.t :=
  Persona.make "p1" "Ann" "Security Engineer" [("age", "41")]
    ["careful"; "terse"; "curious"; "direct"] ["ship safely"]
    "expert" "low" "casual" ["audits"] ["trust"] ["infosec"] "fintech".

Definition bo : Persona.t :=
  Persona.make "p2" "Bo" "Student" [] ["busy"] [] "novice" "high" "neutral"
    [] [] [] "".

Definition clock1 : Clock :=
  {| unix_time := 1700000000; utcnow_isoformat := "2023-11-14T22:13:20.000001" |}.

Definition clock2 : Clock :=
  {| unix_time := 1700000060; utcnow_isoformat := "2023-11-14T22:14:20.000001" |}.

Definition no_env : Environ := fun _ => None.

Definition keyed_env : Environ :=
  fun k => if (k =? "OPENAI_API_KEY")%string then Some "sk-test" else None.

(** An agent backend that echoes the length of the prompt and counts its
    calls. *)
Definition echo : TinyTroupe :=
  {| TinyPerson := nat;
     new_TinyPerson := fun _ _ _ => O;
     listen_and_act := fun n prompt =>
       Some ("reply " ++ PyStr.of_int (Z.of_nat n) ++ " to "
               ++ PyStr.of_int (Z.of_nat (String.length prompt)), S n) |}.

Definition paywall_spec : string :=
  "Add a paywall with a 7-day trial and GDPR-compliant data export".

End Sample.

(** ** The vocabulary of binary64 rounding *)

Module B64.

(** What the record [mrs] says of [m] after [n] halvings: the quotient, and
    where the remainder lies with respect to the half of [2^n]. *)
Definition shr_inv (m : Z) (n : nat) (mrs : shr_record) : Prop :=
  0 <= shr_m mrs /\
  exists rem,
    m = shr_m mrs * 2 ^ Z.of_nat n + rem /\ 0 <= rem < 2 ^ Z.of_nat n /\
    match loc_of_shr_record mrs with
    | loc_Exact => rem = 0
    | loc_Inexact Lt => 0 < 2 * rem < 2 ^ Z.of_nat n
    | loc_Inexact Eq => 2 * rem = 2 ^ Z.of_nat n
    | loc_Inexact Gt => 2 ^ Z.of_nat n < 2 * rem
    end.

(** The mantissa [m] without its [n] low bits, rounded to nearest, a tie to
    the even one: what [binary_round_aux] computes in its two steps. *)
Definition rne (m : Z) (n : nat) : Z :=
  let mrs := Nat.iter n shr_1 (Build_shr_record m false false) in
  round_nearest_even (shr_m mrs) (loc_of_shr_record mrs).

(** Values are compared as integers, scaled by [2^bias]. *)
Definition bias : Z := 2200.

Definition scaled (m e : Z) : Z := m * 2 ^ (e + bias).

(** The mantissa of a normal binary64 number. *)
Definition canon (m : Z) : Prop := 2 ^ 52 <= m < 2 ^ 53.

(** The mantissas of 0.1, of 0.55 + 0.15, of 0.65 and of 0.75; the first at
    exponent -56, the others at exponent -53. *)
Definition m_tenth : Z := 7205759403792794.
Definition m_base : Z := 6305039478318695.
Definition m_lo : Z := 5854679515581645.
Definition m_hi : Z := 6755399441055744.

End B64.

(** ** More vocabulary: the bounds of the score, the shapes of the messages *)

Definition f0_25 : PyFloat.float := Eval vm_compute in PyFloat.literal 25 2.

(** A base of the score, in its mantissa and exponent: between 0.3 and
    0.7000000000000001.  [u] is the base in units of [2^-57]. *)
Definition base_ok (mb eb : Z) : Prop :=
  B64.canon mb /\ -54 <= eb <= -53 /\
  let u := mb * 2 ^ (eb + 57) in
  4 * (2 ^ 54 - 1) <= 2 * (u - B64.m_tenth) /\
  (u + B64.m_tenth <= 16 * B64.m_hi \/ (mb = B64.m_base /\ eb = -53)).

(** The truth value of a [meta] dictionary: it is not empty. *)
Definition meta_truthy (m : Meta) : bool :=
  match m with
  | MetaEmpty => false
  | _ => true
  end.

Section MessageShapes.
Context {R : RandomSource}.

(** A follow-up of the heuristic branch: a user message without metadata
    whose content is one of the questions [qs]. *)
Definition followup_message (qs : list string) (m : Message.t) : Prop :=
  Message.role m = Role.user /\ Message.meta m = MetaEmpty /\
  In (Message.content m) qs.

(** A reply of the heuristic generator: a persona message whose metadata is
    a reasoning record with the first three traits of the persona, the two
    fixed assumptions, the follow-ups of the feature spec and a confidence
    of two decimal places between 0.25 and 0.75. *)
Definition reasoned_reply (persona : Persona.t) (feature_spec : string)
    (m : Message.t) : Prop :=
  Message.role m = Role.persona /\
  exists r,
    Message.meta m = MetaReasoning r /\
    Reasoning.salient_traits r = firstn 3 (Persona.traits persona) /\
    Reasoning.assumptions r =
      ["User intent inferred from provided spec"; "No live usability data"] /\
    Reasoning.follow_ups r = _extract_followups persona feature_spec /\
    exists n, 25 <= n <= 75 /\ Reasoning.confidence r = PyFloat.literal n 2.

(** A follow-up of the agent branch: a user message without metadata whose
    content is "Follow-up: " and one of the questions [qs]. *)
Definition agent_followup_message (qs : list string) (m : Message.t) : Prop :=
  Message.role m = Role.user /\ Message.meta m = MetaEmpty /\
  exists q, In q qs /\ Message.content m = "Follow-up: " ++ q.

(** A reply of the agent backend with the number of its turn. *)
Definition agent_reply (turn : Z) (m : Message.t) : Prop :=
  Message.role m = Role.persona /\
  Message.meta m = MetaAgent "tinytroupe" turn.

(** The messages [n] turns of the heuristic loop add. *)
Fixpoint heuristic_added (persona : Persona.t) (feature_spec : string)
    (qs : list string) (n : nat) (ms : list Message.t) : Prop :=
  match n, ms with
  | O, [] => True
  | S n', q :: a :: ms' =>
      followup_message qs q /\ reasoned_reply persona feature_spec a /\
      heuristic_added persona feature_spec qs n' ms'
  | _, _ => False
  end.

(** The messages [n] turns of the agent loop add, the first of them turn
    number [t + 1]. *)
Fixpoint agent_added (qs : list string) (n : nat) (t : Z) (ms : list Message.t)
  : Prop :=
  match n, ms with
  | O, [] => True
  | S n', a :: q :: ms' =>
      agent_reply (t + 1) a /\ agent_followup_message qs q /\
      agent_added qs n' (t + 1) ms'
  | _, _ => False
  end.

End MessageShapes.

Section StripVocabulary.
Import PyStr.

(** The string is empty or its first character is not a space. *)
Definition head_kept (s : string) : bool :=
  match s with
  | EmptyString => true
  | String c _ => negb (is_space c)
  end.

(** The string is empty or its last character is not a space. *)
Fixpoint last_kept (s : string) : bool :=
  match s with
  | EmptyString => true
  | String c EmptyString => negb (is_space c)
  | String _ s' => last_kept s'
  end.

End StripVocabulary.

(** [l1] is [l2] with some of its elements left out. *)
Fixpoint is_subsequence (l1 l2 : list string) : bool :=
  match l1, l2 with
  | [], _ => true
  | _ :: _, [] => false
  | x :: l1', y :: l2' =>
      if (x =? y)%string then is_subsequence l1' l2' else is_subsequence l1 l2'
  end.

(** ** Python dictionaries with string keys

    A [dict] keeps its keys in the order of their first insertion; writing
    to a key that is there replaces the value and leaves the key where it
    is. *)

Module PyDict.

Definition t (V : Type) : Type := list (string * V).

(** [d[k] = v] *)
Fixpoint set {V : Type} (d : t V) (k : string) (v : V) : t V :=
  match d with
  | [] => [(k, v)]
  | (k', v') :: d' =>
      if (k' =? k)%string then (k', v) :: d' else (k', v') :: set d' k v
  end.

(** [d.get(k)] *)
Fixpoint get {V : Type} (d : t V) (k : string) : option V :=
  match d with
  | [] => None
  | (k', v') :: d' => if (k' =? k)%string then Some v' else get d' k
  end.

(** [list(d.keys())] *)
Definition keys {V : Type} (d : t V) : list string := map fst d.

(** [dict.fromkeys(l)] *)
Definition fromkeys (l : list string) : t unit :=
  fold_left (fun d k => set d k tt) l [].

End PyDict.

(** ** More of Python's strings *)

Module PyText.
Import PyStr.

(** The scan of [s.split(sep)] for a separator that is not empty: [cur] is
    the piece being read, [skip] the number of characters of a separator
    just found that are still to be passed over. *)
Fixpoint split_from (sep s : string) (skip : nat) (cur : string) : list string :=
  match s with
  | EmptyString => [cur]
  | String c s' =>
      match skip with
      | S k => split_from sep s' k cur
      | O =>
          if startswith s sep
          then cur :: split_from sep s' (String.length sep - 1) EmptyString
          else split_from sep s' 0 (cur ++ String c EmptyString)
      end
  end.

Definition split (sep s : string) : list string := split_from sep s 0 EmptyString.

(** [[t.strip() for t in parts if t.strip()]] *)
Definition stripped_nonblank (parts : list string) : list string :=
  map strip (filter (fun t => truthy (strip t)) parts).

End PyText.

(** ** The persona catalog *)

(** One record of the catalog as [yaml.safe_load] returns it: for every
    field of [Persona] the value the record gives it, if it gives one, and
    the keys of the record that name no field.  The records covered are
    those whose values have the types the dataclass declares. *)
Module RawPersona.
Record t : Type := make {
  id : option string;
  name : option string;
  archetype : option string;
  demographics : option (list (string * string));
  traits : option (list string);
  goals : option (list string);
  tech_literacy : option string;
  risk_aversion : option string;
  tone : option string;
  pain_points : option (list string);
  motivations : option (list string);
  domain_expertise : option (list string);
  context : option string;
  other_keys : list string
}.
End RawPersona.

(** [x if given else default] *)
Definition or_default {A : Type} (x : option A) (default : A) : A :=
  match x with
  | Some a => a
  | None => default
  end.

(** [Persona] called with the record as its keyword arguments: a
    [TypeError] on a key that names no field and on a missing [id], [name]
    or [archetype]; the defaults of the dataclass for the other fields. *)
Definition Persona_of_raw (p : RawPersona.t) : option Persona.t :=
  match RawPersona.other_keys p with
  | _ :: _ => None
  | [] =>
      match RawPersona.id p, RawPersona.name p, RawPersona.archetype p with
      | Some i, Some n, Some a =>
          Some (Persona.make i n a
                  (or_default (RawPersona.demographics p) [])
                  (or_default (RawPersona.traits p) [])
                  (or_default (RawPersona.goals p) [])
                  (or_default (RawPersona.tech_literacy p) "intermediate")
                  (or_default (RawPersona.risk_aversion p) "medium")
                  (or_default (RawPersona.tone p) "neutral")
                  (or_default (RawPersona.pain_points p) [])
                  (or_default (RawPersona.motivations p) [])
                  (or_default (RawPersona.domain_expertise p) [])
                  (or_default (RawPersona.context p) ""))
      | _, _, _ => None
      end
  end.

(** The loop of [load_personas]: every record [p] is made a [Persona] and
    stored under [p["id"]]. *)
Fixpoint load_records (raw : list RawPersona.t) (out : PyDict.t Persona.t)
  : option (PyDict.t Persona.t) :=
  match raw with
  | [] => Some out
  | p :: raw' =>
      match Persona_of_raw p with
      | None => None
      | Some persona => load_records raw' (PyDict.set out (Persona.id persona) persona)
      end
  end.

(** [load_personas(path)]; [read_yaml path] is [yaml.safe_load] on the file
    at [path], [None] when opening or parsing raises. *)
Definition load_personas (read_yaml : string -> option (list RawPersona.t))
    (path : string) : option (PyDict.t Persona.t) :=
  match read_yaml path with
  | None => None
  | Some raw => load_records raw []
  end.

(** ** The exports *)

(** What the Markdown export takes from outside the text the embedding
    covers: the three characters of its labels beyond code point 255, the em
    dash, the bust and the test tube, and [json.dumps(meta, indent=2)]. *)
Record Renderer : Type := {
  em_dash : string;
  bust_glyph : string;
  test_tube_glyph : string;
  json_dumps_meta : Meta -> string
}.

Section Markdown.
Variable rd : Renderer.
Import PyStr.

(** What one turn of the loop of [to_markdown] adds to [body]. *)
Definition markdown_step (persona_name : string) (body : string) (m : Message.t)
  : string :=
  let role := if Role.eqb (Message.role m) Role.user
              then bust_glyph rd ++ " User"
              else test_tube_glyph rd ++ " " ++ persona_name in
  let body := body ++ "**" ++ role ++ ":** " ++ Message.content m ++ nl ++ nl in
  if meta_truthy (Message.meta m)
  then body ++ "<details><summary>meta</summary>" ++ nl ++ nl ++ "```json" ++ nl
         ++ json_dumps_meta rd (Message.meta m) ++ nl ++ "```" ++ nl
         ++ "</details>" ++ nl ++ nl
  else body.

Definition markdown_header (c : Conversation.t) : string :=
  "# Conversation " ++ em_dash rd ++ " " ++ Conversation.feature_title c ++ " "
    ++ em_dash rd ++ " " ++ Persona.name (Conversation.persona c) ++ " ("
    ++ Persona.archetype (Conversation.persona c) ++ ")" ++ nl.

(** [Conversation.to_markdown] *)
Definition to_markdown (c : Conversation.t) : string :=
  let header := markdown_header c in
  let meta := "- Created: " ++ Conversation.created_at c ++ nl
                ++ "- Seed: " ++ of_int (Conversation.seed c) ++ nl ++ nl
                ++ "---" ++ nl in
  let body := fold_left (markdown_step (Persona.name (Conversation.persona c)))
                (Conversation.messages c) "" in
  header ++ meta ++ body.

(** The text of one message as the specification words it: the bolded role
    label and the content, and for a message with metadata the collapsible
    JSON block. *)
Definition message_block (persona_name : string) (m : Message.t) : string :=
  markdown_step persona_name "" m.

End Markdown.

(** The file system and [pathlib]: joining a path and a name, creating a
    directory with its parents, writing a text file; the last two may
    raise. *)
Record FileSystem : Type := {
  files : Type;
  path_join : string -> string -> string;
  mkdir_parents : string -> files -> option files;
  write_text : string -> string -> files -> option files
}.

(** The name of the file of a run: [f"{conv.feature_id}_{conv.persona.id}.ext"] *)
Definition run_file_name (conv : Conversation.t) (ext : string) : string :=
  Conversation.feature_id conv ++ "_" ++ Persona.id (Conversation.persona conv)
    ++ "." ++ ext.

Section Saving.
Variable fsys : FileSystem.

(** The body the two exports share: create [base_dir/runs], write [text] to
    the file of the run in it, return the path of the file. *)
Definition save_run (conv : Conversation.t) (base_dir ext text : string)
    (st : files fsys) : option (string * files fsys) :=
  let runs := path_join fsys base_dir "runs" in
  match mkdir_parents fsys runs st with
  | None => None
  | Some st =>
      let fname := path_join fsys runs (run_file_name conv ext) in
      match write_text fsys fname text st with
      | None => None
      | Some st => Some (fname, st)
      end
  end.

(** [save_run_md] *)
Definition save_run_md (rd : Renderer) (conv : Conversation.t) (base_dir : string)
  : files fsys -> option (string * files fsys) :=
  save_run conv base_dir "md" (to_markdown rd conv).

(** [save_run_json]; [json_dumps conv] is [json.dumps] of the record with
    its persona and messages expanded. *)
Definition save_run_json (json_dumps : Conversation.t -> string)
    (conv : Conversation.t) (base_dir : string)
  : files fsys -> option (string * files fsys) :=
  save_run conv base_dir "json" (json_dumps conv).

End Saving.

(** ** The Streamlit front-end: titles and lists typed into the form *)

Section Form.
Import PyStr PyText.

(** The titles to run: the pieces of the batch field between two
    occurrences of its separator, stripped and without the blank ones, the
    stripped title of the form before them when it is not blank, every title
    once.  The separator is the literal the source writes, a backslash
    followed by the letter n. *)
Definition variant_titles (feature_title : string) (batch_variants : option string)
  : list string :=
  let variant_titles :=
    stripped_nonblank (split "\n" (or_default batch_variants "")) in
  let variant_titles :=
    if truthy (strip feature_title)
    then ([strip feature_title] ++ variant_titles)%list
    else variant_titles in
  PyDict.keys (PyDict.fromkeys variant_titles).

(** A list field of the custom persona:
    [[x.strip() for x in text.split(",") if x.strip()]] *)
Definition comma_list (text : string) : list string :=
  stripped_nonblank (split "," text).

End Form.

(** The record has its three required fields and no key that names no
    field. *)
Definition well_formed (p : RawPersona.t) : bool :=
  match RawPersona.other_keys p, RawPersona.id p, RawPersona.name p,
        RawPersona.archetype p with
  | [], Some _, Some _, Some _ => true
  | _, _, _, _ => false
  end.

(** The keys of a dictionary after a write to [k]. *)
Definition add_key (ks : list string) (k : string) : list string :=
  if existsb (String.eqb k) ks then ks else (ks ++ [k])%list.

(** An item a comma-separated field can carry: it is not blank, has no
    space at either end and no comma. *)
Definition list_item (x : string) : bool :=
  PyStr.truthy x && (PyStr.strip x =? x)%string && negb (PyStr.str_in "," x).

(** ** More sample inputs *)

Module MoreSamples.

(** An agent backend that raises on every prompt. *)
Definition mute : TinyTroupe :=
  {| TinyPerson := unit;
     new_TinyPerson := fun _ _ _ => tt;
     listen_and_act := fun _ _ => None |}.

(** A record with the three required fields and a tone. *)
Definition raw_ann : RawPersona.t :=
  RawPersona.make (Some "p1") (Some "Ann") (Some "Security Engineer") None
    (Some ["careful"; "terse"]) None (Some "expert") None (Some "casual")
    None None None None [].

Definition raw_bo : RawPersona.t :=
  RawPersona.make (Some "p2") (Some "Bo") (Some "Student") None None None
    None None None None None None None [].

(** A second record under the id of the first. *)
Definition raw_ann_again : RawPersona.t :=
  RawPersona.make (Some "p1") (Some "Ann B.") (Some "Product Manager") None
    None None None None None None None None None [].

(** A catalog of one file. *)
Definition catalog_file (path : string) : option (list RawPersona.t) :=
  if (path =? "personas.yaml")%string
  then Some [raw_ann; raw_bo; raw_ann_again]
  else None.

(** A file system in memory: the files written, the last one first. *)
Definition memory_fs : FileSystem :=
  {| files := list (string * string);
     path_join := fun a b => a ++ "/" ++ b;
     mkdir_parents := fun _ st => Some st;
     write_text := fun path text st => Some ((path, text) :: st) |}.

End MoreSamples.

(** ** Properties of binary64 rounding *)

Module B64Facts.
Import B64.

Lemma digits2_size (p : positive) : digits2_pos p = Pos.size p.
Proof. induction p; cbn; congruence. Qed.

(** [2^(d-1) <= p < 2^d] for the number of digits [d] of [p]. *)
Lemma digits2_bounds (p : positive) :
  2 ^ (Zpos (digits2_pos p) - 1) <= Zpos p < 2 ^ Zpos (digits2_pos p).
Proof.
  rewrite digits2_size.
  pose proof (Pos.size_gt p) as Hgt. pose proof (Pos.size_le p) as Hle.
  assert (H2 : Zpos (2 ^ Pos.size p) = 2 ^ Zpos (Pos.size p)) by apply Pos2Z.inj_pow.
  split.
  - assert (2 ^ Zpos (Pos.size p) = 2 * 2 ^ (Zpos (Pos.size p) - 1)).
    { rewrite <- Z.pow_succ_r by lia. f_equal. lia. }
    assert (Zpos (2 ^ Pos.size p) <= Zpos p~0) by exact Hle.
    lia.
  - rewrite <- H2. exact Hgt.
Qed.

Lemma iter_pos_nat {A : Type} (f : A -> A) (p : positive) (x : A) :
  iter_pos f p x = Nat.iter (Pos.to_nat p) f x.
Proof.
  revert x. induction p as [p IH|p IH|]; intros x; cbn [iter_pos].
  - rewrite !IH, Pos2Nat.inj_xI.
    rewrite <- Nat.iter_add, <- Nat.iter_succ_r. f_equal. lia.
  - rewrite !IH, Pos2Nat.inj_xO. rewrite <- Nat.iter_add. f_equal. lia.
  - reflexivity.
Qed.

Lemma shr_1_nonneg (m : Z) (r s : bool) :
  0 <= m ->
  shr_1 (Build_shr_record m r s) = Build_shr_record (Z.div2 m) (Z.odd m) (r || s).
Proof.
  intros Hm. destruct m as [|[p|p|]|p]; try reflexivity. lia.
Qed.


Lemma shr_inv_iter (m : Z) (n : nat) :
  0 <= m ->
  shr_inv m n (Nat.iter n shr_1 (Build_shr_record m false false)).
Proof.
  intros Hm. induction n as [|n IH].
  - cbn. split; [exact Hm|]. exists 0. cbn. lia.
  - rewrite Nat.iter_succ.
    destruct (Nat.iter n shr_1 (Build_shr_record m false false)) as [q r s].
    destruct IH as (Hq & rem & Hm' & Hrem & Hloc). cbn [shr_m] in *.
    rewrite shr_1_nonneg by exact Hq.
    assert (Hpow : 2 ^ Z.of_nat (S n) = 2 * 2 ^ Z.of_nat n).
    { rewrite Nat2Z.inj_succ, Z.pow_succ_r by lia. reflexivity. }
    assert (Hp : 0 < 2 ^ Z.of_nat n) by (apply Z.pow_pos_nonneg; lia).
    pose proof (Z.div2_odd q) as Hq2.
    split; [cbn [shr_m]; rewrite Z.div2_div; apply Z.div_pos; lia|].
    exists ((if Z.odd q then 1 else 0) * 2 ^ Z.of_nat n + rem).
    cbn [shr_m]. rewrite Hpow.
    set (d := Z.div2 q) in *. set (P := 2 ^ Z.of_nat n) in *.
    destruct (Z.odd q); destruct r, s;
      cbn [loc_of_shr_record orb Z.b2z] in Hloc, Hq2 |- *;
      rewrite Hq2 in Hm'; repeat split; try lia; try nia.
Qed.


Lemma rne_ge (m : Z) (n : nat) (c : Z) :
  0 <= m -> c * 2 ^ Z.of_nat n <= m -> c <= rne m n.
Proof.
  intros Hm Hc. unfold rne.
  destruct (shr_inv_iter m n Hm) as (Hq & rem & Hm' & Hrem & Hloc).
  destruct (Nat.iter n shr_1 _) as [q r s]. cbn [shr_m] in *.
  assert (c <= q) by nia.
  destruct r, s; cbn [loc_of_shr_record round_nearest_even];
    try destruct (Z.even q); lia.
Qed.

Lemma rne_le (m : Z) (n : nat) (c : Z) :
  0 <= m -> m <= c * 2 ^ Z.of_nat n -> rne m n <= c.
Proof.
  intros Hm Hc. unfold rne.
  destruct (shr_inv_iter m n Hm) as (Hq & rem & Hm' & Hrem & Hloc).
  destruct (Nat.iter n shr_1 _) as [q r s]. cbn [shr_m] in *.
  destruct r, s; cbn [loc_of_shr_record round_nearest_even] in Hloc |- *;
    try destruct (Z.even q); nia.
Qed.

Lemma rne_le_half (m : Z) (n : nat) (c : Z) :
  0 <= m -> Z.even c = true ->
  2 * m <= (2 * c + 1) * 2 ^ Z.of_nat n -> rne m n <= c.
Proof.
  intros Hm Hev Hc. unfold rne.
  destruct (shr_inv_iter m n Hm) as (Hq & rem & Hm' & Hrem & Hloc).
  destruct (Nat.iter n shr_1 _) as [q r s]. cbn [shr_m] in *.
  assert (Hqc : q < c \/ q = c) by nia.
  destruct Hqc as [Hlt | ->].
  - destruct r, s; cbn [loc_of_shr_record round_nearest_even];
      try destruct (Z.even q); lia.
  - destruct r, s; cbn [loc_of_shr_record round_nearest_even] in Hloc |- *;
      rewrite ?Hev; nia.
Qed.


Lemma shr_nat (mrs : shr_record) (e s : Z) :
  0 <= s -> shr mrs e s = (Nat.iter (Z.to_nat s) shr_1 mrs, e + s).
Proof.
  intros Hs. destruct s as [|p|p]; [| |lia].
  - cbn. now rewrite Z.add_0_r.
  - cbn [shr]. now rewrite iter_pos_nat.
Qed.

Lemma digits2_53 (p : positive) :
  2 ^ 52 <= Zpos p < 2 ^ 53 -> Zpos (digits2_pos p) = 53.
Proof.
  intros Hp. pose proof (digits2_bounds p) as Hd.
  set (d := Zpos (digits2_pos p)) in *.
  assert (0 < d) by (unfold d; lia).
  destruct (Z.lt_trichotomy d 53) as [Hlt | [Heq | Hgt]]; [|exact Heq|].
  - assert (2 ^ d <= 2 ^ 52) by (apply Z.pow_le_mono_r; lia). lia.
  - assert (2 ^ 53 <= 2 ^ (d - 1)) by (apply Z.pow_le_mono_r; lia). lia.
Qed.

Lemma fexp_normal (d e : Z) : -1074 <= d + e - 53 -> fexp 53 1024 (d + e) = d + e - 53.
Proof. intros H. unfold fexp, emin. lia. Qed.

(** [binary_round_aux] on a mantissa of at least 53 digits, away from
    underflow and overflow: the mantissa is rounded to 53 digits, and when
    it rounds up to [2^53] the exponent takes the carry. *)
Lemma binary_round_aux_normal (sx : bool) (m : positive) (e : Z) :
  let s := Zpos (digits2_pos m) - 53 in
  0 <= s -> -1074 <= e + s -> e + s < 971 ->
  let q := rne (Zpos m) (Z.to_nat s) in
  2 ^ 52 <= q <= 2 ^ 53 /\
  binary_round_aux 53 1024 sx (Zpos m) e loc_Exact =
    if q <? 2 ^ 53 then S754_finite sx (Z.to_pos q) (e + s)
    else S754_finite sx (Z.to_pos (2 ^ 52)) (e + s + 1).
Proof.
  intros s Hs Hlo Hhi q.
  pose proof (digits2_bounds m) as Hd.
  assert (Hpow : 2 ^ Zpos (digits2_pos m) = 2 ^ 53 * 2 ^ Z.of_nat (Z.to_nat s)).
  { rewrite Z2Nat.id by exact Hs. rewrite <- Z.pow_add_r by lia. f_equal. unfold s. lia. }
  assert (Hpow' : 2 ^ (Zpos (digits2_pos m) - 1) = 2 ^ 52 * 2 ^ Z.of_nat (Z.to_nat s)).
  { rewrite Z2Nat.id by exact Hs. rewrite <- Z.pow_add_r by lia. f_equal. unfold s. lia. }
  assert (Hq : 2 ^ 52 <= q <= 2 ^ 53).
  { split; [apply rne_ge | apply rne_le]; lia. }
  split; [exact Hq|].
  unfold binary_round_aux, shr_fexp.
  cbn [Zdigits2 shr_record_of_loc].
  rewrite fexp_normal by (fold s; lia).
  replace (Zpos (digits2_pos m) + e - 53 - e) with s by (unfold s; lia).
  rewrite shr_nat by exact Hs.
  fold (rne (Zpos m) (Z.to_nat s)). fold q.
  destruct (q <? 2 ^ 53) eqn:Hcarry.
  - apply Z.ltb_lt in Hcarry.
    destruct q as [|qp|qp] eqn:Eq; [lia| |lia].
    cbn [Zdigits2]. rewrite (digits2_53 qp) by lia.
    rewrite fexp_normal by lia.
    replace (53 + (e + s) - 53 - (e + s)) with 0 by lia.
    cbn [shr shr_m]. 
    replace (e + s <=? 1024 - 53) with true by (symmetry; apply Z.leb_le; lia).
    reflexivity.
  - apply Z.ltb_ge in Hcarry. assert (Eq : q = 2 ^ 53) by lia.
    rewrite Eq.
    change (Zdigits2 (2 ^ 53)) with 54.
    rewrite fexp_normal by lia.
    replace (54 + (e + s) - 53 - (e + s)) with 1 by lia.
    cbn [shr iter_pos].
    change (shr_m (shr_1 {| shr_m := 2 ^ 53; shr_r := false; shr_s := false |}))
      with (2 ^ 52).
    change (2 ^ 52) with (Zpos (Z.to_pos (2 ^ 52))) at 1.
    cbv iota beta.
    replace (e + s + 1 <=? 1024 - 53) with true by (symmetry; apply Z.leb_le; lia).
    reflexivity.
Qed.


Lemma pow_split (a b : Z) : 0 <= a -> 0 <= b -> 2 ^ (a + b) = 2 ^ a * 2 ^ b.
Proof. intros. now rewrite Z.pow_add_r. Qed.

Lemma pow_pos (a : Z) : 0 <= a -> 0 < 2 ^ a.
Proof. intros. apply Z.pow_pos_nonneg; lia. Qed.

(** The three ways a rounded mantissa [q] at exponent [E] compares with a
    canonical float [(mc, ec)], from the bounds [rne] gives when the two
    exponents agree. *)
Section Compare.
Variables (m q s E e mc ec : Z).
Hypothesis Hs : 0 <= s.
Hypothesis HE : E = e + s.
Hypothesis He : 0 <= e + bias.
Hypothesis Hec : 0 <= ec + bias.
Hypothesis Hm : 2 ^ 52 * 2 ^ s <= m < 2 ^ 53 * 2 ^ s.
Hypothesis Hq : 2 ^ 52 <= q <= 2 ^ 53.
Hypothesis Hmc : canon mc.

Lemma compare_upper :
  (m <= mc * 2 ^ s -> q <= mc) ->
  scaled m e <= scaled mc ec -> scaled q E <= scaled mc ec.
Proof.
  intros Hrne Hle. unfold scaled, canon in *.
  assert (HA : 0 < 2 ^ (e + bias)) by (apply pow_pos; lia).
  assert (HS : 0 < 2 ^ s) by (apply pow_pos; lia).
  assert (HEA : 2 ^ (E + bias) = 2 ^ s * 2 ^ (e + bias)).
  { rewrite <- pow_split by lia. f_equal. lia. }
  destruct (Z.lt_trichotomy ec E) as [Hlt | [Heq | Hgt]].
  - exfalso.
    assert (HC : 0 < 2 ^ (ec + bias)) by (apply pow_pos; lia).
    assert (HT : 2 ^ (E + bias) = 2 * 2 ^ (E - ec - 1) * 2 ^ (ec + bias)).
    { change 2 with (2 ^ 1) at 2. rewrite <- !pow_split by lia. f_equal. lia. }
    assert (HT1 : 0 < 2 ^ (E - ec - 1)) by (apply pow_pos; lia).
    set (A := 2 ^ (e + bias)) in *. set (S := 2 ^ s) in *.
    set (C := 2 ^ (ec + bias)) in *. set (T := 2 ^ (E - ec - 1)) in *.
    assert (2 ^ 52 * (S * A) <= m * A) by nia.
    assert (2 ^ 52 * (2 * T * C) <= mc * C) by (rewrite <- HT, HEA; lia).
    assert (0 <= C * (T - 1)) by (apply Z.mul_nonneg_nonneg; lia).
    assert (2 ^ 53 * C <= 2 ^ 52 * (2 * T * C)) by lia.
    nia.
  - subst ec. rewrite HEA in *.
    set (A := 2 ^ (e + bias)) in *. set (S := 2 ^ s) in *.
    assert (q <= mc) by (apply Hrne; nia).
    nia.
  - assert (HT : 2 ^ (ec + bias) = 2 * 2 ^ (ec - E - 1) * 2 ^ (E + bias)).
    { change 2 with (2 ^ 1) at 2. rewrite <- !pow_split by lia. f_equal. lia. }
    assert (HT1 : 0 < 2 ^ (ec - E - 1)) by (apply pow_pos; lia).
    rewrite HT, HEA.
    set (A := 2 ^ (e + bias)) in *. set (S := 2 ^ s) in *.
    set (T := 2 ^ (ec - E - 1)) in *.
    assert (q * (S * A) <= 2 * mc * (S * A)) by nia.
    assert (0 <= mc * (S * A) * (T - 1))
      by (repeat apply Z.mul_nonneg_nonneg; lia).
    assert (2 * mc * (S * A) <= mc * (2 * T * (S * A))) by lia.
    lia.
Qed.

Lemma compare_upper_half :
  (2 * m <= (2 * mc + 1) * 2 ^ s -> q <= mc) ->
  2 * scaled m e <= scaled (2 * mc + 1) ec -> scaled q E <= scaled mc ec.
Proof.
  intros Hrne Hle. unfold scaled, canon in *.
  assert (HA : 0 < 2 ^ (e + bias)) by (apply pow_pos; lia).
  assert (HS : 0 < 2 ^ s) by (apply pow_pos; lia).
  assert (HEA : 2 ^ (E + bias) = 2 ^ s * 2 ^ (e + bias)).
  { rewrite <- pow_split by lia. f_equal. lia. }
  destruct (Z.lt_trichotomy ec E) as [Hlt | [Heq | Hgt]].
  - exfalso.
    assert (HC : 0 < 2 ^ (ec + bias)) by (apply pow_pos; lia).
    assert (HT : 2 ^ (E + bias) = 2 * 2 ^ (E - ec - 1) * 2 ^ (ec + bias)).
    { change 2 with (2 ^ 1) at 2. rewrite <- !pow_split by lia. f_equal. lia. }
    assert (HT1 : 0 < 2 ^ (E - ec - 1)) by (apply pow_pos; lia).
    set (A := 2 ^ (e + bias)) in *. set (S := 2 ^ s) in *.
    set (C := 2 ^ (ec + bias)) in *. set (T := 2 ^ (E - ec - 1)) in *.
    assert (2 ^ 52 * (S * A) <= m * A) by nia.
    assert (2 * (2 ^ 52 * (2 * T * C)) <= (2 * mc + 1) * C) by (rewrite <- HT, HEA; lia).
    assert (0 <= C * (T - 1)) by (apply Z.mul_nonneg_nonneg; lia).
    assert (2 ^ 54 * C <= 2 * (2 ^ 52 * (2 * T * C))) by lia.
    nia.
  - subst ec. rewrite HEA in *.
    set (A := 2 ^ (e + bias)) in *. set (S := 2 ^ s) in *.
    assert (q <= mc) by (apply Hrne; nia).
    nia.
  - assert (HT : 2 ^ (ec + bias) = 2 * 2 ^ (ec - E - 1) * 2 ^ (E + bias)).
    { change 2 with (2 ^ 1) at 2. rewrite <- !pow_split by lia. f_equal. lia. }
    assert (HT1 : 0 < 2 ^ (ec - E - 1)) by (apply pow_pos; lia).
    rewrite HT, HEA.
    set (A := 2 ^ (e + bias)) in *. set (S := 2 ^ s) in *.
    set (T := 2 ^ (ec - E - 1)) in *.
    assert (q * (S * A) <= 2 * mc * (S * A)) by nia.
    assert (0 <= mc * (S * A) * (T - 1))
      by (repeat apply Z.mul_nonneg_nonneg; lia).
    assert (2 * mc * (S * A) <= mc * (2 * T * (S * A))) by lia.
    lia.
Qed.

Lemma compare_lower :
  (mc * 2 ^ s <= m -> mc <= q) ->
  scaled mc ec <= scaled m e -> scaled mc ec <= scaled q E.
Proof.
  intros Hrne Hle. unfold scaled, canon in *.
  assert (HA : 0 < 2 ^ (e + bias)) by (apply pow_pos; lia).
  assert (HS : 0 < 2 ^ s) by (apply pow_pos; lia).
  assert (HEA : 2 ^ (E + bias) = 2 ^ s * 2 ^ (e + bias)).
  { rewrite <- pow_split by lia. f_equal. lia. }
  destruct (Z.lt_trichotomy ec E) as [Hlt | [Heq | Hgt]].
  - assert (HC : 0 < 2 ^ (ec + bias)) by (apply pow_pos; lia).
    assert (HT : 2 ^ (E + bias) = 2 * 2 ^ (E - ec - 1) * 2 ^ (ec + bias)).
    { change 2 with (2 ^ 1) at 2. rewrite <- !pow_split by lia. f_equal. lia. }
    assert (HT1 : 0 < 2 ^ (E - ec - 1)) by (apply pow_pos; lia).
    rewrite HT.
    set (C := 2 ^ (ec + bias)) in *. set (T := 2 ^ (E - ec - 1)) in *.
    assert (0 <= C * (T - 1)) by (apply Z.mul_nonneg_nonneg; lia).
    assert (0 <= (q - 2 ^ 52) * (T * C))
      by (repeat apply Z.mul_nonneg_nonneg; lia).
    assert (2 ^ 53 * C <= q * (2 * T * C)) by lia.
    nia.
  - subst ec. rewrite HEA in *.
    set (A := 2 ^ (e + bias)) in *. set (S := 2 ^ s) in *.
    assert (mc <= q) by (apply Hrne; nia).
    nia.
  - exfalso.
    assert (HT : 2 ^ (ec + bias) = 2 * 2 ^ (ec - E - 1) * 2 ^ (E + bias)).
    { change 2 with (2 ^ 1) at 2. rewrite <- !pow_split by lia. f_equal. lia. }
    assert (HT1 : 0 < 2 ^ (ec - E - 1)) by (apply pow_pos; lia).
    rewrite HT, HEA in Hle.
    set (A := 2 ^ (e + bias)) in *. set (S := 2 ^ s) in *.
    set (T := 2 ^ (ec - E - 1)) in *.
    assert (0 <= S * A * (T - 1)) by (repeat apply Z.mul_nonneg_nonneg; lia).
    assert (0 <= (mc - 2 ^ 52) * (T * (S * A)))
      by (repeat apply Z.mul_nonneg_nonneg; lia).
    assert (2 ^ 53 * (S * A) <= mc * (2 * T * (S * A))) by lia.
    assert (m * A < 2 ^ 53 * S * A) by nia.
    nia.
Qed.

End Compare.


Lemma iter_xO_value (n : nat) (x : positive) :
  Zpos (Nat.iter n xO x) = Zpos x * 2 ^ Z.of_nat n /\
  Zpos (digits2_pos (Nat.iter n xO x)) = Zpos (digits2_pos x) + Z.of_nat n.
Proof.
  induction n as [|n [IHv IHd]].
  - change (Nat.iter 0 xO x) with x. change (Z.of_nat 0) with 0.
    rewrite Z.pow_0_r. lia.
  - rewrite Nat.iter_succ. cbn [digits2_pos].
    rewrite Pos2Z.inj_xO, IHv, Pos2Z.inj_succ, IHd, Nat2Z.inj_succ.
    rewrite Z.pow_succ_r by lia. lia.
Qed.

(** [shl_align] before a rounding in the normal range: the mantissa it
    returns has at least 53 digits and stands for the same value. *)
Lemma shl_align_normal (mx : positive) (ex : Z) :
  let E := Zpos (digits2_pos mx) + ex - 53 in
  -1074 <= E -> 0 <= ex + bias -> 0 <= E + bias ->
  exists mz ez,
    shl_align mx ex (fexp 53 1024 (Zpos (digits2_pos mx) + ex)) = (mz, ez) /\
    0 <= Zpos (digits2_pos mz) - 53 /\
    ez + (Zpos (digits2_pos mz) - 53) = E /\
    0 <= ez + bias /\
    scaled (Zpos mz) ez = scaled (Zpos mx) ex.
Proof.
  intros E HE Hex HEb. rewrite fexp_normal by exact HE. fold E.
  unfold shl_align.
  destruct (E - ex) as [|d|d] eqn:Hd.
  - exists mx, ex. repeat split; unfold E in *; lia.
  - exists mx, ex. repeat split; unfold E in *; lia.
  - rewrite Pos2Nat.inj_iter.
    destruct (iter_xO_value (Pos.to_nat d) mx) as [Hv Hdg].
    rewrite positive_nat_Z in Hv, Hdg.
    exists (Nat.iter (Pos.to_nat d) xO mx), E.
    split; [reflexivity|]. rewrite Hdg.
    assert (Hd' : Zpos d = ex - E) by lia.
    repeat split; try (unfold E in *; lia).
    unfold scaled. rewrite Hv.
    replace (ex + bias) with (Zpos d + (E + bias)) by lia.
    rewrite (pow_split (Zpos d) (E + bias)) by lia. ring.
Qed.

(** [binary_round_aux] in the normal range returns a canonical finite
    float, and rounding does not cross a canonical float: a bound on the
    exact value by a canonical float is a bound on the rounded one, and so
    is, for an even mantissa, a bound by the midpoint above it. *)
Lemma binary_round_aux_bounds (sx : bool) (mz : positive) (ez : Z) :
  let E := Zpos (digits2_pos mz) + ez - 53 in
  53 <= Zpos (digits2_pos mz) ->
  -1074 <= E < 971 -> 0 <= ez + bias ->
  exists q' e',
    binary_round_aux 53 1024 sx (Zpos mz) ez loc_Exact = S754_finite sx q' e' /\
    canon (Zpos q') /\ E <= e' <= E + 1 /\
    forall mc ec, canon mc -> 0 <= ec + bias ->
      (scaled (Zpos mz) ez <= scaled mc ec ->
       scaled (Zpos q') e' <= scaled mc ec) /\
      (Z.even mc = true -> 2 * scaled (Zpos mz) ez <= scaled (2 * mc + 1) ec ->
       scaled (Zpos q') e' <= scaled mc ec) /\
      (scaled mc ec <= scaled (Zpos mz) ez ->
       scaled mc ec <= scaled (Zpos q') e').
Proof.
  intros E Hdg HE Hez.
  set (s := Zpos (digits2_pos mz) - 53) in *.
  assert (Hs : 0 <= s) by (unfold s; lia).
  assert (HEz : ez + s = E) by (unfold E, s; lia).
  destruct (binary_round_aux_normal sx mz ez) as [Hq Hres];
    [exact Hs | fold s; lia | fold s; lia |].
  fold s in Hq, Hres. set (q := rne (Zpos mz) (Z.to_nat s)) in *.
  pose proof (digits2_bounds mz) as Hd.
  assert (Hm : 2 ^ 52 * 2 ^ s <= Zpos mz < 2 ^ 53 * 2 ^ s).
  { rewrite <- !pow_split by lia.
    replace (52 + s) with (Zpos (digits2_pos mz) - 1) by (unfold s; lia).
    replace (53 + s) with (Zpos (digits2_pos mz)) by (unfold s; lia).
    exact Hd. }
  assert (Hsn : Z.of_nat (Z.to_nat s) = s) by (apply Z2Nat.id; exact Hs).
  assert (Hfin : exists q' e',
             binary_round_aux 53 1024 sx (Zpos mz) ez loc_Exact =
               S754_finite sx q' e' /\
             canon (Zpos q') /\ E <= e' <= E + 1 /\
             scaled (Zpos q') e' = scaled q (ez + s)).
  { rewrite Hres. destruct (q <? 2 ^ 53) eqn:Hcarry.
    - apply Z.ltb_lt in Hcarry. exists (Z.to_pos q), (ez + s).
      rewrite Z2Pos.id by lia. unfold canon. repeat split; lia.
    - apply Z.ltb_ge in Hcarry. exists (Z.to_pos (2 ^ 52)), (ez + s + 1).
      split; [reflexivity|]. split; [unfold canon; cbn; lia|].
      split; [lia|].
      assert (Eq : q = 2 ^ 53) by lia. rewrite Eq. unfold scaled.
      replace (ez + s + 1 + bias) with (1 + (ez + s + bias)) by lia.
      rewrite (pow_split 1 (ez + s + bias)) by lia.
      change (Zpos (Z.to_pos (2 ^ 52))) with (2 ^ 52).
      change (2 ^ 53) with (2 ^ 52 * 2 ^ 1). ring. }
  destruct Hfin as (q' & e' & Hrun & Hcan & He' & Hq').
  exists q', e'. split; [exact Hrun|]. split; [exact Hcan|]. split; [exact He'|].
  intros mc ec Hmc Hec. rewrite Hq'. repeat split.
  - apply (compare_upper (Zpos mz) q s (ez + s) ez mc ec); try assumption; try lia.
    intros H. apply rne_le; [lia | now rewrite Hsn].
  - intros Hev.
    apply (compare_upper_half (Zpos mz) q s (ez + s) ez mc ec);
      try assumption; try lia.
    intros H. apply rne_le_half; [lia | exact Hev | now rewrite Hsn].
  - apply (compare_lower (Zpos mz) q s (ez + s) ez mc ec); try assumption; try lia.
    intros H. apply rne_ge; [lia | now rewrite Hsn].
Qed.

(** The same for [binary_round], which first brings a short mantissa to 53
    digits. *)
Lemma binary_round_bounds (sx : bool) (mx : positive) (ex : Z) :
  let E := Zpos (digits2_pos mx) + ex - 53 in
  -1074 <= E < 971 -> 0 <= ex + bias -> 0 <= E + bias ->
  exists q' e',
    binary_round 53 1024 sx mx ex = S754_finite sx q' e' /\
    canon (Zpos q') /\ E <= e' <= E + 1 /\
    forall mc ec, canon mc -> 0 <= ec + bias ->
      (scaled (Zpos mx) ex <= scaled mc ec ->
       scaled (Zpos q') e' <= scaled mc ec) /\
      (Z.even mc = true -> 2 * scaled (Zpos mx) ex <= scaled (2 * mc + 1) ec ->
       scaled (Zpos q') e' <= scaled mc ec) /\
      (scaled mc ec <= scaled (Zpos mx) ex ->
       scaled mc ec <= scaled (Zpos q') e').
Proof.
  intros E HE Hex HEb.
  destruct (shl_align_normal mx ex) as (mz & ez & Hal & Hs & HEz & Hez & Hval);
    [fold E; lia | exact Hex | fold E; exact HEb |].
  fold E in HEz.
  unfold binary_round. rewrite Hal, <- Hval.
  replace E with (Zpos (digits2_pos mz) + ez - 53) by lia.
  apply binary_round_aux_bounds; lia.
Qed.

(** The number of digits of a positive number between two powers of 2. *)
Lemma digits2_le (p : positive) (a : Z) :
  0 <= a -> Zpos p < 2 ^ a -> Zpos (digits2_pos p) <= a.
Proof.
  intros Ha Hp. pose proof (digits2_bounds p) as Hd.
  destruct (Z_le_gt_dec (Zpos (digits2_pos p)) a) as [Hle | Hgt]; [exact Hle|].
  assert (2 ^ a <= 2 ^ (Zpos (digits2_pos p) - 1)) by (apply Z.pow_le_mono_r; lia).
  lia.
Qed.

Lemma digits2_gt (p : positive) (a : Z) :
  0 <= a -> 2 ^ a <= Zpos p -> a < Zpos (digits2_pos p).
Proof.
  intros Ha Hp. pose proof (digits2_bounds p) as Hd.
  destruct (Z_lt_le_dec a (Zpos (digits2_pos p))) as [Hlt | Hge]; [exact Hlt|].
  assert (2 ^ Zpos (digits2_pos p) <= 2 ^ a) by (apply Z.pow_le_mono_r; lia).
  lia.
Qed.

(** When the exact value is that of a number [n] of at most 53 digits at
    exponent [en], [binary_round] returns a float of that very value. *)
Lemma binary_round_representable (sx : bool) (mx : positive) (ex : Z)
    (n : positive) (en : Z) :
  let E := Zpos (digits2_pos mx) + ex - 53 in
  -1074 <= E < 971 -> 0 <= ex + bias -> 0 <= E + bias ->
  Zpos (digits2_pos n) <= 53 -> 0 <= Zpos (digits2_pos n) + en - 53 + bias ->
  scaled (Zpos mx) ex = scaled (Zpos n) en ->
  exists q' e',
    binary_round 53 1024 sx mx ex = S754_finite sx q' e' /\
    canon (Zpos q') /\ E <= e' <= E + 1 /\
    scaled (Zpos q') e' = scaled (Zpos n) en.
Proof.
  intros E HE Hex HEb Hdn Hen Hval.
  destruct (binary_round_bounds sx mx ex) as (q' & e' & Hrun & Hcan & He' & Hb);
    [fold E; lia | exact Hex | fold E; exact HEb |].
  exists q', e'. split; [exact Hrun|]. split; [exact Hcan|]. split; [exact He'|].
  set (dn := Zpos (digits2_pos n)) in *.
  pose proof (digits2_bounds n) as Hn. fold dn in Hn.
  assert (Hdn0 : 0 < dn) by (unfold dn; lia).
  set (mc := Zpos n * 2 ^ (53 - dn)).
  assert (Hmc : canon mc).
  { unfold canon, mc.
    assert (H52 : 2 ^ 52 = 2 ^ (dn - 1) * 2 ^ (53 - dn))
      by (rewrite <- pow_split by lia; f_equal; lia).
    assert (H53 : 2 ^ 53 = 2 ^ dn * 2 ^ (53 - dn))
      by (rewrite <- pow_split by lia; f_equal; lia).
    assert (0 < 2 ^ (53 - dn)) by (apply pow_pos; lia).
    rewrite H52, H53. nia. }
  assert (Hc : scaled mc (dn + en - 53) = scaled (Zpos n) en).
  { unfold scaled, mc.
    replace (en + bias) with ((53 - dn) + (dn + en - 53 + bias)) by lia.
    rewrite (pow_split (53 - dn)) by lia. ring. }
  destruct (Hb mc (dn + en - 53) Hmc Hen) as (Hup & _ & Hlow).
  rewrite Hval, <- Hc in Hup, Hlow. rewrite <- Hc.
  apply Z.le_antisymm; [apply Hup | apply Hlow]; lia.
Qed.

(** Two canonical floats compare as their values do. *)
Lemma canon_scaled_le (m1 e1 m2 e2 : Z) :
  canon m1 -> canon m2 -> 0 <= e1 + bias -> 0 <= e2 + bias ->
  scaled m1 e1 <= scaled m2 e2 -> e1 < e2 \/ (e1 = e2 /\ m1 <= m2).
Proof.
  unfold canon, scaled. intros H1 H2 Hb1 Hb2 Hle.
  destruct (Z.lt_trichotomy e1 e2) as [Hlt | [Heq | Hgt]]; [now left | |].
  - right. split; [exact Heq|]. subst e2.
    assert (0 < 2 ^ (e1 + bias)) by (apply pow_pos; lia). nia.
  - exfalso.
    assert (HT : 2 ^ (e1 + bias) = 2 * 2 ^ (e1 - e2 - 1) * 2 ^ (e2 + bias)).
    { change 2 with (2 ^ 1) at 2. rewrite <- !pow_split by lia. f_equal. lia. }
    assert (0 < 2 ^ (e1 - e2 - 1)) by (apply pow_pos; lia).
    assert (0 < 2 ^ (e2 + bias)) by (apply pow_pos; lia).
    rewrite HT in Hle.
    set (C := 2 ^ (e2 + bias)) in *. set (T := 2 ^ (e1 - e2 - 1)) in *.
    assert (0 <= C * (T - 1)) by (apply Z.mul_nonneg_nonneg; lia).
    assert (0 <= (m1 - 2 ^ 52) * (T * C))
      by (repeat apply Z.mul_nonneg_nonneg; lia).
    assert (2 ^ 53 * C <= m1 * (2 * T * C)) by lia.
    nia.
Qed.

Lemma shl_align_value (m : positive) (e e' : Z) :
  e' <= e ->
  shl_align m e e' = (fst (shl_align m e e'), e') /\
  Zpos (fst (shl_align m e e')) = Zpos m * 2 ^ (e - e').
Proof.
  intros Hle. unfold shl_align.
  destruct (e' - e) as [|d|d] eqn:Hd; [| lia |].
  - assert (e' = e) by lia. subst e'. cbn [fst].
    rewrite Z.sub_diag, Z.pow_0_r. split; [reflexivity | lia].
  - cbn [fst]. split; [reflexivity|].
    rewrite Pos2Nat.inj_iter.
    destruct (iter_xO_value (Pos.to_nat d) m) as [Hv _].
    unfold Nat.iter in Hv. rewrite Hv.
    rewrite positive_nat_Z. f_equal. f_equal. lia.
Qed.

(** The float of the 53 random bits [k]: exactly [k * 2^-53]. *)
Lemma of_bits53_value (k : N) :
  (0 < k < 2 ^ 53)%N ->
  exists mr er,
    PyFloat.of_bits53 k = S754_finite false mr er /\
    canon (Zpos mr) /\ -105 <= er <= -53 /\
    scaled (Zpos mr) er = scaled (Z.of_N k) (-53).
Proof.
  intros Hk. destruct k as [|p]; [lia|].
  unfold PyFloat.of_bits53, PyFloat.prec, PyFloat.emax.
  cbn [Z.of_N binary_normalize].
  assert (Hp : Zpos p < 2 ^ 53) by (change (2 ^ 53) with (Z.of_N (2 ^ 53)); lia).
  pose proof (digits2_le p 53 ltac:(lia) Hp) as Hd.
  assert (Hd0 : 0 < Zpos (digits2_pos p)) by lia.
  destruct (binary_round_representable false p (-53) p (-53))
    as (mr & er & Hrun & Hcan & He & Hval);
    try (unfold bias; lia).
  exists mr, er. split; [exact Hrun|]. split; [exact Hcan|]. split; [|exact Hval].
  split; [lia|].
  assert (Hle : scaled (Zpos mr) er <= scaled (2 ^ 53 - 1) (-53)).
  { rewrite Hval. unfold scaled. apply Z.mul_le_mono_nonneg_r; [|lia].
    apply Z.pow_nonneg; lia. }
  apply canon_scaled_le in Hle; try (unfold bias; lia); try exact Hcan.
  unfold canon. lia.
Qed.

Lemma scaled_pos_cancel (a b e : Z) :
  0 <= e + bias -> scaled a e = scaled b e -> a = b.
Proof.
  unfold scaled. intros He H.
  assert (0 < 2 ^ (e + bias)) by (apply pow_pos; lia). nia.
Qed.

(** The jitter before its scaling, [random.random() - 0.5], is exact. *)
Lemma sub_half_value (k : N) :
  (k < 2 ^ 53)%N -> k <> (2 ^ 52)%N ->
  exists md ed,
    PyFloat.sub (PyFloat.of_bits53 k) PyFloat.f0_5 =
      S754_finite (k <? 2 ^ 52)%N md ed /\
    canon (Zpos md) /\ -160 <= ed <= -52 /\
    scaled (Zpos md) ed = scaled (Z.abs (Z.of_N k - 2 ^ 52)) (-53).
Proof.
  intros Hk Hne.
  destruct (N.eq_dec k 0) as [-> | Hk0].
  { exists (Z.to_pos (2 ^ 52)), (-53). split; [reflexivity|].
    split; [unfold canon; cbn; lia|]. split; [lia | reflexivity]. }
  destruct (of_bits53_value k) as (mr & er & -> & Hcan & Her & Hval); [lia|].
  unfold PyFloat.sub, PyFloat.f0_5, SFsub.
  rewrite Z.min_l by lia.
  destruct (shl_align_value mr er er) as [_ ->]; [lia|].
  destruct (shl_align_value 4503599627370496 (-53) er) as [_ ->]; [lia|].
  cbn [cond_Zopp]. rewrite Z.sub_diag, Z.pow_0_r, Z.mul_1_r.
  set (z := Zpos mr - 4503599627370496 * 2 ^ (-53 - er)).
  assert (Hz : scaled z er = scaled (Z.of_N k - 2 ^ 52) (-53)).
  { unfold z, scaled in *.
    rewrite Z.mul_sub_distr_r, Hval, Z.mul_sub_distr_r.
    f_equal. rewrite <- Z.mul_assoc, <- pow_split by (unfold bias; lia).
    f_equal. f_equal. lia. }
  assert (Hk' : Z.of_N k < 2 ^ 53) by (change (2 ^ 53) with (Z.of_N (2 ^ 53)); lia).
  assert (Hkne : Z.of_N k <> 2 ^ 52).
  { change (2 ^ 52) with (Z.of_N (2 ^ 52)). lia. }
  assert (HA : 0 < 2 ^ (er + bias)) by (apply pow_pos; unfold bias; lia).
  assert (HB : 0 < 2 ^ (-53 + bias)) by (apply pow_pos; unfold bias; lia).
  assert (Hsign : (0 < z <-> 2 ^ 52 < Z.of_N k) /\ (z = 0 <-> Z.of_N k = 2 ^ 52)).
  { unfold scaled in Hz. split; split; intros; nia. }
  assert (Hzmag : Z.abs z < 2 ^ (53 + (-53 - er))).
  { assert (0 < 2 ^ (-53 - er)) by (apply pow_pos; lia).
    rewrite pow_split by lia. unfold z, canon in *.
    apply Z.abs_lt. split; nia. }
  assert (Hltb : (k <? 2 ^ 52)%N = (Z.of_N k <? 2 ^ 52)).
  { destruct (N.ltb_spec k (2 ^ 52)) as [H | H];
      destruct (Z.ltb_spec (Z.of_N k) (2 ^ 52)) as [H' | H'];
      try reflexivity; exfalso;
      change (2 ^ 52) with (Z.of_N (2 ^ 52)) in H'; lia. }
  destruct z as [|p|p] eqn:Ez.
  - exfalso. apply Hkne, Hsign. reflexivity.
  - cbn [binary_normalize].
    assert (Hgt : 2 ^ 52 < Z.of_N k) by (apply Hsign; lia).
    pose proof (digits2_le p (53 + (-53 - er)) ltac:(lia) Hzmag) as Hdp.
    assert (Hd0 : 0 < Zpos (digits2_pos p)) by lia.
    destruct (binary_round_representable false p er
                (Z.to_pos (Z.of_N k - 2 ^ 52)) (-53))
      as (md & ed & Hrun & Hcd & Hed & Hvd); try (unfold bias; lia).
    + apply digits2_le; [lia|]. rewrite Z2Pos.id by lia. lia.
    + rewrite Z2Pos.id by lia. exact Hz.
    + exists md, ed. rewrite Hltb.
      replace (Z.of_N k <? 2 ^ 52) with false by (symmetry; apply Z.ltb_ge; lia).
      split; [exact Hrun|]. split; [exact Hcd|]. split; [lia|].
      rewrite Hvd, Z2Pos.id by lia. f_equal. lia.
  - cbn [binary_normalize].
    assert (Hlt : Z.of_N k < 2 ^ 52).
    { destruct (Z.lt_trichotomy (Z.of_N k) (2 ^ 52)) as [H | [H | H]];
        [exact H | contradiction | apply Hsign in H; lia]. }
    change (Z.abs (Z.neg p)) with (Zpos p) in Hzmag.
    pose proof (digits2_le p (53 + (-53 - er)) ltac:(lia) Hzmag) as Hdp.
    assert (Hd0 : 0 < Zpos (digits2_pos p)) by lia.
    assert (Hzp : scaled (Zpos p) er = scaled (2 ^ 52 - Z.of_N k) (-53)).
    { unfold scaled in *. change (Zpos p) with (- Z.neg p). lia. }
    destruct (binary_round_representable true p er
                (Z.to_pos (2 ^ 52 - Z.of_N k)) (-53))
      as (md & ed & Hrun & Hcd & Hed & Hvd); try (unfold bias; lia).
    + apply digits2_le; [lia|]. rewrite Z2Pos.id by lia. lia.
    + rewrite Z2Pos.id by lia. exact Hzp.
    + exists md, ed. rewrite Hltb.
      replace (Z.of_N k <? 2 ^ 52) with true by (symmetry; apply Z.ltb_lt; lia).
      split; [exact Hrun|]. split; [exact Hcd|]. split; [lia|].
      rewrite Hvd, Z2Pos.id by lia. f_equal. lia.
Qed.


(** The jitter [(random.random() - 0.5) * 0.1]: its magnitude is at most
    0.05, and at most two units in the last place less when the factor is
    at most [1/2 - 2^-53]. *)
Lemma mul_tenth_bounds (sd : bool) (md : positive) (ed : Z) :
  canon (Zpos md) -> -160 <= ed <= -52 ->
  exists mj ej,
    PyFloat.mul (S754_finite sd md ed) PyFloat.f0_1 = S754_finite sd mj ej /\
    canon (Zpos mj) /\ -170 <= ej /\
    (scaled (Zpos md) ed <= scaled (2 ^ 52) (-53) ->
     scaled (Zpos mj) ej <= scaled m_tenth (-57)) /\
    (scaled (Zpos md) ed <= scaled (2 ^ 52 - 1) (-53) ->
     scaled (Zpos mj) ej <= scaled (m_tenth - 2) (-57)).
Proof.
  intros Hcan Hed.
  unfold PyFloat.mul, PyFloat.f0_1, SFmul. rewrite xorb_false_r.
  fold PyFloat.prec PyFloat.emax.
  change PyFloat.prec with 53. change PyFloat.emax with 1024.
  set (p := (md * 7205759403792794)%positive).
  assert (Hp : Zpos p = Zpos md * m_tenth) by reflexivity.
  assert (Hplo : 2 ^ 104 <= Zpos p) by (unfold canon, m_tenth in *; nia).
  assert (Hphi : Zpos p < 2 ^ 106) by (unfold canon, m_tenth in *; nia).
  pose proof (digits2_gt p 104 ltac:(lia) Hplo) as Hd1.
  pose proof (digits2_le p 106 ltac:(lia) Hphi) as Hd2.
  destruct (binary_round_aux_bounds sd p (ed + -56))
    as (mj & ej & Hrun & Hcj & Hej & Hb); try (unfold bias; lia).
  exists mj, ej. split; [exact Hrun|]. split; [exact Hcj|]. split; [lia|].
  assert (HU : 0 < 2 ^ (ed + -56 + bias)) by (apply pow_pos; unfold bias; lia).
  assert (HV : 0 < 2 ^ (-57 + bias)) by (apply pow_pos; unfold bias; lia).
  assert (HedU : 2 ^ (ed + bias) = 2 ^ 56 * 2 ^ (ed + -56 + bias)).
  { rewrite <- pow_split by (unfold bias; lia). f_equal. lia. }
  assert (HV4 : 2 ^ (-53 + bias) = 2 ^ 4 * 2 ^ (-57 + bias)).
  { rewrite <- pow_split by (unfold bias; lia). f_equal. }
  split.
  - intros Hle.
    destruct (Hb m_tenth (-57)) as (Hup & _ & _);
      [unfold canon, m_tenth; lia | unfold bias; lia |].
    apply Hup. unfold scaled in *. rewrite Hp, HedU, HV4 in *.
    set (U := 2 ^ (ed + -56 + bias)) in *. set (V := 2 ^ (-57 + bias)) in *.
    assert (Zpos md * U <= V) by lia.
    unfold m_tenth. nia.
  - intros Hle.
    destruct (Hb (m_tenth - 2) (-57)) as (_ & Hup & _);
      [unfold canon, m_tenth; lia | unfold bias; lia |].
    apply Hup; [reflexivity|]. unfold scaled in *. rewrite Hp, HedU, HV4 in *.
    set (U := 2 ^ (ed + -56 + bias)) in *. set (V := 2 ^ (-57 + bias)) in *.
    unfold m_tenth. lia.
Qed.

(** The base 0.55 + 0.15 plus a jitter of magnitude at most 0.05 (and, when
    positive, at most 0.05 less two units in the last place) rounds to a
    float between 0.65 and 0.75. *)
Lemma add_base_bounds (sj : bool) (mj : positive) (ej : Z) :
  canon (Zpos mj) -> -170 <= ej ->
  scaled (Zpos mj) ej <= scaled m_tenth (-57) ->
  (sj = false -> scaled (Zpos mj) ej <= scaled (m_tenth - 2) (-57)) ->
  exists mx,
    PyFloat.add (S754_finite false 6305039478318695 (-53)) (S754_finite sj mj ej)
      = S754_finite false mx (-53) /\
    m_lo <= Zpos mx <= m_hi.
Proof.
  intros Hcan Hej Hmag Hpos.
  assert (Hej' : ej <= -57).
  { apply canon_scaled_le in Hmag; try (unfold bias; lia); try exact Hcan.
    unfold canon, m_tenth; lia. }
  unfold PyFloat.add, SFadd.
  rewrite Z.min_r by lia.
  destruct (shl_align_value 6305039478318695 (-53) ej) as [_ ->]; [lia|].
  destruct (shl_align_value mj ej ej) as [_ ->]; [lia|].
  unfold cond_Zopp. rewrite Z.sub_diag, Z.pow_0_r, Z.mul_1_r.
  fold m_base. change PyFloat.prec with 53. change PyFloat.emax with 1024.
  set (t := -53 - ej).
  assert (HT : 2 ^ 4 <= 2 ^ t) by (apply Z.pow_le_mono_r; unfold t; lia).
  set (z := m_base * 2 ^ t + (if sj then - Zpos mj else Zpos mj)).
  assert (Hzlo : 2 ^ (52 + t) <= z).
  { rewrite pow_split by (unfold t; lia).
    unfold z, canon, m_base in *. destruct sj; nia. }
  assert (Hzhi : z < 2 ^ (53 + t)).
  { rewrite pow_split by (unfold t; lia).
    unfold z, canon, m_base in *. destruct sj; nia. }
  assert (HA : 0 < 2 ^ (ej + bias)) by (apply pow_pos; unfold bias; lia).
  assert (HV : 0 < 2 ^ (-57 + bias)) by (apply pow_pos; unfold bias; lia).
  assert (HV4 : 2 ^ (-53 + bias) = 2 ^ 4 * 2 ^ (-57 + bias)).
  { rewrite <- pow_split by (unfold bias; lia). f_equal. }
  assert (HtA : 2 ^ t * 2 ^ (ej + bias) = 2 ^ (-53 + bias)).
  { rewrite <- pow_split by (unfold t, bias; lia). f_equal. unfold t. lia. }
  assert (Hz : scaled z ej =
               scaled m_base (-53)
               + (if sj then - scaled (Zpos mj) ej else scaled (Zpos mj) ej)).
  { unfold z, scaled. rewrite <- HtA. destruct sj; ring. }
  assert (Hz0 : 0 < z).
  { assert (0 < 2 ^ (52 + t)) by (apply pow_pos; unfold t; lia). lia. }
  destruct z as [|p|p] eqn:Ez; [lia | | lia].
  cbn [binary_normalize].
  pose proof (digits2_gt p (52 + t) ltac:(unfold t; lia) Hzlo) as Hd1.
  pose proof (digits2_le p (53 + t) ltac:(unfold t; lia) Hzhi) as Hd2.
  destruct (binary_round_bounds false p ej)
    as (mx & ex & Hrun & Hcx & Hex & Hb); try (unfold t, bias in *; lia).
  assert (Hmj0 : 0 <= scaled (Zpos mj) ej).
  { unfold scaled. apply Z.mul_nonneg_nonneg; lia. }
  assert (Hbounds : scaled m_lo (-53) <= scaled (Zpos mx) ex /\
                    scaled (Zpos mx) ex <= scaled m_hi (-53)).
  { split.
    - destruct (Hb m_lo (-53)) as (_ & _ & Hlow);
        [unfold canon, m_lo; lia | unfold bias; lia |].
      apply Hlow. rewrite Hz. unfold scaled in *. rewrite HV4 in *.
      set (V := 2 ^ (-57 + bias)) in *.
      unfold m_lo, m_base, m_tenth in *. destruct sj; lia.
    - destruct (Hb m_hi (-53)) as (_ & Hup & _);
        [unfold canon, m_hi; lia | unfold bias; lia |].
      apply Hup; [reflexivity|]. rewrite Hz.
      destruct sj.
      + unfold scaled in *. rewrite HV4 in *.
        set (V := 2 ^ (-57 + bias)) in *.
        unfold m_hi, m_base, m_tenth in *. lia.
      + specialize (Hpos eq_refl). unfold scaled in *. rewrite HV4 in *.
        set (V := 2 ^ (-57 + bias)) in *.
        unfold m_hi, m_base, m_tenth in *. lia. }
  destruct Hbounds as [Hlo Hhi].
  apply canon_scaled_le in Hlo; try (unfold bias; lia); try exact Hcx;
    [|unfold canon, m_lo; lia].
  apply canon_scaled_le in Hhi; try (unfold bias; lia); try exact Hcx;
    [|unfold canon, m_hi; lia].
  assert (ex = -53) by lia. subst ex.
  exists mx. split; [exact Hrun | lia].
Qed.

(** A float between 0.65 and 0.75 passes the clamp unchanged. *)
Lemma clamp_idle (mx : positive) :
  m_lo <= Zpos mx <= m_hi ->
  PyFloat.max PyFloat.f0_05 (PyFloat.min PyFloat.f0_95 (S754_finite false mx (-53)))
    = S754_finite false mx (-53) /\
  in_range PyFloat.f0_65 PyFloat.f0_75 (S754_finite false mx (-53)) = true.
Proof.
  intros [Hlo Hhi]. unfold m_lo, m_hi in *.
  assert (Hlt : forall a b : positive,
             Zpos a < Zpos b -> Pos.compare_cont Eq a b = Lt).
  { intros a b H. apply Pos.compare_lt_iff. lia. }
  assert (Hle : forall a b : positive, Zpos a <= Zpos b ->
             Pos.compare_cont Eq a b = Lt \/ Pos.compare_cont Eq a b = Eq).
  { intros a b H. change (Pos.compare_cont Eq a b) with (Pos.compare a b).
    destruct (Pos.compare_spec a b); auto; lia. }
  assert (H1 : PyFloat.ltb (S754_finite false mx (-53)) PyFloat.f0_95 = true).
  { unfold PyFloat.ltb, SFltb, PyFloat.f0_95, SFcompare.
    change (Z.compare (-53) (-53)) with Eq. cbv iota.
    rewrite Hlt by lia. reflexivity. }
  assert (H2 : PyFloat.ltb PyFloat.f0_05 (S754_finite false mx (-53)) = true)
    by reflexivity.
  split.
  - unfold PyFloat.max, PyFloat.min. now rewrite H1, H2.
  - unfold in_range, PyFloat.leb, SFleb, PyFloat.f0_65, PyFloat.f0_75, SFcompare.
    change (Z.compare (-53) (-53)) with Eq. cbv iota.
    destruct (Hle 5854679515581645%positive mx Hlo) as [-> | ->];
      destruct (Hle mx 6755399441055744%positive Hhi) as [-> | ->]; reflexivity.
Qed.

(** For the base 0.55 + 0.15 the score lies between 0.65 and 0.75, whatever
    the 53 random bits, and the clamp leaves it as it is. *)
Lemma confidence_expert_range (k : N) :
  (k < 2 ^ 53)%N ->
  confidence_for (PyFloat.add PyFloat.f0_55 PyFloat.f0_15) k =
    unclamped_for (PyFloat.add PyFloat.f0_55 PyFloat.f0_15) k /\
  in_range PyFloat.f0_65 PyFloat.f0_75
    (confidence_for (PyFloat.add PyFloat.f0_55 PyFloat.f0_15) k) = true.
Proof.
  intros Hk. unfold confidence_for, unclamped_for.
  destruct (N.eq_dec k (2 ^ 52)) as [-> | Hne];
    [split; vm_compute; reflexivity|].
  destruct (sub_half_value k Hk Hne) as (md & ed & -> & Hcd & Hed & Hvd).
  destruct (mul_tenth_bounds (k <? 2 ^ 52)%N md ed Hcd Hed)
    as (mj & ej & -> & Hcj & Hej & Hmag & Hpos).
  change (PyFloat.add PyFloat.f0_55 PyFloat.f0_15)
    with (S754_finite false 6305039478318695 (-53)).
  assert (Hk' : Z.of_N k < 2 ^ 53) by (change (2 ^ 53) with (Z.of_N (2 ^ 53)); lia).
  assert (HB : 0 < 2 ^ (-53 + bias)) by (apply pow_pos; unfold bias; lia).
  destruct (add_base_bounds (k <? 2 ^ 52)%N mj ej Hcj Hej) as (mx & -> & Hmx).
  - apply Hmag. rewrite Hvd. unfold scaled.
    apply Z.mul_le_mono_nonneg_r; lia.
  - intros Hs. apply Hpos. rewrite Hvd. unfold scaled.
    apply Z.mul_le_mono_nonneg_r; [lia|].
    apply N.ltb_ge in Hs.
    assert (Z.of_N (2 ^ 52) <= Z.of_N k) by lia.
    change (Z.of_N (2 ^ 52)) with (2 ^ 52) in *. lia.
  - destruct (clamp_idle mx Hmx) as [-> Hr]. split; [reflexivity | exact Hr].
Qed.

(** The two bounds are attained, at the smallest and at the largest draw. *)
Lemma confidence_expert_extremes :
  confidence_for (PyFloat.add PyFloat.f0_55 PyFloat.f0_15) 0 = PyFloat.f0_65 /\
  confidence_for (PyFloat.add PyFloat.f0_55 PyFloat.f0_15) (2 ^ 53 - 1)
    = PyFloat.f0_75.
Proof. split; vm_compute; reflexivity. Qed.

End B64Facts.

(** ** Properties of the signal extractor *)

Section ExtractorFacts.
Context {R : RandomSource}.
Import PyStr.

Lemma append_if_length {A : Type} (c : bool) (x : A) (l : list A) :
  List.length (append_if c x l) = (List.length l + (if c then 1 else 0))%nat.
Proof.
  destruct c; cbn [append_if].
  - now rewrite length_app.
  - now rewrite Nat.add_0_r.
Qed.

(** The code's chain of conditional appends computes the rule table of the
    specification. *)
Lemma extract_followups_by_rules (persona : Persona.t) (spec : string) :
  _extract_followups persona spec = followups_by_rules spec.
Proof.
  unfold _extract_followups, followups_by_rules, followup_rules, rule_matches.
  cbn [filter fst snd any_in existsb].
  repeat rewrite orb_false_r.
  destruct (str_in "analytics" (lower spec));
    destruct (str_in "onboarding" (lower spec));
    destruct (str_in "paywall" (lower spec));
    destruct (str_in "pricing" (lower spec));
    destruct (str_in "trial" (lower spec));
    destruct (str_in "accessibility" (lower spec));
    destruct (str_in "aria" (lower spec));
    destruct (str_in "keyboard" (lower spec));
    destruct (str_in "contrast" (lower spec));
    destruct (str_in "wcag" (lower spec));
    destruct (str_in "privacy" (lower spec));
    destruct (str_in "gdpr" (lower spec)); reflexivity.
Qed.

Lemma extract_followups_nonempty (persona : Persona.t) (spec : string) :
  _extract_followups persona spec <> [].
Proof.
  unfold _extract_followups.
  set (low := lower spec).
  destruct (str_in "analytics" low);
    destruct (str_in "onboarding" low);
    destruct (str_in "paywall" low || str_in "pricing" low || str_in "trial" low);
    destruct (any_in ["accessibility"; "aria"; "keyboard"; "contrast"; "wcag"] low);
    destruct (str_in "privacy" low || str_in "gdpr" low); discriminate.
Qed.

(** C6 -- for every persona and every spec text, the empty one included,
    [_extract_followups] returns at least one and at most six questions,
    and when no keyword rule matches the lower-cased text it returns exactly
    the generic job-to-be-done question. *)
Theorem extract_followups_bounds (persona : Persona.t) (spec : string) :
  (1 <= List.length (_extract_followups persona spec) <= 6)%nat /\
  _extract_followups persona "" = [q_job] /\
  (forallb (fun rule => negb (rule_matches (lower spec) rule)) followup_rules = true ->
   _extract_followups persona spec = [q_job]).
Proof.
  split; [split|split].
  - pose proof (extract_followups_nonempty persona spec) as Hne.
    destruct (_extract_followups persona spec); [congruence | cbn; lia].
  - unfold _extract_followups. apply firstn_le_length.
  - reflexivity.
  - intros Hno. rewrite extract_followups_by_rules.
    unfold followups_by_rules.
    assert (Hf : filter (rule_matches (lower spec)) followup_rules = []).
    { induction followup_rules as [|r rs IH]; [reflexivity|].
      cbn [forallb] in Hno. apply andb_true_iff in Hno as [Hr Hrs].
      cbn [filter]. apply negb_true_iff in Hr. rewrite Hr. now apply IH. }
    rewrite Hf. reflexivity.
Qed.

(** C7 -- for the spec text "Add a paywall with a 7-day trial and
    GDPR-compliant data export", [_extract_followups] returns the free-trial
    question and the data-governance question, the first before the second
    (and nothing else). *)
Theorem extract_followups_paywall_example (persona : Persona.t) :
  let qs := _extract_followups persona
              "Add a paywall with a 7-day trial and GDPR-compliant data export" in
  qs = [q_trial; q_data] /\
  In q_trial qs /\ In q_data qs /\
  exists i j, index_of q_trial qs = Some i /\ index_of q_data qs = Some j /\ (i < j)%nat.
Proof.
  cbv zeta.
  assert (H : _extract_followups persona
                "Add a paywall with a 7-day trial and GDPR-compliant data export"
              = [q_trial; q_data]) by (vm_compute; reflexivity).
  rewrite H. split; [reflexivity|]. split; [now left|]. split; [right; now left|].
  exists 0%nat, 1%nat. split; [reflexivity|]. split; [reflexivity | lia].
Qed.

End ExtractorFacts.

(** ** Properties of the confidence score *)

Section ConfidenceFacts.
Context {R : RandomSource}.
Import PyStr.

(** [_score_confidence] always returns: it draws once from the source and
    clamps. *)
Lemma score_confidence_run (persona : Persona.t) (text : string) (s : rng) :
  _score_confidence persona text s =
  Some (confidence_for (confidence_base persona text) (fst (rng_bits53 s)),
        snd (rng_bits53 s)).
Proof.
  unfold _score_confidence, confidence_for, confidence_base, bind, ret, random_random.
  destruct (rng_bits53 s) as [k s']. reflexivity.
Qed.

(** Whatever float comes in, NaN and the infinities included, the clamp
    [max(0.05, min(0.95, x))] lands between its two bounds. *)
Lemma clamp_in_range (x : PyFloat.float) :
  in_range PyFloat.f0_05 PyFloat.f0_95
    (PyFloat.max PyFloat.f0_05 (PyFloat.min PyFloat.f0_95 x)) = true.
Proof.
  unfold in_range, PyFloat.max, PyFloat.min, PyFloat.ltb, PyFloat.leb, SFltb, SFleb.
  destruct (SFcompare x PyFloat.f0_95) as [[ | | ]|] eqn:Hhi;
    try reflexivity.
  destruct (SFcompare PyFloat.f0_05 x) as [[ | | ]|] eqn:Hlo;
    try reflexivity.
  now rewrite Hlo, Hhi.
Qed.

(** C4 -- for every persona, every text and every state of the random
    source, [_score_confidence] returns, and the value it returns lies in
    the closed interval from 0.05 to 0.95. *)
Theorem score_confidence_in_range (persona : Persona.t) (text : string) (s : rng) :
  exists v s',
    _score_confidence persona text s = Some (v, s') /\
    in_range PyFloat.f0_05 PyFloat.f0_95 v = true.
Proof.
  rewrite score_confidence_run.
  eexists _, _. split; [reflexivity|].
  apply clamp_in_range.
Qed.

(** C5 -- for every persona with tech_literacy "expert" and risk_aversion
    "low", every text whose lower-cased form contains none of the hedge
    words "unclear", "confusing", "not sure", and every state of the random
    source, [_score_confidence] returns a value between 0.65 and 0.75: the
    base is 0.55 + 0.15, the jitter lies between -0.05 and +0.05, and neither
    bound of the clamp binds, the value returned being the sum itself. *)
Theorem score_confidence_expert_low (persona : Persona.t) (text : string) (s : rng) :
  Persona.tech_literacy persona = "expert" ->
  Persona.risk_aversion persona = "low" ->
  any_in hedge_words (lower text) = false ->
  exists v s',
    _score_confidence persona text s = Some (v, s') /\
    in_range PyFloat.f0_65 PyFloat.f0_75 v = true /\
    v = unclamped_for (PyFloat.add PyFloat.f0_55 PyFloat.f0_15)
          (fst (rng_bits53 s)).
Proof.
  intros Hexpert Hlow Hhedge.
  rewrite score_confidence_run.
  assert (Hbase : confidence_base persona text =
                  PyFloat.add PyFloat.f0_55 PyFloat.f0_15).
  { unfold confidence_base. now rewrite Hexpert, Hlow, Hhedge. }
  rewrite Hbase.
  destruct (B64Facts.confidence_expert_range (fst (rng_bits53 s))
              (rng_bits53_lt s)) as [Hidle Hrange].
  eexists _, _. split; [reflexivity|]. split; [exact Hrange | exact Hidle].
Qed.

End ConfidenceFacts.

(** ** Properties of the reply generator *)

Section ReplyFacts.
Context {R : RandomSource}.
Import PyStr.

(** [_heuristic_persona_reply] always returns; its reply is the joined
    summary and its follow-ups are those of the feature spec. *)
Lemma heuristic_persona_reply_run
    (persona : Persona.t) (user_msg feature_spec : string) (s : rng) :
  exists meta,
    _heuristic_persona_reply persona user_msg feature_spec s =
      Some ((join (nl ++ nl)
               (let '(concerns, kudos, suggestions) :=
                  reply_ingredients persona (lower (user_msg ++ " " ++ feature_spec)) in
                compose_summary kudos concerns suggestions),
             meta), snd (rng_bits53 s)) /\
    Reasoning.follow_ups meta = _extract_followups persona feature_spec /\
    Reasoning.confidence meta =
      PyFloat.round2 (confidence_for (confidence_base persona user_msg)
                        (fst (rng_bits53 s))).
Proof.
  unfold _heuristic_persona_reply.
  destruct (reply_ingredients persona (lower (user_msg ++ " " ++ feature_spec)))
    as [[concerns kudos] suggestions].
  unfold bind. rewrite score_confidence_run. unfold ret.
  eexists. split; [reflexivity|]. split; reflexivity.
Qed.

(** The summary the code builds is the list of the blocks of the
    specification, or the fallback sentence alone. *)
Lemma compose_summary_blocks (kudos concerns suggestions : list string) :
  join (nl ++ nl) (compose_summary kudos concerns suggestions) =
  reply_by_blocks kudos concerns suggestions.
Proof.
  unfold compose_summary, reply_by_blocks, category_block.
  destruct kudos, concerns, suggestions; reflexivity.
Qed.

(** C8 -- for every persona, user message and feature spec, the heuristic
    reply text is made of the blocks of the categories that are not empty,
    in the order kudos, concerns, suggestions, each one its bolded label
    followed by its items joined with a semicolon (and a space), the blocks
    separated by a blank line; and when the three categories are empty the
    reply is exactly "Looks promising; would like to test a clickable
    prototype.". *)
Theorem heuristic_reply_composition
    (persona : Persona.t) (user_msg feature_spec : string) (s : rng) :
  let '(concerns, kudos, suggestions) :=
    reply_ingredients persona (lower (user_msg ++ " " ++ feature_spec)) in
  exists meta s',
    _heuristic_persona_reply persona user_msg feature_spec s =
      Some ((reply_by_blocks kudos concerns suggestions, meta), s') /\
    (kudos = [] -> concerns = [] -> suggestions = [] ->
     reply_by_blocks kudos concerns suggestions =
       "Looks promising; would like to test a clickable prototype.").
Proof.
  destruct (heuristic_persona_reply_run persona user_msg feature_spec s)
    as (meta & Hrun & _).
  destruct (reply_ingredients persona (lower (user_msg ++ " " ++ feature_spec)))
    as [[concerns kudos] suggestions].
  exists meta, (snd (rng_bits53 s)). split.
  - rewrite Hrun. now rewrite compose_summary_blocks.
  - intros -> -> ->. reflexivity.
Qed.

End ReplyFacts.

(** ** Properties of the conversation driver *)

Section DriverFacts.
Context {R : RandomSource}.
Import PyStr.

Lemma random_choice_run {A : Type} (seq : list A) (s : rng) :
  seq <> [] ->
  exists x, random_choice seq s =
              Some (x, snd (rng_below (N.of_nat (List.length seq)) s)) /\
            In x seq.
Proof.
  intros Hne. unfold random_choice.
  destruct seq as [|a seq']; [congruence|].
  pose proof (rng_below_lt (N.of_nat (List.length (a :: seq'))) s) as Hlt.
  destruct (rng_below (N.of_nat (List.length (a :: seq'))) s) as [i s'].
  cbn [fst snd] in *.
  assert (Hi : (N.to_nat i < List.length (a :: seq'))%nat) by (cbn in *; lia).
  destruct (nth_error (a :: seq') (N.to_nat i)) as [x|] eqn:Hx.
  - exists x. split; [reflexivity|]. eapply nth_error_In; eassumption.
  - apply nth_error_None in Hx. lia.
Qed.

Lemma random_randint_run (a b : Z) (s : rng) :
  a <= b ->
  random_randint a b s =
    Some (a + Z.of_N (fst (rng_below (Z.to_N (b - a + 1)) s)),
          snd (rng_below (Z.to_N (b - a + 1)) s)) /\
  a <= a + Z.of_N (fst (rng_below (Z.to_N (b - a + 1)) s)) <= b.
Proof.
  intros Hab. unfold random_randint.
  assert (H : (0 <? b - a + 1) = true) by (apply Z.ltb_lt; lia).
  rewrite H.
  pose proof (rng_below_lt (Z.to_N (b - a + 1)) s) as Hlt.
  destruct (rng_below (Z.to_N (b - a + 1)) s) as [k s']. cbn [fst snd] in *.
  split; [reflexivity | lia].
Qed.

(** The loop of the heuristic branch always returns when there is a
    follow-up to choose from; it leaves the messages it found in place and
    adds one user message and one persona message per turn. *)
Lemma heuristic_turns_run (n : nat) (persona : Persona.t) (feature_spec : string)
    (follow_ups : list string) :
  follow_ups <> [] ->
  forall (messages : list Message.t) (s : rng),
  exists added s',
    heuristic_turns n persona feature_spec follow_ups messages s =
      Some ((messages ++ added)%list, s') /\
    map Message.role added = turn_roles Role.user Role.persona n.
Proof.
  intros Hne. induction n as [|n IH]; intros messages s.
  - exists [], s. cbn. now rewrite app_nil_r.
  - cbn [heuristic_turns]. unfold bind at 1.
    destruct (random_choice_run follow_ups s Hne) as (q & -> & _).
    unfold bind at 1.
    destruct (heuristic_persona_reply_run persona q feature_spec
                (snd (rng_below (N.of_nat (List.length follow_ups)) s)))
      as (meta2 & -> & _).
    match goal with
    | |- context [heuristic_turns n _ _ _ ?ms ?s1] =>
        destruct (IH ms s1) as (added & s' & -> & Hroles)
    end.
    eexists (_ :: _ :: added), s'. split.
    + now rewrite <- !app_assoc.
    + cbn [map turn_roles Message.role user_message]. now rewrite Hroles.
Qed.

(** The loop of the agent branch, when it returns, has left the messages it
    found in place and added one persona message and one user message per
    turn. *)
Lemma agent_turns_inv (tt : TinyTroupe) (n : nat) (persona : Persona.t)
    (feature_spec : string) :
  forall (t : Z) (tiny_person : TinyPerson tt) (prompt : string)
         (messages result : list Message.t) (s s' : rng),
    agent_turns tt n t tiny_person prompt persona feature_spec messages s =
      Some (result, s') ->
    exists added,
      result = (messages ++ added)%list /\
      map Message.role added = turn_roles Role.persona Role.user n.
Proof.
  induction n as [|n IH]; intros t tiny_person prompt messages result s s' Hrun.
  - cbn in Hrun. injection Hrun as <- <-. exists []. now rewrite app_nil_r.
  - cbn [agent_turns] in Hrun.
    destruct (listen_and_act tt tiny_person prompt) as [[response tp']|];
      [|discriminate].
    unfold bind at 1 in Hrun.
    destruct (random_choice_run (_extract_followups persona feature_spec) s
                (extract_followups_nonempty persona feature_spec))
      as (q & Hq & _).
    rewrite Hq in Hrun.
    apply IH in Hrun as (added & -> & Hroles).
    eexists (_ :: _ :: added). split.
    + now rewrite <- !app_assoc.
    + cbn [map turn_roles Message.role user_message]. now rewrite Hroles.
Qed.

(** The heuristic branch always returns: the first reply after the messages
    it found, then the turns of the loop. *)
Lemma heuristic_branch_run (persona : Persona.t) (feature_spec : string)
    (turns : Z) (user_open : string) (messages : list Message.t) (s : rng) :
  exists reply meta added s',
    heuristic_branch persona feature_spec turns user_open messages s =
      Some ((messages ++ Message.make Role.persona reply (MetaReasoning meta)
                           :: added)%list, s') /\
    _heuristic_persona_reply persona user_open feature_spec s =
      Some ((reply, meta), snd (rng_bits53 s)) /\
    map Message.role added =
      turn_roles Role.user Role.persona (Z.to_nat (turns - 1)).
Proof.
  unfold heuristic_branch; unfold bind at 1.
  destruct (heuristic_persona_reply_run persona user_open feature_spec s)
    as (meta & Hrun & Hfu & _).
  rewrite Hrun.
  assert (Hne : Reasoning.follow_ups meta <> [])
    by (rewrite Hfu; apply extract_followups_nonempty).
  match goal with
  | |- context [heuristic_turns ?n _ _ _ ?ms ?s1] =>
      destruct (heuristic_turns_run n persona feature_spec _ Hne ms s1)
        as (added & s' & -> & Hroles)
  end.
  eexists _, meta, added, s'. split; [|split; [reflexivity | exact Hroles]].
  now rewrite <- app_assoc.
Qed.

End DriverFacts.

Section SimulateFacts.
Context {R : RandomSource}.
Import PyStr.

(** [simulate] is its reply branch run after the draw of the suffix, its
    messages put into the record. *)
Lemma simulate_unfold (tt : option TinyTroupe) (env : Environ) (clock : Clock)
    (persona : Persona.t) (feature_title feature_spec : string)
    (system_preamble : option string) (turns seed : Z) :
  simulate tt env clock persona feature_title feature_spec system_preamble turns seed =
  match
    match agent_backend tt env with
    | Some tt' =>
        agent_branch tt' persona feature_spec turns
          (user_open_of feature_title feature_spec)
          [user_message (user_open_of feature_title feature_spec)]
    | None =>
        heuristic_branch persona feature_spec turns
          (user_open_of feature_title feature_spec)
          [user_message (user_open_of feature_title feature_spec)]
    end (after_suffix seed)
  with
  | Some (messages, _) =>
      Some (Conversation.make
              (of_int (unix_time clock) ++ "-" ++ of_int (suffix_of seed))
              (str_or (strip feature_title) "Untitled Feature")
              (strip feature_spec) persona seed messages
              (utcnow_isoformat clock ++ "Z"))
  | None => None
  end.
Proof.
  unfold simulate, run_seeded, simulate_body.
  unfold bind at 1.
  destruct (random_randint_run 1000 9999 (rng_seed seed)) as [-> _]; [lia|].
  change (Z.to_N (9999 - 1000 + 1)) with 9000%N.
  fold (after_suffix seed). fold (suffix_of seed).
  unfold bind, ret. cbn [app].
  destruct (agent_backend tt env) as [tt'|].
  - destruct (agent_branch tt' _ _ _ _ _ _) as [[messages s']|]; reflexivity.
  - destruct (heuristic_branch _ _ _ _ _ _) as [[messages s']|]; reflexivity.
Qed.

Lemma roles_alternate_turns (a : Role.t) (n : nat) :
  roles_alternate a (turn_roles a (other_role a) n) = true.
Proof.
  induction n as [|n IH]; [reflexivity|].
  cbn [turn_roles roles_alternate].
  destruct a; cbn; exact IH.
Qed.

Lemma count_turns_first (a b : Role.t) (n : nat) :
  a <> b ->
  List.length (filter (Role.eqb a) (turn_roles a b n)) = n /\
  List.length (filter (Role.eqb b) (turn_roles a b n)) = n.
Proof.
  intros Hab. induction n as [|n [IHa IHb]]; [split; reflexivity|].
  cbn [turn_roles].
  destruct a, b; try congruence; cbn; rewrite IHa, IHb; split; reflexivity.
Qed.

(** The messages of the heuristic branch: the opener, the first reply, then
    the turns of the loop. *)
Lemma simulate_heuristic (tt : option TinyTroupe) (env : Environ) (clock : Clock)
    (persona : Persona.t) (feature_title feature_spec : string)
    (system_preamble : option string) (turns seed : Z) :
  agent_backend tt env = None ->
  exists conv reply meta added,
    simulate tt env clock persona feature_title feature_spec system_preamble
      turns seed = Some conv /\
    Conversation.messages conv =
      user_message (user_open_of feature_title feature_spec)
        :: Message.make Role.persona reply (MetaReasoning meta) :: added /\
    _heuristic_persona_reply persona (user_open_of feature_title feature_spec)
      feature_spec (after_suffix seed) =
      Some ((reply, meta), snd (rng_bits53 (after_suffix seed))) /\
    map Message.role added =
      turn_roles Role.user Role.persona (Z.to_nat (turns - 1)).
Proof.
  intros Hb. rewrite simulate_unfold, Hb.
  destruct (heuristic_branch_run persona feature_spec turns
              (user_open_of feature_title feature_spec)
              [user_message (user_open_of feature_title feature_spec)]
              (after_suffix seed))
    as (reply & meta & added & s' & -> & Hreply & Hroles).
  eexists _, reply, meta, added. split; [reflexivity|].
  split; [reflexivity|]. split; assumption.
Qed.

(** The messages of the agent branch, when it returns: the opener, then one
    persona message and one user message per turn. *)
Lemma simulate_agent (tt : option TinyTroupe) (env : Environ) (clock : Clock)
    (persona : Persona.t) (feature_title feature_spec : string)
    (system_preamble : option string) (turns seed : Z)
    (tt' : TinyTroupe) (conv : Conversation.t) :
  agent_backend tt env = Some tt' ->
  simulate tt env clock persona feature_title feature_spec system_preamble
    turns seed = Some conv ->
  exists added,
    Conversation.messages conv =
      user_message (user_open_of feature_title feature_spec) :: added /\
    map Message.role added =
      turn_roles Role.persona Role.user (Z.to_nat turns).
Proof.
  intros Hb. rewrite simulate_unfold, Hb.
  destruct (agent_branch tt' persona feature_spec turns
              (user_open_of feature_title feature_spec)
              [user_message (user_open_of feature_title feature_spec)]
              (after_suffix seed)) as [[messages s']|] eqn:Hrun; [|discriminate].
  intros [= <-]. unfold agent_branch in Hrun.
  apply agent_turns_inv in Hrun as (added & -> & Hroles).
  exists added. split; [reflexivity | exact Hroles].
Qed.

End SimulateFacts.

(** ** The claims about [simulate] *)

Section SimulateClaims.
Context {R : RandomSource}.
Import PyStr.

(** C1, as amended -- for every persona, feature title, feature spec, turn
    count and seed, and the same reply source, two calls of [simulate] that
    read different clocks both return or both raise, and what they return
    has the same messages (content and confidence score at every position)
    and the same feature_title, feature_spec, persona and seed: only the two
    fields made from the clock, feature_id and created_at, may differ.  On
    the heuristic path both calls return. *)
Theorem simulate_same_seed_same_content
    (tt : option TinyTroupe) (env : Environ) (clock1 clock2 : Clock)
    (persona : Persona.t) (feature_title feature_spec : string)
    (system_preamble : option string) (turns seed : Z) :
  let run1 := simulate tt env clock1 persona feature_title feature_spec
                system_preamble turns seed in
  let run2 := simulate tt env clock2 persona feature_title feature_spec
                system_preamble turns seed in
  option_map clock_free run1 = option_map clock_free run2 /\
  option_map (fun c => map Message.content (Conversation.messages c)) run1 =
    option_map (fun c => map Message.content (Conversation.messages c)) run2 /\
  option_map (fun c => map confidence_of (Conversation.messages c)) run1 =
    option_map (fun c => map confidence_of (Conversation.messages c)) run2 /\
  (agent_backend tt env = None ->
   exists conv1 conv2, run1 = Some conv1 /\ run2 = Some conv2).
Proof.
  cbv zeta. rewrite !simulate_unfold.
  repeat split.
  - destruct (match agent_backend tt env with Some _ => _ | None => _ end)
      as [[messages s']|]; reflexivity.
  - destruct (match agent_backend tt env with Some _ => _ | None => _ end)
      as [[messages s']|]; reflexivity.
  - destruct (match agent_backend tt env with Some _ => _ | None => _ end)
      as [[messages s']|]; reflexivity.
  - intros Hb. rewrite Hb.
    destruct (heuristic_branch_run persona feature_spec turns
                (user_open_of feature_title feature_spec)
                [user_message (user_open_of feature_title feature_spec)]
                (after_suffix seed))
      as (reply & meta & added & s' & -> & _).
    eexists _, _. split; reflexivity.
Qed.

(** C2, as amended -- for every Conversation [simulate] returns, the
    messages strictly alternate from a user message, so that every persona
    reply comes right after one user message; the number of persona
    messages is the requested turn count whenever that count is at least 1,
    and in general the larger of the turn count and 1 on the heuristic path
    (0 on the agent path). *)
Theorem simulate_alternates_and_counts
    (tt : option TinyTroupe) (env : Environ) (clock : Clock)
    (persona : Persona.t) (feature_title feature_spec : string)
    (system_preamble : option string) (turns seed : Z) (conv : Conversation.t) :
  simulate tt env clock persona feature_title feature_spec system_preamble
    turns seed = Some conv ->
  alternates_from_user (Conversation.messages conv) = true /\
  Z.of_nat (count_role Role.persona (Conversation.messages conv)) =
    Z.max turns (match agent_backend tt env with Some _ => 0 | None => 1 end) /\
  (1 <= turns ->
   Z.of_nat (count_role Role.persona (Conversation.messages conv)) = turns).
Proof.
  intros Hrun.
  assert (Hmain :
    alternates_from_user (Conversation.messages conv) = true /\
    Z.of_nat (count_role Role.persona (Conversation.messages conv)) =
      Z.max turns (match agent_backend tt env with Some _ => 0 | None => 1 end)).
  { destruct (agent_backend tt env) as [tt'|] eqn:Hb.
    - destruct (simulate_agent _ _ _ _ _ _ _ _ _ _ _ Hb Hrun)
        as (added & -> & Hroles).
      unfold alternates_from_user, count_role.
      cbn [map Message.role user_message nonempty andb roles_alternate
           Role.eqb other_role filter].
      rewrite Hroles. split.
      + apply (roles_alternate_turns Role.persona).
      + destruct (count_turns_first Role.persona Role.user (Z.to_nat turns))
          as [-> _]; [discriminate|]. lia.
    - destruct (simulate_heuristic tt env clock persona feature_title feature_spec
                  system_preamble turns seed Hb)
        as (conv' & reply & meta & added & Hrun' & Hmsgs & _ & Hroles).
      rewrite Hrun in Hrun'. injection Hrun' as <-.
      rewrite Hmsgs. unfold alternates_from_user, count_role.
      cbn [map Message.role user_message nonempty andb roles_alternate
           Role.eqb other_role filter List.length].
      rewrite Hroles. split.
      + apply (roles_alternate_turns Role.user).
      + destruct (count_turns_first Role.user Role.persona (Z.to_nat (turns - 1)))
          as [_ ->]; [discriminate|]. lia. }
  destruct Hmain as [Halt Hcount]. split; [exact Halt|]. split; [exact Hcount|].
  intros Hturns. rewrite Hcount. destruct (agent_backend tt env); lia.
Qed.

(** C3, as amended -- on the heuristic reply path, [simulate] with turns = 4
    returns a Conversation with exactly 4 persona messages and exactly 4
    user messages: the opener and 3 follow-ups. *)
Theorem simulate_four_turns
    (tt : option TinyTroupe) (env : Environ) (clock : Clock)
    (persona : Persona.t) (feature_title feature_spec : string)
    (system_preamble : option string) (seed : Z) :
  agent_backend tt env = None ->
  exists conv,
    simulate tt env clock persona feature_title feature_spec system_preamble
      4 seed = Some conv /\
    count_role Role.persona (Conversation.messages conv) = 4%nat /\
    count_role Role.user (Conversation.messages conv) = 4%nat.
Proof.
  intros Hb.
  destruct (simulate_heuristic tt env clock persona feature_title feature_spec
              system_preamble 4 seed Hb)
    as (conv & reply & meta & added & Hrun & Hmsgs & _ & Hroles).
  exists conv. split; [exact Hrun|].
  rewrite Hmsgs. unfold count_role.
  cbn [map Message.role user_message]. rewrite Hroles.
  split; reflexivity.
Qed.

(** C9 -- on the heuristic path, [simulate] with turns < 1 does not raise:
    it returns a Conversation whose messages are exactly the opening user
    message followed by one persona reply, the reply of the heuristic
    generator to the opener; the loop adds nothing, so there are 1 user
    message and 1 persona message. *)
Theorem simulate_no_turns
    (tt : option TinyTroupe) (env : Environ) (clock : Clock)
    (persona : Persona.t) (feature_title feature_spec : string)
    (system_preamble : option string) (turns seed : Z) :
  agent_backend tt env = None ->
  turns < 1 ->
  exists conv reply meta,
    simulate tt env clock persona feature_title feature_spec system_preamble
      turns seed = Some conv /\
    Conversation.messages conv =
      [ user_message (user_open_of feature_title feature_spec);
        Message.make Role.persona reply (MetaReasoning meta) ] /\
    _heuristic_persona_reply persona (user_open_of feature_title feature_spec)
      feature_spec (after_suffix seed) =
      Some ((reply, meta), snd (rng_bits53 (after_suffix seed))) /\
    count_role Role.user (Conversation.messages conv) = 1%nat /\
    count_role Role.persona (Conversation.messages conv) = 1%nat.
Proof.
  intros Hb Hturns.
  destruct (simulate_heuristic tt env clock persona feature_title feature_spec
              system_preamble turns seed Hb)
    as (conv & reply & meta & added & Hrun & Hmsgs & Hreply & Hroles).
  replace (Z.to_nat (turns - 1)) with O in Hroles by lia.
  destruct added; [|discriminate].
  exists conv, reply, meta. rewrite Hmsgs.
  repeat split; assumption || reflexivity.
Qed.

End SimulateClaims.

Section OpenerFacts.
Context {R : RandomSource}.
Import PyStr.

Lemma startswith_app (k b : string) : startswith (k ++ b) k = true.
Proof.
  induction k as [|c k IH]; [destruct b; reflexivity|].
  cbn. now rewrite Ascii.eqb_refl.
Qed.

Lemma str_in_here (k s : string) : startswith s k = true -> str_in k s = true.
Proof.
  intros H. destruct s; cbn [str_in]; now rewrite H.
Qed.

Lemma str_in_after (k a r : string) :
  str_in k r = true -> str_in k (a ++ r) = true.
Proof.
  intros H. induction a as [|c a IH]; [exact H|].
  cbn [append str_in]. rewrite IH. apply orb_true_r.
Qed.

(** A string occurs in every text written around it. *)
Lemma str_in_app (k a b : string) : str_in k (a ++ k ++ b) = true.
Proof.
  apply str_in_after, str_in_here, startswith_app.
Qed.

(** C10 -- for every call of [simulate], the Conversation returned stores
    the trimmed feature_spec and, when feature_title is blank after
    trimming, the default title "Untitled Feature" (else the trimmed title);
    the content of the opening user message is the template around the
    feature_title and the feature_spec as they were passed in, not trimmed.
    For a blank title the record holds "Untitled Feature" while the opener
    holds the blank title itself. *)
Theorem simulate_trims_record_not_opener
    (tt : option TinyTroupe) (env : Environ) (clock : Clock)
    (persona : Persona.t) (feature_title feature_spec : string)
    (system_preamble : option string) (turns seed : Z) (conv : Conversation.t) :
  simulate tt env clock persona feature_title feature_spec system_preamble
    turns seed = Some conv ->
  Conversation.feature_spec conv = strip feature_spec /\
  (strip feature_title = "" -> Conversation.feature_title conv = "Untitled Feature") /\
  (strip feature_title <> "" -> Conversation.feature_title conv = strip feature_title) /\
  exists opener rest,
    Conversation.messages conv = opener :: rest /\
    Message.role opener = Role.user /\
    Message.content opener =
      "Please review the feature: " ++ feature_title ++ ". Key context:" ++ nl
        ++ feature_spec ++ nl ++ "Share candid feedback in your usual tone." /\
    str_in feature_title (Message.content opener) = true /\
    str_in feature_spec (Message.content opener) = true.
Proof.
  intros Hrun.
  assert (Hopen : exists rest,
             Conversation.messages conv =
               user_message (user_open_of feature_title feature_spec) :: rest).
  { destruct (agent_backend tt env) as [tt'|] eqn:Hb.
    - destruct (simulate_agent _ _ _ _ _ _ _ _ _ _ _ Hb Hrun) as (added & -> & _).
      now exists added.
    - destruct (simulate_heuristic tt env clock persona feature_title feature_spec
                  system_preamble turns seed Hb)
        as (conv' & reply & meta & added & Hrun' & Hmsgs & _).
      rewrite Hrun in Hrun'. injection Hrun' as <-.
      rewrite Hmsgs. eexists. reflexivity. }
  rewrite simulate_unfold in Hrun.
  destruct (match agent_backend tt env with Some _ => _ | None => _ end)
    as [[messages s']|]; [|discriminate].
  injection Hrun as <-. cbn [Conversation.feature_spec Conversation.feature_title].
  split; [reflexivity|]. split; [|split].
  - intros ->. reflexivity.
  - intros Hne. unfold str_or. destruct (strip feature_title); [congruence | reflexivity].
  - destruct Hopen as (rest & Hmsgs). cbn [Conversation.messages] in Hmsgs.
    exists (user_message (user_open_of feature_title feature_spec)), rest.
    split; [exact Hmsgs|]. split; [reflexivity|]. split; [reflexivity|].
    cbn [Message.content user_message]. unfold user_open_of. split.
    + apply str_in_app.
    + do 4 apply str_in_after. apply str_in_here, startswith_app.
Qed.

End OpenerFacts.

(** ** The claims on sample runs

    The runs below draw from the linear congruential generator [lcg]. *)

(** Two calls with the same arguments and the same seed, a minute apart:
    both return, on the heuristic path, with the same content. *)
Lemma simulate_same_seed_same_content_witness :
  agent_backend None Sample.no_env = None /\
  exists conv1 conv2,
    simulate (R := lcg) None Sample.no_env Sample.clock1 Sample.ann
      "Smart Collections" Sample.paywall_spec None 4 42 = Some conv1 /\
    simulate (R := lcg) None Sample.no_env Sample.clock2 Sample.ann
      "Smart Collections" Sample.paywall_spec None 4 42 = Some conv2.
Proof.
  split; [reflexivity|].
  apply (simulate_same_seed_same_content (R := lcg) None Sample.no_env
           Sample.clock1 Sample.clock2 Sample.ann "Smart Collections"
           Sample.paywall_spec None 4 42).
  reflexivity.
Defined.

(** C1 as stated fails: the two calls above return Conversations with the
    same messages whose created_at differ, so feature_id is not the only
    field that may differ. *)
Lemma simulate_created_at_differs :
  exists conv1 conv2,
    simulate (R := lcg) None Sample.no_env Sample.clock1 Sample.ann
      "Smart Collections" Sample.paywall_spec None 4 42 = Some conv1 /\
    simulate (R := lcg) None Sample.no_env Sample.clock2 Sample.ann
      "Smart Collections" Sample.paywall_spec None 4 42 = Some conv2 /\
    Conversation.messages conv1 = Conversation.messages conv2 /\
    Conversation.created_at conv1 = "2023-11-14T22:13:20.000001Z" /\
    Conversation.created_at conv2 = "2023-11-14T22:14:20.000001Z" /\
    Conversation.created_at conv1 <> Conversation.created_at conv2.
Proof.
  eexists _, _. split; [vm_compute; reflexivity|].
  split; [vm_compute; reflexivity|].
  split; [reflexivity|]. split; [reflexivity|]. split; [reflexivity|].
  discriminate.
Qed.

(** A run of four turns on the heuristic path, and one of three turns with
    the agent backend. *)
Lemma simulate_alternates_and_counts_witness :
  exists conv,
    simulate (R := lcg) (Some Sample.echo) Sample.keyed_env Sample.clock1
      Sample.bo "Export" "CSV export from the dashboard" None 3 7 = Some conv /\
    alternates_from_user (Conversation.messages conv) = true /\
    Z.of_nat (count_role Role.persona (Conversation.messages conv)) = 3 /\
    List.length (Conversation.messages conv) = 7%nat.
Proof.
  eexists. split; [vm_compute; reflexivity|].
  pose proof (simulate_alternates_and_counts (R := lcg) (Some Sample.echo)
                Sample.keyed_env Sample.clock1 Sample.bo "Export"
                "CSV export from the dashboard" None 3 7 _ eq_refl)
    as (Halt & _ & Hcount).
  split; [exact Halt|]. split; [apply Hcount; lia | reflexivity].
Defined.

(** C2 as stated fails: with turns = 0 the heuristic path returns a
    Conversation with one persona message, not zero. *)
Lemma simulate_zero_turns_one_reply :
  exists conv,
    simulate (R := lcg) None Sample.no_env Sample.clock1 Sample.bo
      "Export" "CSV export from the dashboard" None 0 7 = Some conv /\
    count_role Role.persona (Conversation.messages conv) = 1%nat /\
    Z.of_nat (count_role Role.persona (Conversation.messages conv)) <> 0.
Proof.
  eexists. split; [vm_compute; reflexivity|].
  split; [reflexivity | discriminate].
Qed.

Lemma simulate_four_turns_witness :
  agent_backend None Sample.no_env = None /\
  exists conv,
    simulate (R := lcg) None Sample.no_env Sample.clock1 Sample.ann
      "Smart Collections" Sample.paywall_spec None 4 42 = Some conv /\
    count_role Role.persona (Conversation.messages conv) = 4%nat /\
    count_role Role.user (Conversation.messages conv) = 4%nat.
Proof.
  split; [reflexivity|].
  apply (simulate_four_turns (R := lcg) None Sample.no_env Sample.clock1
           Sample.ann "Smart Collections" Sample.paywall_spec None 42).
  reflexivity.
Defined.

(** C3 as stated fails: with turns = 4 the heuristic path returns 4 user
    messages, not 5. *)
Lemma simulate_four_turns_four_users :
  exists conv,
    simulate (R := lcg) None Sample.no_env Sample.clock1 Sample.ann
      "Smart Collections" Sample.paywall_spec None 4 42 = Some conv /\
    count_role Role.persona (Conversation.messages conv) = 4%nat /\
    count_role Role.user (Conversation.messages conv) = 4%nat /\
    count_role Role.user (Conversation.messages conv) <> 5%nat.
Proof.
  eexists. split; [vm_compute; reflexivity|].
  split; [reflexivity|]. split; [reflexivity | discriminate].
Qed.

Lemma simulate_no_turns_witness :
  agent_backend None Sample.no_env = None /\
  -2 < 1 /\
  exists conv reply meta,
    simulate (R := lcg) None Sample.no_env Sample.clock1 Sample.bo
      "Export" "CSV export from the dashboard" None (-2) 7 = Some conv /\
    Conversation.messages conv =
      [ user_message (user_open_of "Export" "CSV export from the dashboard");
        Message.make Role.persona reply (MetaReasoning meta) ] /\
    _heuristic_persona_reply (R := lcg) Sample.bo
      (user_open_of "Export" "CSV export from the dashboard")
      "CSV export from the dashboard" (after_suffix (R := lcg) 7) =
      Some ((reply, meta), snd (rng_bits53 (after_suffix (R := lcg) 7))) /\
    count_role Role.user (Conversation.messages conv) = 1%nat /\
    count_role Role.persona (Conversation.messages conv) = 1%nat.
Proof.
  split; [reflexivity|]. split; [lia|].
  apply (simulate_no_turns (R := lcg) None Sample.no_env Sample.clock1 Sample.bo
           "Export" "CSV export from the dashboard" None (-2) 7);
    [reflexivity | lia].
Defined.

(** A blank title: the record holds the default title, the opener the three
    spaces. *)
Lemma simulate_trims_record_not_opener_witness :
  exists conv,
    simulate (R := lcg) None Sample.no_env Sample.clock1 Sample.bo
      "   " "  CSV export  " None 2 7 = Some conv /\
    PyStr.strip "   " = "" /\
    Conversation.feature_spec conv = "CSV export" /\
    Conversation.feature_title conv = "Untitled Feature" /\
    exists opener rest,
      Conversation.messages conv = opener :: rest /\
      Message.content opener =
        "Please review the feature:    . Key context:" ++ PyStr.nl
          ++ "  CSV export  " ++ PyStr.nl
          ++ "Share candid feedback in your usual tone.".
Proof.
  eexists. split; [vm_compute; reflexivity|].
  split; [reflexivity|].
  pose proof (simulate_trims_record_not_opener (R := lcg) None Sample.no_env
                Sample.clock1 Sample.bo "   " "  CSV export  " None 2 7 _ eq_refl)
    as (Hspec & Htitle & _ & opener & rest & Hmsgs & _ & Hcontent & _).
  split; [exact Hspec|]. split; [apply Htitle; reflexivity|].
  exists opener, rest. split; [exact Hmsgs | exact Hcontent].
Defined.

(** A student with a neutral tone and a text without keywords: the three
    categories are empty and the reply is the fallback sentence. *)
Lemma heuristic_reply_composition_witness :
  reply_ingredients Sample.bo (PyStr.lower ("Hello" ++ " " ++ "Dark mode toggle"))
    = ([], [], []) /\
  exists meta s',
    _heuristic_persona_reply (R := lcg) Sample.bo "Hello" "Dark mode toggle" 5%N =
      Some (("Looks promising; would like to test a clickable prototype.", meta), s').
Proof.
  split; [reflexivity|].
  pose proof (heuristic_reply_composition (R := lcg) Sample.bo "Hello"
                "Dark mode toggle" 5%N) as H.
  change (reply_ingredients Sample.bo
            (PyStr.lower ("Hello" ++ " " ++ "Dark mode toggle")))
    with (@nil string, @nil string, @nil string) in H.
  cbv iota beta in H.
  destruct H as (meta & s' & Hrun & Hfallback).
  exists meta, s'. rewrite Hrun. now rewrite Hfallback.
Defined.

(** The empty text and a text without any keyword fall back to the generic
    question. *)
Lemma extract_followups_bounds_witness :
  forallb (fun rule => negb (rule_matches (PyStr.lower "Dark mode toggle") rule))
    followup_rules = true /\
  _extract_followups Sample.bo "Dark mode toggle" = [q_job].
Proof.
  split; [reflexivity|].
  apply (extract_followups_bounds Sample.bo "Dark mode toggle"). reflexivity.
Defined.

(** An expert with a low risk aversion, a text without hedge words, and the
    generator in its state 5. *)
Lemma score_confidence_expert_low_witness :
  Persona.tech_literacy Sample.ann = "expert" /\
  Persona.risk_aversion Sample.ann = "low" /\
  PyStr.any_in hedge_words (PyStr.lower "Looks Clear to me") = false /\
  exists v s',
    _score_confidence (R := lcg) Sample.ann "Looks Clear to me" 5%N = Some (v, s') /\
    in_range PyFloat.f0_65 PyFloat.f0_75 v = true.
Proof.
  split; [reflexivity|]. split; [reflexivity|]. split; [reflexivity|].
  destruct (score_confidence_expert_low (R := lcg) Sample.ann
              "Looks Clear to me" 5%N eq_refl eq_refl eq_refl)
    as (v & s' & Hrun & Hrange & _).
  exists v, s'. split; [exact Hrun | exact Hrange].
Defined.

(** ** More properties of the confidence score *)

Module B64More.
Import B64 B64Facts.

Lemma rne_ge_half (m : Z) (n : nat) (c : Z) :
  0 <= m -> Z.even c = true ->
  (2 * c - 1) * 2 ^ Z.of_nat n <= 2 * m -> c <= rne m n.
Proof.
  intros Hm Hev Hc. unfold rne.
  destruct (shr_inv_iter m n Hm) as (Hq & rem & Hm' & Hrem & Hloc).
  destruct (Nat.iter n shr_1 _) as [q r s]. cbn [shr_m] in *.
  assert (Hqc : c <= q \/ q = c - 1) by nia.
  destruct Hqc as [Hle | Hq1].
  - destruct r, s; cbn [loc_of_shr_record round_nearest_even];
      try destruct (Z.even q); lia.
  - assert (Hodd : Z.even q = false).
    { subst q. replace (c - 1) with (Z.pred c) by lia.
      rewrite Z.even_pred. rewrite <- Z.negb_even, Hev. reflexivity. }
    destruct r, s; cbn [loc_of_shr_record round_nearest_even] in Hloc |- *;
      rewrite ?Hodd; nia.
Qed.

(** The lower counterpart of [compare_upper_half]: a value at or above the
    midpoint below an even mantissa rounds to that mantissa or above. *)
Lemma compare_lower_half (m q s E e mc ec : Z) :
  0 <= s -> E = e + s -> 0 <= e + bias -> 0 <= ec + bias ->
  2 ^ 52 * 2 ^ s <= m < 2 ^ 53 * 2 ^ s ->
  2 ^ 52 <= q <= 2 ^ 53 ->
  2 ^ 52 < mc <= 2 ^ 53 ->
  ((2 * mc - 1) * 2 ^ s <= 2 * m -> mc <= q) ->
  scaled (2 * mc - 1) ec <= 2 * scaled m e -> scaled mc ec <= scaled q E.
Proof.
  intros Hs HE He Hec Hm Hq Hmc Hrne Hle. unfold scaled in *.
  assert (HA : 0 < 2 ^ (e + bias)) by (apply pow_pos; lia).
  assert (HS : 0 < 2 ^ s) by (apply pow_pos; lia).
  assert (HEA : 2 ^ (E + bias) = 2 ^ s * 2 ^ (e + bias)).
  { rewrite <- pow_split by lia. f_equal. lia. }
  destruct (Z.lt_trichotomy ec E) as [Hlt | [Heq | Hgt]].
  - assert (HC : 0 < 2 ^ (ec + bias)) by (apply pow_pos; lia).
    assert (HT : 2 ^ (E + bias) = 2 * 2 ^ (E - ec - 1) * 2 ^ (ec + bias)).
    { change 2 with (2 ^ 1) at 2. rewrite <- !pow_split by lia. f_equal. lia. }
    assert (HT1 : 0 < 2 ^ (E - ec - 1)) by (apply pow_pos; lia).
    rewrite HT.
    set (C := 2 ^ (ec + bias)) in *. set (T := 2 ^ (E - ec - 1)) in *.
    assert (0 <= C * (T - 1)) by (apply Z.mul_nonneg_nonneg; lia).
    assert (0 <= (q - 2 ^ 52) * (T * C))
      by (repeat apply Z.mul_nonneg_nonneg; lia).
    assert (2 ^ 53 * C <= q * (2 * T * C)) by lia.
    nia.
  - subst ec. rewrite HEA in *.
    set (A := 2 ^ (e + bias)) in *. set (S := 2 ^ s) in *.
    assert (mc <= q) by (apply Hrne; nia).
    nia.
  - exfalso.
    assert (HT : 2 ^ (ec + bias) = 2 * 2 ^ (ec - E - 1) * 2 ^ (E + bias)).
    { change 2 with (2 ^ 1) at 2. rewrite <- !pow_split by lia. f_equal. lia. }
    assert (HT1 : 0 < 2 ^ (ec - E - 1)) by (apply pow_pos; lia).
    rewrite HT, HEA in Hle.
    set (A := 2 ^ (e + bias)) in *. set (S := 2 ^ s) in *.
    set (T := 2 ^ (ec - E - 1)) in *.
    assert (0 <= S * A * (T - 1)) by (repeat apply Z.mul_nonneg_nonneg; lia).
    assert (0 < S * A) by (apply Z.mul_pos_pos; lia).
    assert (0 <= (2 * mc - 2 - 2 ^ 53) * (T * (S * A)))
      by (repeat apply Z.mul_nonneg_nonneg; lia).
    assert ((2 ^ 53 + 1) * (2 * (S * A)) <= (2 * mc - 1) * (2 * T * (S * A))) by lia.
    assert (2 * (m * A) < 2 * (2 ^ 53 * S * A)) by nia.
    nia.
Qed.


(** [binary_round] in the normal range does not cross the midpoint below an
    even mantissa either. *)
Lemma binary_round_lower_half (sx : bool) (mx : positive) (ex : Z) (mc ec : Z)
    (q' : positive) (e' : Z) :
  let E := Zpos (digits2_pos mx) + ex - 53 in
  -1074 <= E < 971 -> 0 <= ex + bias -> 0 <= E + bias -> 0 <= ec + bias ->
  2 ^ 52 < mc <= 2 ^ 53 -> Z.even mc = true ->
  scaled (2 * mc - 1) ec <= 2 * scaled (Zpos mx) ex ->
  binary_round 53 1024 sx mx ex = S754_finite sx q' e' ->
  scaled mc ec <= scaled (Zpos q') e'.
Proof.
  intros E HE Hex HEb Hec Hmc Hev Hle Hrun.
  destruct (shl_align_normal mx ex) as (mz & ez & Hal & Hs & HEz & Hez & Hval);
    [fold E; lia | exact Hex | fold E; exact HEb |].
  fold E in HEz.
  unfold binary_round in Hrun. rewrite Hal in Hrun. rewrite <- Hval in Hle.
  set (s := Zpos (digits2_pos mz) - 53) in *.
  destruct (binary_round_aux_normal sx mz ez) as [Hq Hres];
    [exact Hs | fold s; lia | fold s; lia |].
  fold s in Hq, Hres. set (q := rne (Zpos mz) (Z.to_nat s)) in *.
  pose proof (digits2_bounds mz) as Hd.
  assert (Hm : 2 ^ 52 * 2 ^ s <= Zpos mz < 2 ^ 53 * 2 ^ s).
  { rewrite <- !pow_split by lia.
    replace (52 + s) with (Zpos (digits2_pos mz) - 1) by (unfold s; lia).
    replace (53 + s) with (Zpos (digits2_pos mz)) by (unfold s; lia).
    exact Hd. }
  assert (Hsn : Z.of_nat (Z.to_nat s) = s) by (apply Z2Nat.id; exact Hs).
  assert (Hq' : scaled (Zpos q') e' = scaled q (ez + s)).
  { rewrite Hres in Hrun. destruct (q <? 2 ^ 53) eqn:Hcarry.
    - apply Z.ltb_lt in Hcarry. injection Hrun as <- <-.
      rewrite Z2Pos.id by lia. reflexivity.
    - apply Z.ltb_ge in Hcarry. injection Hrun as <- <-.
      assert (Eq : q = 2 ^ 53) by lia. rewrite Eq. unfold scaled.
      replace (ez + s + 1 + bias) with (1 + (ez + s + bias)) by lia.
      rewrite (pow_split 1 (ez + s + bias)) by lia.
      change (Zpos (Z.to_pos (2 ^ 52))) with (2 ^ 52).
      change (2 ^ 53) with (2 ^ 52 * 2 ^ 1). ring. }
  rewrite Hq'.
  apply (compare_lower_half (Zpos mz) q s (ez + s) ez mc ec);
    try assumption; try lia.
  intros H. apply rne_ge_half; [lia | exact Hev | now rewrite Hsn].
Qed.

(** Any of the bases of the score plus a jitter of magnitude at most 0.05:
    the sum is a normal float between 0.25 and 0.75.  [u] is the base in
    units of [2^-57]. *)
Lemma add_any_base_bounds (mb : positive) (eb : Z) (sj : bool) (mj : positive) (ej : Z) :
  canon (Zpos mb) -> -54 <= eb <= -53 ->
  (let u := Zpos mb * 2 ^ (eb + 57) in
   4 * (2 ^ 54 - 1) <= 2 * (u - m_tenth) /\ u + m_tenth <= 16 * m_hi) ->
  canon (Zpos mj) -> -170 <= ej ->
  scaled (Zpos mj) ej <= scaled m_tenth (-57) ->
  exists mx ex,
    PyFloat.add (S754_finite false mb eb) (S754_finite sj mj ej)
      = S754_finite false mx ex /\
    canon (Zpos mx) /\ -170 <= ex /\
    scaled (2 ^ 52) (-54) <= scaled (Zpos mx) ex <= scaled m_hi (-53).
Proof.
  intros Hcb Heb Hu Hcan Hej Hmag. cbv zeta in Hu.
  assert (Hej' : ej <= -57).
  { apply canon_scaled_le in Hmag; try (unfold bias; lia); try exact Hcan.
    unfold canon, m_tenth; lia. }
  unfold PyFloat.add, SFadd.
  rewrite Z.min_r by lia.
  destruct (shl_align_value mb eb ej) as [_ ->]; [lia|].
  destruct (shl_align_value mj ej ej) as [_ ->]; [lia|].
  unfold cond_Zopp. rewrite Z.sub_diag, Z.pow_0_r, Z.mul_1_r.
  change PyFloat.prec with 53. change PyFloat.emax with 1024.
  set (t := eb - ej).
  assert (HT : 2 ^ 3 <= 2 ^ t) by (apply Z.pow_le_mono_r; unfold t; lia).
  set (z := Zpos mb * 2 ^ t + (if sj then - Zpos mj else Zpos mj)).
  assert (Hzlo : 2 ^ 54 <= z).
  { unfold z, canon in *. destruct sj; nia. }
  assert (Hzhi : z < 2 ^ (54 + t)).
  { rewrite pow_split by (unfold t; lia).
    unfold z, canon in *. destruct sj; nia. }
  assert (HA : 0 < 2 ^ (ej + bias)) by (apply pow_pos; unfold bias; lia).
  assert (HV : 0 < 2 ^ (-57 + bias)) by (apply pow_pos; unfold bias; lia).
  assert (HV4 : 2 ^ (-53 + bias) = 2 ^ 4 * 2 ^ (-57 + bias)).
  { rewrite <- pow_split by (unfold bias; lia). f_equal. }
  assert (HV3 : 2 ^ (-54 + bias) = 2 ^ 3 * 2 ^ (-57 + bias)).
  { rewrite <- pow_split by (unfold bias; lia). f_equal. }
  assert (HV2 : 2 ^ (-55 + bias) = 2 ^ 2 * 2 ^ (-57 + bias)).
  { rewrite <- pow_split by (unfold bias; lia). f_equal. }
  assert (HtA : 2 ^ t * 2 ^ (ej + bias) = 2 ^ (eb + 57) * 2 ^ (-57 + bias)).
  { rewrite <- !pow_split by (unfold t, bias; lia). f_equal. unfold t. lia. }
  assert (Hz : scaled z ej =
               Zpos mb * 2 ^ (eb + 57) * 2 ^ (-57 + bias)
               + (if sj then - scaled (Zpos mj) ej else scaled (Zpos mj) ej)).
  { unfold z, scaled. rewrite <- Z.mul_assoc, <- HtA. destruct sj; ring. }
  destruct z as [|p|p] eqn:Ez; [lia | | lia].
  cbn [binary_normalize].
  pose proof (digits2_gt p 54 ltac:(lia) Hzlo) as Hd1.
  pose proof (digits2_le p (54 + t) ltac:(unfold t; lia) Hzhi) as Hd2.
  destruct (binary_round_bounds false p ej)
    as (mx & ex & Hrun & Hcx & Hex & Hb); try (unfold t, bias in *; lia).
  exists mx, ex. split; [exact Hrun|]. split; [exact Hcx|].
  split; [lia|].
  assert (Hmj0 : 0 <= scaled (Zpos mj) ej).
  { unfold scaled. apply Z.mul_nonneg_nonneg; lia. }
  set (u := Zpos mb * 2 ^ (eb + 57)) in *.
  split.
  - change (scaled (2 ^ 52) (-54)) with (scaled (2 ^ 53) (-55)).
    apply (binary_round_lower_half false p ej (2 ^ 53) (-55) mx ex);
      try (unfold t, bias in *; lia); try exact Hrun; try reflexivity.
    rewrite Hz. unfold scaled in *. rewrite HV2.
    set (V := 2 ^ (-57 + bias)) in *.
    set (W := Zpos mj * 2 ^ (ej + bias)) in *.
    assert (4 * (2 ^ 54 - 1) * V <= 2 * (u - m_tenth) * V)
      by (apply Z.mul_le_mono_nonneg_r; lia).
    clearbody u V W. clear - H Hmag Hmj0 HV.
    unfold m_tenth in *. destruct sj; lia.
  - destruct (Hb m_hi (-53)) as (Hup & _ & _);
      [unfold canon, m_hi; lia | unfold bias; lia |].
    apply Hup. rewrite Hz. unfold scaled in *. rewrite HV4.
    set (V := 2 ^ (-57 + bias)) in *.
    set (W := Zpos mj * 2 ^ (ej + bias)) in *.
    assert ((u + m_tenth) * V <= 16 * m_hi * V)
      by (apply Z.mul_le_mono_nonneg_r; lia).
    clearbody u V W. clear - H Hmag Hmj0 HV.
    unfold m_hi, m_tenth in *. destruct sj; lia.
Qed.


(** Whatever the persona and the text, the base of the score is one of
    eight floats between 0.3 and 0.7000000000000001. *)
Lemma confidence_base_ok (persona : Persona.t) (text : string) :
  exists mb eb,
    confidence_base persona text = S754_finite false mb eb /\
    base_ok (Zpos mb) eb.
Proof.
  unfold confidence_base.
  destruct (Persona.tech_literacy persona =? "expert")%string;
    destruct (Persona.risk_aversion persona =? "high")%string;
    destruct (PyStr.any_in hedge_words (PyStr.lower text));
    eexists _, _; (split; [vm_compute; reflexivity|]);
    unfold base_ok, canon, m_tenth, m_hi, m_base; cbn; lia.
Qed.

(** The sum before the clamp is a normal float between 0.25 and 0.75. *)
Lemma unclamped_range (mb : positive) (eb : Z) (k : N) :
  base_ok (Zpos mb) eb -> (k < 2 ^ 53)%N ->
  exists mx ex,
    unclamped_for (S754_finite false mb eb) k = S754_finite false mx ex /\
    canon (Zpos mx) /\ -170 <= ex /\
    scaled (2 ^ 52) (-54) <= scaled (Zpos mx) ex <= scaled m_hi (-53).
Proof.
  intros (Hcb & Heb & Hlow & Hup) Hk. cbv zeta in Hlow, Hup. unfold unclamped_for.
  assert (HV : 0 < 2 ^ (-57 + bias)) by (apply pow_pos; unfold bias; lia).
  assert (HV4 : 2 ^ (-53 + bias) = 2 ^ 4 * 2 ^ (-57 + bias)).
  { rewrite <- pow_split by (unfold bias; lia). f_equal. }
  assert (HV3 : 2 ^ (-54 + bias) = 2 ^ 3 * 2 ^ (-57 + bias)).
  { rewrite <- pow_split by (unfold bias; lia). f_equal. }
  assert (Hb : 2 ^ (eb + bias) = 2 ^ (eb + 57) * 2 ^ (-57 + bias)).
  { rewrite <- pow_split by (unfold bias; lia). f_equal. lia. }
  destruct (N.eq_dec k (2 ^ 52)) as [-> | Hne].
  { change (PyFloat.mul (PyFloat.sub (PyFloat.of_bits53 (2 ^ 52)) PyFloat.f0_5)
              PyFloat.f0_1) with (S754_zero false).
    exists mb, eb. split; [reflexivity|]. split; [exact Hcb|]. split; [lia|].
    unfold scaled. rewrite Hb, HV3, HV4.
    assert (Hu : 2 ^ 55 <= Zpos mb * 2 ^ (eb + 57) <= 16 * m_hi).
    { destruct Hup as [Hup | [Hmb ->]].
      - unfold m_tenth, m_hi in *. lia.
      - rewrite Hmb. unfold m_base, m_hi. cbn. lia. }
    rewrite (Z.mul_assoc (Zpos mb)).
    set (u := Zpos mb * 2 ^ (eb + 57)) in *. set (V := 2 ^ (-57 + bias)) in *.
    clearbody u V. unfold m_hi in *. nia. }
  destruct (sub_half_value k Hk Hne) as (md & ed & -> & Hcd & Hed & Hvd).
  destruct (mul_tenth_bounds (k <? 2 ^ 52)%N md ed Hcd Hed)
    as (mj & ej & -> & Hcj & Hej & Hmag & Hpos).
  assert (Hk' : Z.of_N k < 2 ^ 53) by (change (2 ^ 53) with (Z.of_N (2 ^ 53)); lia).
  assert (HB : 0 < 2 ^ (-53 + bias)) by (apply pow_pos; unfold bias; lia).
  assert (Hmag' : scaled (Zpos mj) ej <= scaled m_tenth (-57)).
  { apply Hmag. rewrite Hvd. unfold scaled.
    apply Z.mul_le_mono_nonneg_r; lia. }
  destruct Hup as [Hup | [Hmb Heb']].
  - apply add_any_base_bounds; try assumption. cbv zeta. split; assumption.
  - injection Hmb as ->. subst eb.
    destruct (add_base_bounds (k <? 2 ^ 52)%N mj ej Hcj Hej Hmag')
      as (mx & Hrun & Hmx).
    + intros Hs. apply Hpos. rewrite Hvd. unfold scaled.
      apply Z.mul_le_mono_nonneg_r; [lia|].
      apply N.ltb_ge in Hs.
      assert (Z.of_N (2 ^ 52) <= Z.of_N k) by lia.
      change (Z.of_N (2 ^ 52)) with (2 ^ 52) in *. lia.
    + exists mx, (-53). split; [exact Hrun|].
      split; [unfold canon, m_lo, m_hi in *; lia|]. split; [lia|].
      unfold scaled. rewrite HV3, HV4.
      set (V := 2 ^ (-57 + bias)) in *. clearbody V.
      unfold m_lo, m_hi in *. nia.
Qed.

(** A normal float between 0.25 and 0.75 passes the clamp unchanged. *)
Lemma clamp_idle_wide (mx : positive) (ex : Z) :
  canon (Zpos mx) -> -170 <= ex ->
  scaled (2 ^ 52) (-54) <= scaled (Zpos mx) ex <= scaled m_hi (-53) ->
  PyFloat.max PyFloat.f0_05 (PyFloat.min PyFloat.f0_95 (S754_finite false mx ex))
    = S754_finite false mx ex /\
  in_range f0_25 PyFloat.f0_75 (S754_finite false mx ex) = true /\
  (ex = -54 \/ (ex = -53 /\ Zpos mx <= m_hi)).
Proof.
  intros Hcx Hex0 [Hlo Hhi].
  apply canon_scaled_le in Hlo; try (unfold bias; lia); try exact Hcx;
    [|unfold canon; lia].
  apply canon_scaled_le in Hhi; try (unfold bias; lia); try exact Hcx;
    [|unfold canon, m_hi; lia].
  assert (Hlt : forall a b : positive,
             Zpos a < Zpos b -> Pos.compare_cont Eq a b = Lt).
  { intros a b H. apply Pos.compare_lt_iff. lia. }
  assert (Hle : forall a b : positive, Zpos a <= Zpos b ->
             Pos.compare_cont Eq a b = Lt \/ Pos.compare_cont Eq a b = Eq).
  { intros a b H. change (Pos.compare_cont Eq a b) with (Pos.compare a b).
    destruct (Pos.compare_spec a b); auto; lia. }
  assert (Hex : ex = -54 \/ (ex = -53 /\ Zpos mx <= m_hi)) by lia.
  unfold canon, m_hi in *.
  destruct Hex as [-> | [-> Hmx]].
  - split; [reflexivity|]. split; [|now left].
    unfold in_range, PyFloat.leb, SFleb, f0_25, PyFloat.f0_75, SFcompare.
    change (Z.compare (-54) (-54)) with Eq. change (Z.compare (-54) (-53)) with Lt.
    cbv iota.
    destruct (Hle 4503599627370496%positive mx ltac:(lia)) as [-> | ->]; reflexivity.
  - assert (H1 : PyFloat.ltb (S754_finite false mx (-53)) PyFloat.f0_95 = true).
    { unfold PyFloat.ltb, SFltb, PyFloat.f0_95, SFcompare.
      change (Z.compare (-53) (-53)) with Eq. cbv iota.
      rewrite Hlt by lia. reflexivity. }
    assert (H2 : PyFloat.ltb PyFloat.f0_05 (S754_finite false mx (-53)) = true)
      by reflexivity.
    split; [unfold PyFloat.max, PyFloat.min; now rewrite H1, H2|].
    split; [|right; split; [reflexivity | exact Hmx]].
    unfold in_range, PyFloat.leb, SFleb, f0_25, PyFloat.f0_75, SFcompare.
    change (Z.compare (-53) (-53)) with Eq. change (Z.compare (-54) (-53)) with Lt.
    cbv iota.
    destruct (Hle mx 6755399441055744%positive Hmx) as [-> | ->]; reflexivity.
Qed.


(** [div2k_half_even a s] lies between the integers that bound [a / 2^s]. *)
Lemma div2k_half_even_bounds (a s lo hi : Z) :
  0 <= s -> lo * 2 ^ s <= a <= hi * 2 ^ s ->
  lo <= PyFloat.div2k_half_even a s <= hi.
Proof.
  intros Hs [Hlo Hhi]. unfold PyFloat.div2k_half_even.
  rewrite Z.shiftr_div_pow2, Z.shiftl_mul_pow2 by exact Hs.
  assert (HP : 0 < 2 ^ s) by (apply pow_pos; exact Hs).
  pose proof (Z.div_mod a (2 ^ s) ltac:(lia)) as Hdm.
  pose proof (Z.mod_pos_bound a (2 ^ s) HP) as Hmod.
  set (q := a / 2 ^ s) in *. set (r := a mod 2 ^ s) in *.
  replace (a - q * 2 ^ s) with r by lia.
  rewrite Z.shiftl_mul_pow2 by exact Hs. rewrite Z.mul_1_l.
  assert (Hq : lo <= q) by nia.
  assert (Hq' : q <= hi /\ (r = 0 \/ q < hi)) by nia.
  destruct (Z.compare_spec (2 * r) (2 ^ s)) as [H | H | H];
    try destruct (Z.even q); lia.
Qed.

(** [round(x, 2)] of a normal float between 0.25 and 0.75 is the float of a
    decimal with two places, between 0.25 and 0.75. *)
Lemma round2_two_places (mx : positive) (ex : Z) :
  canon (Zpos mx) -> -170 <= ex ->
  scaled (2 ^ 52) (-54) <= scaled (Zpos mx) ex <= scaled m_hi (-53) ->
  exists n, 25 <= n <= 75 /\
    PyFloat.round2 (S754_finite false mx ex) = PyFloat.literal n 2.
Proof.
  intros Hcx Hex0 Hb.
  destruct (clamp_idle_wide mx ex Hcx Hex0 Hb) as (_ & _ & Hex).
  destruct Hb as [Hlo Hhi].
  assert (Hneg : (0 <=? ex) = false) by (apply Z.leb_gt; lia).
  unfold PyFloat.round2. rewrite Hneg.
  exists (PyFloat.div2k_half_even (100 * Zpos mx) (- ex)).
  split; [|reflexivity].
  apply div2k_half_even_bounds; [lia|].
  unfold canon, m_hi in *.
  destruct Hex as [-> | [-> Hmx]]; cbn; lia.
Qed.

End B64More.

Section ConfidenceMore.
Context {R : RandomSource}.
Import B64 B64Facts B64More.

(** X1 -- the clamp never binds: for every persona, every text and every state of
    the random source, [_score_confidence] returns the sum of the base and
    the jitter itself, a float between 0.25 and 0.75. *)
Theorem score_confidence_clamp_idle (persona : Persona.t) (text : string) (s : rng) :
  exists v s',
    _score_confidence persona text s = Some (v, s') /\
    v = unclamped_for (confidence_base persona text) (fst (rng_bits53 s)) /\
    in_range f0_25 PyFloat.f0_75 v = true.
Proof.
  rewrite score_confidence_run.
  destruct (confidence_base_ok persona text) as (mb & eb & -> & Hok).
  destruct (unclamped_range mb eb (fst (rng_bits53 s)) Hok (rng_bits53_lt s))
    as (mx & ex & Hrun & Hcx & Hex & Hb).
  destruct (clamp_idle_wide mx ex Hcx Hex Hb) as (Hidle & Hrange & _).
  eexists _, _. split; [reflexivity|].
  unfold confidence_for. rewrite Hrun, Hidle. split; [reflexivity | exact Hrange].
Qed.

Lemma confidence_two_places (persona : Persona.t) (text : string) (s : rng) :
  exists n,
    25 <= n <= 75 /\
    PyFloat.round2 (confidence_for (confidence_base persona text) (fst (rng_bits53 s)))
      = PyFloat.literal n 2.
Proof.
  destruct (confidence_base_ok persona text) as (mb & eb & -> & Hok).
  destruct (unclamped_range mb eb (fst (rng_bits53 s)) Hok (rng_bits53_lt s))
    as (mx & ex & Hun & Hcx & Hex & Hb).
  destruct (clamp_idle_wide mx ex Hcx Hex Hb) as (Hidle & _ & _).
  unfold confidence_for. rewrite Hun, Hidle.
  apply round2_two_places; assumption.
Qed.

(** X2 -- the confidence a heuristic reply records is the float of a decimal with
    two places between 0.25 and 0.75. *)
Theorem heuristic_reply_confidence_two_places
    (persona : Persona.t) (user_msg feature_spec : string) (s s' : rng)
    (reply : string) (meta : Reasoning.t) :
  _heuristic_persona_reply persona user_msg feature_spec s = Some ((reply, meta), s') ->
  exists n, 25 <= n <= 75 /\ Reasoning.confidence meta = PyFloat.literal n 2.
Proof.
  intros Hrun.
  destruct (heuristic_persona_reply_run persona user_msg feature_spec s)
    as (meta' & Hrun' & _ & Hconf).
  rewrite Hrun in Hrun'. injection Hrun' as _ <- _.
  rewrite Hconf. apply confidence_two_places.
Qed.

End ConfidenceMore.

(** ** The shape of a conversation *)

Section LoopShapes.
Context {R : RandomSource}.
Import PyStr.

Lemma heuristic_reply_shape (persona : Persona.t) (user_msg feature_spec : string)
    (s s' : rng) (reply : string) (meta : Reasoning.t) :
  _heuristic_persona_reply persona user_msg feature_spec s = Some ((reply, meta), s') ->
  reasoned_reply persona feature_spec
    (Message.make Role.persona reply (MetaReasoning meta)).
Proof.
  intros Hrun.
  destruct (heuristic_persona_reply_run persona user_msg feature_spec s)
    as (meta' & Hrun' & _ & Hconf).
  rewrite Hrun in Hrun'. injection Hrun' as _ <- _.
  destruct (confidence_two_places persona user_msg s) as (n & Hn & Hc).
  rewrite <- Hconf in Hc. clear Hconf.
  split; [reflexivity|]. exists meta. split; [reflexivity|].
  unfold _heuristic_persona_reply in Hrun.
  destruct (reply_ingredients persona (lower (user_msg ++ " " ++ feature_spec)))
    as [[concerns kudos] suggestions].
  unfold bind in Hrun. rewrite score_confidence_run in Hrun. unfold ret in Hrun.
  injection Hrun as _ <- _.
  cbn [Reasoning.salient_traits Reasoning.assumptions Reasoning.follow_ups].
  repeat split. exists n. split; [exact Hn | exact Hc].
Qed.

Lemma heuristic_turns_shape (n : nat) (persona : Persona.t) (feature_spec : string)
    (follow_ups : list string) :
  forall (messages result : list Message.t) (s s' : rng),
    heuristic_turns n persona feature_spec follow_ups messages s = Some (result, s') ->
    exists added,
      result = (messages ++ added)%list /\
      heuristic_added persona feature_spec follow_ups n added.
Proof.
  induction n as [|n IH]; intros messages result s s' Hrun.
  - cbn in Hrun. injection Hrun as <- _. exists []. split; [now rewrite app_nil_r | exact I].
  - cbn [heuristic_turns] in Hrun. unfold bind at 1 in Hrun.
    destruct (random_choice follow_ups s) as [[q s1]|] eqn:Hq; [|discriminate].
    unfold bind at 1 in Hrun.
    destruct (_heuristic_persona_reply persona q feature_spec s1)
      as [[[reply meta2] s2]|] eqn:Hreply; [|discriminate].
    apply IH in Hrun as (added & -> & Hadded).
    eexists (_ :: _ :: added). split; [now rewrite <- !app_assoc|].
    cbn [heuristic_added]. split; [|split; [|exact Hadded]].
    + split; [reflexivity|]. split; [reflexivity|]. cbn [Message.content user_message].
      unfold random_choice in Hq.
      destruct follow_ups as [|f fs]; [discriminate|].
      destruct (rng_below _ s) as [i s0].
      destruct (nth_error (f :: fs) (N.to_nat i)) as [x|] eqn:Hx; [|discriminate].
      injection Hq as <- _. eapply nth_error_In; eassumption.
    + eapply heuristic_reply_shape; eassumption.
Qed.

Lemma agent_turns_shape (tt : TinyTroupe) (n : nat) (persona : Persona.t)
    (feature_spec : string) :
  forall (t : Z) (tiny_person : TinyPerson tt) (prompt : string)
         (messages result : list Message.t) (s s' : rng),
    agent_turns tt n t tiny_person prompt persona feature_spec messages s =
      Some (result, s') ->
    exists added,
      result = (messages ++ added)%list /\
      agent_added (_extract_followups persona feature_spec) n t added.
Proof.
  induction n as [|n IH]; intros t tiny_person prompt messages result s s' Hrun.
  - cbn in Hrun. injection Hrun as <- _. exists []. split; [now rewrite app_nil_r | exact I].
  - cbn [agent_turns] in Hrun.
    destruct (listen_and_act tt tiny_person prompt) as [[response tp']|];
      [|discriminate].
    unfold bind at 1 in Hrun.
    destruct (random_choice_run (_extract_followups persona feature_spec) s
                (extract_followups_nonempty persona feature_spec))
      as (q & Hq & Hin).
    rewrite Hq in Hrun.
    apply IH in Hrun as (added & -> & Hadded).
    eexists (_ :: _ :: added). split; [now rewrite <- !app_assoc|].
    cbn [agent_added]. split; [|split; [|exact Hadded]].
    + split; reflexivity.
    + split; [reflexivity|]. split; [reflexivity|].
      exists q. split; [exact Hin | reflexivity].
Qed.

End LoopShapes.

Section SimulateShapes.
Context {R : RandomSource}.
Import PyStr.

(** The messages of a conversation [simulate] returns are those of the
    branch it took, run from the state after the draw of the suffix. *)
Lemma simulate_messages
    (tt : option TinyTroupe) (env : Environ) (clock : Clock)
    (persona : Persona.t) (feature_title feature_spec : string)
    (system_preamble : option string) (turns seed : Z) (conv : Conversation.t) :
  simulate tt env clock persona feature_title feature_spec system_preamble
    turns seed = Some conv ->
  exists s',
    match agent_backend tt env with
    | Some tt' =>
        agent_branch tt' persona feature_spec turns
          (user_open_of feature_title feature_spec)
          [user_message (user_open_of feature_title feature_spec)]
          (after_suffix seed)
    | None =>
        heuristic_branch persona feature_spec turns
          (user_open_of feature_title feature_spec)
          [user_message (user_open_of feature_title feature_spec)]
          (after_suffix seed)
    end = Some (Conversation.messages conv, s').
Proof.
  intros Hrun. rewrite simulate_unfold in Hrun.
  destruct (match agent_backend tt env with Some _ => _ | None => _ end)
    as [[ms s1]|] eqn:Hbranch; [|discriminate].
  injection Hrun as <-. cbn [Conversation.messages]. exists s1.
  destruct (agent_backend tt env); exact Hbranch.
Qed.

Lemma heuristic_branch_shape (persona : Persona.t) (feature_spec : string)
    (turns : Z) (user_open : string) (messages result : list Message.t) (s s' : rng) :
  heuristic_branch persona feature_spec turns user_open messages s = Some (result, s') ->
  exists first added,
    result = (messages ++ first :: added)%list /\
    reasoned_reply persona feature_spec first /\
    heuristic_added persona feature_spec
      (_extract_followups persona feature_spec) (Z.to_nat (turns - 1)) added.
Proof.
  intros Hbranch. unfold heuristic_branch in Hbranch. unfold bind at 1 in Hbranch.
  destruct (_heuristic_persona_reply persona user_open feature_spec s)
    as [[[reply meta] s1]|] eqn:Hreply; [|discriminate].
  pose proof (heuristic_reply_shape _ _ _ _ _ _ _ Hreply) as Hfirst.
  destruct (heuristic_persona_reply_run persona user_open feature_spec s)
    as (meta' & Hrun' & Hfu & _).
  rewrite Hreply in Hrun'. injection Hrun' as _ <- _.
  rewrite Hfu in Hbranch.
  apply heuristic_turns_shape in Hbranch as (added & -> & Hadded).
  eexists _, added. split; [now rewrite <- app_assoc|]. split; assumption.
Qed.

(** X3 -- on the heuristic path a conversation is the opener, the reply to it,
    and then for every further turn a follow-up question drawn from the
    follow-ups of the feature spec and the reply to it; every reply carries
    its reasoning record. *)
Theorem simulate_heuristic_shape
    (tt : option TinyTroupe) (env : Environ) (clock : Clock)
    (persona : Persona.t) (feature_title feature_spec : string)
    (system_preamble : option string) (turns seed : Z) (conv : Conversation.t) :
  agent_backend tt env = None ->
  simulate tt env clock persona feature_title feature_spec system_preamble
    turns seed = Some conv ->
  exists first added,
    Conversation.messages conv =
      user_message (user_open_of feature_title feature_spec) :: first :: added /\
    reasoned_reply persona feature_spec first /\
    heuristic_added persona feature_spec
      (_extract_followups persona feature_spec) (Z.to_nat (turns - 1)) added.
Proof.
  intros Hb Hrun. apply simulate_messages in Hrun as (s' & Hbranch).
  rewrite Hb in Hbranch.
  apply heuristic_branch_shape in Hbranch as (first & added & Hmsgs & Hfirst & Hadded).
  exists first, added. split; [exact Hmsgs|]. split; assumption.
Qed.

(** X4 -- with the agent backend a conversation is the opener and then, for the
    turns 1, 2, ... in this order, the reply of the agent tagged with the
    number of the turn and a user message "Follow-up: " with a question
    drawn from the follow-ups of the feature spec. *)
Theorem simulate_agent_shape
    (tt : option TinyTroupe) (env : Environ) (clock : Clock)
    (persona : Persona.t) (feature_title feature_spec : string)
    (system_preamble : option string) (turns seed : Z)
    (tt' : TinyTroupe) (conv : Conversation.t) :
  agent_backend tt env = Some tt' ->
  simulate tt env clock persona feature_title feature_spec system_preamble
    turns seed = Some conv ->
  exists added,
    Conversation.messages conv =
      user_message (user_open_of feature_title feature_spec) :: added /\
    agent_added (_extract_followups persona feature_spec) (Z.to_nat turns) 0 added.
Proof.
  intros Hb Hrun. apply simulate_messages in Hrun as (s' & Hbranch).
  rewrite Hb in Hbranch. unfold agent_branch in Hbranch.
  apply agent_turns_shape in Hbranch as (added & Hmsgs & Hadded).
  exists added. split; [exact Hmsgs | exact Hadded].
Qed.

Lemma heuristic_added_meta (persona : Persona.t) (feature_spec : string)
    (qs : list string) (n : nat) :
  forall ms, heuristic_added persona feature_spec qs n ms ->
    forallb (fun m => Bool.eqb (meta_truthy (Message.meta m))
                        (Role.eqb (Message.role m) Role.persona)) ms = true.
Proof.
  induction n as [|n IH]; intros [|q [|a ms]] H; cbn in H; try contradiction;
    [reflexivity|].
  destruct H as ((Hq1 & Hq2 & _) & (Ha1 & r & Ha2 & _) & Hrest).
  cbn [forallb]. rewrite Hq1, Hq2, Ha1, Ha2. cbn. now apply IH.
Qed.

Lemma agent_added_meta (qs : list string) (n : nat) :
  forall t ms, agent_added qs n t ms ->
    forallb (fun m => Bool.eqb (meta_truthy (Message.meta m))
                        (Role.eqb (Message.role m) Role.persona)) ms = true.
Proof.
  induction n as [|n IH]; intros t [|a [|q ms]] H; cbn in H; try contradiction;
    [reflexivity|].
  destruct H as ((Ha1 & Ha2) & (Hq1 & Hq2 & _) & Hrest).
  cbn [forallb]. rewrite Hq1, Hq2, Ha1, Ha2. cbn. now apply (IH (t + 1)).
Qed.

(** X5 -- in every conversation [simulate] returns, the metadata of a message is
    empty exactly when the message is a user message. *)
Theorem simulate_meta_on_persona_only
    (tt : option TinyTroupe) (env : Environ) (clock : Clock)
    (persona : Persona.t) (feature_title feature_spec : string)
    (system_preamble : option string) (turns seed : Z) (conv : Conversation.t) :
  simulate tt env clock persona feature_title feature_spec system_preamble
    turns seed = Some conv ->
  forallb (fun m => Bool.eqb (meta_truthy (Message.meta m))
                      (Role.eqb (Message.role m) Role.persona))
    (Conversation.messages conv) = true.
Proof.
  intros Hrun. apply simulate_messages in Hrun as (s' & Hbranch).
  destruct (agent_backend tt env) as [tt'|].
  - unfold agent_branch in Hbranch.
    apply agent_turns_shape in Hbranch as (added & -> & Hadded).
    cbn [app forallb]. apply (agent_added_meta _ _ _ _ Hadded).
  - apply heuristic_branch_shape in Hbranch
      as (first & added & -> & (Hf1 & r & Hf2 & _) & Hadded).
    cbn [app forallb]. rewrite Hf1, Hf2. cbn.
    apply (heuristic_added_meta _ _ _ _ _ Hadded).
Qed.

Lemma last_after {A : Type} (l1 l2 : list A) (d : A) :
  l2 <> [] -> List.last (l1 ++ l2) d = List.last l2 d.
Proof.
  intros Hne. induction l1 as [|x l1 IH]; [reflexivity|].
  cbn [app]. destruct (l1 ++ l2)%list eqn:E.
  - apply app_eq_nil in E as [_ ->]. contradiction.
  - rewrite <- IH. reflexivity.
Qed.

Lemma turn_roles_length (a b : Role.t) (n : nat) :
  List.length (turn_roles a b n) = (2 * n)%nat.
Proof. induction n as [|n IH]; cbn; [reflexivity | rewrite IH; lia]. Qed.

Lemma turn_roles_last (a b d : Role.t) (n : nat) :
  List.last (turn_roles a b n) d = match n with O => d | S _ => b end.
Proof.
  induction n as [|n IH]; [reflexivity|].
  cbn [turn_roles]. destruct n as [|n]; [reflexivity|].
  change (turn_roles a b (S (S n))) with (a :: b :: turn_roles a b (S n)) in *.
  cbn [turn_roles] in *. exact IH.
Qed.

(** X6 -- the two paths count their messages differently: the heuristic path
    returns [2 * max(turns, 1)] messages and ends on a persona reply, the
    agent path returns [2 * max(turns, 0) + 1] messages and ends on a user
    message, a follow-up nobody answers. *)
Theorem simulate_length_and_last
    (tt : option TinyTroupe) (env : Environ) (clock : Clock)
    (persona : Persona.t) (feature_title feature_spec : string)
    (system_preamble : option string) (turns seed : Z) (conv : Conversation.t) :
  simulate tt env clock persona feature_title feature_spec system_preamble
    turns seed = Some conv ->
  match agent_backend tt env with
  | None =>
      Z.of_nat (List.length (Conversation.messages conv)) = 2 * Z.max turns 1 /\
      List.last (map Message.role (Conversation.messages conv)) Role.user
        = Role.persona
  | Some _ =>
      Z.of_nat (List.length (Conversation.messages conv)) = 2 * Z.max turns 0 + 1 /\
      List.last (map Message.role (Conversation.messages conv)) Role.persona
        = Role.user
  end.
Proof.
  intros Hrun. destruct (agent_backend tt env) as [tt'|] eqn:Hb.
  - destruct (simulate_agent _ _ _ _ _ _ _ _ _ _ _ Hb Hrun) as (added & -> & Hroles).
    split.
    + cbn [List.length]. rewrite <- (length_map Message.role), Hroles,
        turn_roles_length. lia.
    + cbn [map]. rewrite Hroles.
      change (Message.role (user_message _)) with Role.user.
      destruct (Z.to_nat turns) as [|n]; [reflexivity|].
      change (Role.user :: turn_roles Role.persona Role.user (S n))
        with ([Role.user] ++ turn_roles Role.persona Role.user (S n))%list.
      rewrite last_after by discriminate.
      apply turn_roles_last.
  - destruct (simulate_heuristic tt env clock persona feature_title feature_spec
                system_preamble turns seed Hb)
      as (conv' & reply & meta & added & Hrun' & Hmsgs & _ & Hroles).
    rewrite Hrun in Hrun'. injection Hrun' as <-. rewrite Hmsgs. split.
    + cbn [List.length]. rewrite <- (length_map Message.role), Hroles,
        turn_roles_length. lia.
    + cbn [map]. rewrite Hroles.
      change (Message.role (user_message _)) with Role.user.
      cbn [Message.role].
      destruct (Z.to_nat (turns - 1)) as [|n]; [reflexivity|].
      change (Role.user :: Role.persona :: turn_roles Role.user Role.persona (S n))
        with ([Role.user; Role.persona] ++ turn_roles Role.user Role.persona (S n))%list.
      rewrite last_after by discriminate.
      apply turn_roles_last.
Qed.



(** X8 -- an exception of the agent is not caught and the heuristic generator is
    no fallback: when the agent raises on the opener of a run of at least
    one turn, [simulate] raises. *)
Theorem simulate_agent_error_escapes
    (tt : option TinyTroupe) (env : Environ) (clock : Clock)
    (persona : Persona.t) (feature_title feature_spec : string)
    (system_preamble : option string) (turns seed : Z) (tt' : TinyTroupe) :
  agent_backend tt env = Some tt' ->
  1 <= turns ->
  (forall tiny_person,
     listen_and_act tt' tiny_person (user_open_of feature_title feature_spec) = None) ->
  simulate tt env clock persona feature_title feature_spec system_preamble
    turns seed = None.
Proof.
  intros Hb Hturns Hact. rewrite simulate_unfold, Hb. unfold agent_branch.
  destruct (Z.to_nat turns) as [|n] eqn:Hn; [lia|].
  cbv zeta. cbn [agent_turns]. rewrite Hact. reflexivity.
Qed.

End SimulateShapes.

(** ** The record of a run *)

Section StripFacts.
Import PyStr.

Lemma lstrip_head_kept (s : string) : head_kept (lstrip s) = true.
Proof.
  induction s as [|c s IH]; [reflexivity|].
  cbn [lstrip]. destruct (is_space c) eqn:Hc; [exact IH|].
  cbn. now rewrite Hc.
Qed.

Lemma lstrip_fixed (s : string) : head_kept s = true -> lstrip s = s.
Proof.
  destruct s as [|c s]; [reflexivity|]. cbn. intros H.
  apply negb_true_iff in H. now rewrite H.
Qed.

Lemma rstrip_head_kept (s : string) :
  head_kept s = true -> head_kept (rstrip s) = true.
Proof.
  destruct s as [|c s]; [reflexivity|]. cbn [head_kept rstrip]. intros H.
  destruct (rstrip s); [|exact H].
  apply negb_true_iff in H. rewrite H. cbn. now rewrite H.
Qed.

Lemma rstrip_last_kept (s : string) : last_kept (rstrip s) = true.
Proof.
  induction s as [|c s IH]; [reflexivity|].
  cbn [rstrip]. destruct (rstrip s) as [|c' r] eqn:Hr.
  - destruct (is_space c) eqn:Hc; [reflexivity|]. cbn. now rewrite Hc.
  - exact IH.
Qed.

Lemma rstrip_fixed (s : string) : last_kept s = true -> rstrip s = s.
Proof.
  induction s as [|c s IH]; [reflexivity|].
  intros H. cbn [rstrip]. destruct s as [|c' s'].
  - cbn in *. apply negb_true_iff in H. now rewrite H.
  - rewrite IH by exact H. reflexivity.
Qed.

(** [strip] removes the spaces at both ends, and stripping twice changes
    nothing. *)
Lemma strip_ends (s : string) :
  head_kept (strip s) = true /\ last_kept (strip s) = true /\
  strip (strip s) = strip s.
Proof.
  unfold strip.
  assert (H1 : head_kept (rstrip (lstrip s)) = true)
    by apply rstrip_head_kept, lstrip_head_kept.
  assert (H2 : last_kept (rstrip (lstrip s)) = true) by apply rstrip_last_kept.
  split; [exact H1|]. split; [exact H2|].
  rewrite (lstrip_fixed _ H1). apply rstrip_fixed, H2.
Qed.

End StripFacts.

Section RecordFacts.
Context {R : RandomSource}.
Import PyStr.

Lemma four_digits (n : Z) : 1000 <= n <= 9999 -> String.length (of_int n) = 4%nat.
Proof.
  intros Hn.
  assert (Hall : forallb (fun i => forallb (fun j =>
                    (String.length (of_int (1000 + 100 * Z.of_nat i + Z.of_nat j))
                     =? 4)%nat) (seq 0 100)) (seq 0 90) = true)
    by (vm_compute; reflexivity).
  rewrite forallb_forall in Hall.
  specialize (Hall (Z.to_nat ((n - 1000) / 100))).
  rewrite forallb_forall in Hall.
  assert (Hi : 0 <= (n - 1000) / 100 < 90).
  { split; [apply Z.div_pos; lia | apply Z.div_lt_upper_bound; lia]. }
  pose proof (Z.mod_pos_bound (n - 1000) 100 ltac:(lia)) as Hj.
  pose proof (Z.div_mod (n - 1000) 100 ltac:(lia)) as Hdm.
  specialize (Hall ltac:(apply in_seq; lia) (Z.to_nat ((n - 1000) mod 100))
                ltac:(apply in_seq; lia)).
  rewrite !Z2Nat.id in Hall by lia.
  replace (1000 + 100 * ((n - 1000) / 100) + (n - 1000) mod 100) with n in Hall by lia.
  apply Nat.eqb_eq, Hall.
Qed.

(** X9 -- the feature_id is the clock's second, a hyphen and four digits, and the
    four digits are drawn right after the seeding: they depend on the seed
    alone.  Two runs in the same second with the same seed carry the same
    feature_id, whatever their personas, titles, specs and turn counts. *)
Theorem simulate_feature_id
    (tt1 tt2 : option TinyTroupe) (env1 env2 : Environ) (clock1 clock2 : Clock)
    (persona1 persona2 : Persona.t) (title1 title2 spec1 spec2 : string)
    (pre1 pre2 : option string) (turns1 turns2 seed : Z)
    (conv1 conv2 : Conversation.t) :
  simulate tt1 env1 clock1 persona1 title1 spec1 pre1 turns1 seed = Some conv1 ->
  simulate tt2 env2 clock2 persona2 title2 spec2 pre2 turns2 seed = Some conv2 ->
  (exists digits,
     Conversation.feature_id conv1 = of_int (unix_time clock1) ++ "-" ++ digits /\
     String.length digits = 4%nat /\
     digits = of_int (suffix_of seed) /\ 1000 <= suffix_of seed <= 9999) /\
  (unix_time clock1 = unix_time clock2 ->
   Conversation.feature_id conv1 = Conversation.feature_id conv2).
Proof.
  intros H1 H2. rewrite simulate_unfold in H1, H2.
  destruct (match agent_backend tt1 env1 with Some _ => _ | None => _ end)
    as [[ms1 s1]|]; [|discriminate].
  destruct (match agent_backend tt2 env2 with Some _ => _ | None => _ end)
    as [[ms2 s2]|]; [|discriminate].
  injection H1 as <-. injection H2 as <-. cbn [Conversation.feature_id].
  assert (Hs : 1000 <= suffix_of seed <= 9999).
  { unfold suffix_of.
    pose proof (rng_below_lt 9000 (rng_seed seed) ltac:(lia)) as Hlt. lia. }
  split.
  - exists (of_int (suffix_of seed)). split; [reflexivity|].
    split; [apply four_digits, Hs|]. split; [reflexivity | exact Hs].
  - intros ->. reflexivity.
Qed.

(** X10 -- the title the record stores is never empty and has no space at either
    end, and neither has the spec it stores: stripping them again changes
    nothing. *)
Theorem simulate_stored_text_stripped
    (tt : option TinyTroupe) (env : Environ) (clock : Clock)
    (persona : Persona.t) (feature_title feature_spec : string)
    (system_preamble : option string) (turns seed : Z) (conv : Conversation.t) :
  simulate tt env clock persona feature_title feature_spec system_preamble
    turns seed = Some conv ->
  Conversation.feature_title conv <> "" /\
  strip (Conversation.feature_title conv) = Conversation.feature_title conv /\
  strip (Conversation.feature_spec conv) = Conversation.feature_spec conv.
Proof.
  intros Hrun. rewrite simulate_unfold in Hrun.
  destruct (match agent_backend tt env with Some _ => _ | None => _ end)
    as [[ms s1]|]; [|discriminate].
  injection Hrun as <-.
  cbn [Conversation.feature_title Conversation.feature_spec].
  unfold str_or.
  destruct (strip_ends feature_title) as (_ & _ & Ht).
  destruct (strip_ends feature_spec) as (_ & _ & Hs).
  destruct (strip feature_title) as [|c t] eqn:E; cbn [truthy].
  - split; [discriminate|]. split; [reflexivity | exact Hs].
  - split; [discriminate|]. split; [exact Ht | exact Hs].
Qed.

End RecordFacts.

(** ** More properties of the extractor and of the reply generator *)

Section ExtractorMore.
Context {R : RandomSource}.
Import PyStr.

Lemma lower_app (a b : string) : lower (a ++ b) = lower a ++ lower b.
Proof. induction a as [|c a IH]; [reflexivity|]. cbn. now rewrite IH. Qed.

(** X11 -- the follow-ups never repeat a question and keep the order of the rules;
    the generic question is there exactly when no rule matches, and then it
    is alone. *)
Theorem extract_followups_rule_order (persona : Persona.t) (spec : string) :
  let qs := _extract_followups persona spec in
  NoDup qs /\
  (qs = [q_job] \/
   is_subsequence qs [q_metrics; q_skip; q_trial; q_keyboard; q_data] = true) /\
  (In q_job qs <->
   forallb (fun rule => negb (rule_matches (lower spec) rule)) followup_rules = true).
Proof.
  cbv zeta. rewrite extract_followups_by_rules.
  unfold followups_by_rules, followup_rules.
  cbn [filter map forallb].
  destruct (rule_matches (lower spec) (["analytics"], q_metrics));
    destruct (rule_matches (lower spec) (["onboarding"], q_skip));
    destruct (rule_matches (lower spec) (["paywall"; "pricing"; "trial"], q_trial));
    destruct (rule_matches (lower spec)
                (["accessibility"; "aria"; "keyboard"; "contrast"; "wcag"], q_keyboard));
    destruct (rule_matches (lower spec) (["privacy"; "gdpr"], q_data));
    cbn [map snd firstn negb andb];
    (split; [repeat constructor; cbn; intuition discriminate|]);
    (split; [first [left; reflexivity | right; reflexivity]|]);
    (split; [cbn; intuition discriminate | intros H; try discriminate H; now left]).
Qed.

(** X12 -- matching is by substring and blind to case: a spec that holds a keyword
    of a rule anywhere, in any mix of cases, gets the question of the
    rule. *)
Theorem extract_followups_keyword_anywhere
    (persona : Persona.t) (rule : list string * string) (keyword : string)
    (before word after : string) :
  In rule followup_rules -> In keyword (fst rule) -> lower word = keyword ->
  In (snd rule) (_extract_followups persona (before ++ word ++ after)).
Proof.
  intros Hrule Hkw Hword.
  rewrite extract_followups_by_rules. unfold followups_by_rules.
  set (low := lower (before ++ word ++ after)).
  assert (Hin : str_in keyword low = true).
  { unfold low. rewrite !lower_app, Hword. apply str_in_app. }
  assert (Hm : rule_matches low rule = true).
  { unfold rule_matches, any_in. apply existsb_exists. now exists keyword. }
  assert (Hhit : In (snd rule) (map snd (filter (rule_matches low) followup_rules))).
  { apply in_map, filter_In. split; assumption. }
  assert (Hlen : (List.length (map snd (filter (rule_matches low) followup_rules)) <= 5)%nat).
  { rewrite length_map. apply (filter_length_le (rule_matches low) followup_rules). }
  destruct (map snd (filter (rule_matches low) followup_rules)) as [|q qs] eqn:E;
    [contradiction|].
  rewrite firstn_all2 by lia. exact Hhit.
Qed.

End ExtractorMore.

Section ReplyMore.
Context {R : RandomSource}.
Import PyStr.

Lemma append_if_In {A : Type} (c : bool) (x y : A) (l : list A) :
  In y l -> In y (append_if c x l).
Proof. destruct c; cbn; [|auto]. intros H. apply in_or_app. now left. Qed.

Lemma append_if_last {A : Type} (x : A) (l : list A) : In x (append_if true x l).
Proof. cbn. apply in_or_app. right. now left. Qed.

Lemma startswith_refl (k : string) : startswith k k = true.
Proof.
  induction k as [|c k IH]; [reflexivity|]. cbn. now rewrite Ascii.eqb_refl.
Qed.

Lemma str_in_refl (k : string) : str_in k k = true.
Proof. apply str_in_here, startswith_refl. Qed.

Lemma startswith_before (k s r : string) :
  startswith s k = true -> startswith (s ++ r) k = true.
Proof.
  revert s. induction k as [|a k IH]; intros s H.
  - destruct (s ++ r); reflexivity.
  - destruct s as [|c s]; [discriminate|]. cbn in *.
    apply andb_true_iff in H as [-> H]. now apply IH.
Qed.

Lemma str_in_before (k s r : string) :
  str_in k s = true -> str_in k (s ++ r) = true.
Proof.
  induction s as [|c s IH]; intros H.
  - cbn in H. rewrite orb_false_r in H.
    apply str_in_here. now apply (startswith_before k "" r).
  - cbn [append str_in] in *. apply orb_true_iff in H as [H | H].
    + apply orb_true_iff. left. now apply (startswith_before k (String c s) r).
    + apply orb_true_iff. right. now apply IH.
Qed.

Lemma str_in_join (sep x : string) (l : list string) :
  In x l -> str_in x (join sep l) = true.
Proof.
  induction l as [|y l IH]; [contradiction|].
  intros [-> | Hin].
  - destruct l as [|z l]; cbn [join]; [apply str_in_refl|].
    apply (str_in_app x "" (sep ++ join sep (z :: l))).
  - destruct l as [|z l]; [contradiction|]. cbn [join].
    apply str_in_after, str_in_after, IH, Hin.
Qed.

(** X13 -- the rules on the persona fire whatever the text: an archetype that
    mentions security, in any case, puts the SSO/MFA concern into every
    reply, and a casual tone opens every reply with the like-line. *)
Theorem persona_rules_fire_on_any_text
    (persona : Persona.t) (user_msg feature_spec : string) (s : rng) :
  exists reply meta s',
    _heuristic_persona_reply persona user_msg feature_spec s =
      Some ((reply, meta), s') /\
    (str_in "security" (lower (Persona.archetype persona)) = true ->
     str_in "Need SSO/MFA, audit logs, and data retention controls." reply = true) /\
    (Persona.tone persona = "casual" ->
     startswith reply
       "**What I like:** Looks fun if visuals stay bold with quick motion affordances."
     = true).
Proof.
  destruct (heuristic_persona_reply_run persona user_msg feature_spec s)
    as (meta & Hrun & _).
  destruct (reply_ingredients persona (lower (user_msg ++ " " ++ feature_spec)))
    as [[concerns kudos] suggestions] eqn:E.
  rewrite compose_summary_blocks in Hrun.
  unfold reply_ingredients in E. injection E as Hc Hk Hs.
  eexists _, meta, _. split; [exact Hrun|]. split.
  - intros Hsec.
    assert (Hin : In "Need SSO/MFA, audit logs, and data retention controls." concerns).
    { rewrite <- Hc. apply append_if_In.
      rewrite Hsec, orb_true_r. apply append_if_last. }
    clear Hc Hk Hs.
    unfold reply_by_blocks, category_block.
    destruct concerns as [|c0 cs] eqn:Ec; [contradiction|].
    pose proof (str_in_join "; " _ _ Hin) as Hj.
    assert (Hblock : str_in "Need SSO/MFA, audit logs, and data retention controls."
                       ("**Concerns:** " ++ join "; " (c0 :: cs)) = true)
      by (apply str_in_after, Hj).
    destruct kudos as [|k0 ks]; destruct suggestions as [|g0 gs]; cbn [app join].
    + exact Hblock.
    + apply str_in_before, Hblock.
    + apply str_in_after, str_in_after, Hblock.
    + apply str_in_after, str_in_after, str_in_before, Hblock.
  - intros Htone.
    assert (Hk' : kudos = ["Looks fun if visuals stay bold with quick motion affordances."]).
    { rewrite <- Hk, Htone. rewrite orb_true_r. reflexivity. }
    rewrite Hk'. unfold reply_by_blocks, category_block.
    destruct concerns; destruct suggestions; cbn [app join];
      try apply startswith_app.
    apply startswith_refl.
Qed.

End ReplyMore.

(** ** Properties of the persona catalog *)

Module PyDictFacts.
Import PyDict.

Lemma get_set_same {V : Type} (d : t V) (k : string) (v : V) :
  get (set d k v) k = Some v.
Proof.
  induction d as [|[k' v'] d IH]; cbn.
  - now rewrite String.eqb_refl.
  - destruct (k' =? k)%string eqn:E; cbn; rewrite E; [reflexivity | exact IH].
Qed.

Lemma get_set_other {V : Type} (d : t V) (k k' : string) (v : V) :
  k <> k' -> get (set d k v) k' = get d k'.
Proof.
  intros Hne. induction d as [|[k0 v0] d IH]; cbn.
  - destruct (k =? k')%string eqn:E; [apply String.eqb_eq in E; contradiction | reflexivity].
  - destruct (k0 =? k)%string eqn:E; cbn.
    + apply String.eqb_eq in E. subst k0.
      destruct (k =? k')%string eqn:E'; [apply String.eqb_eq in E'; contradiction | reflexivity].
    + destruct (k0 =? k')%string; [reflexivity | exact IH].
Qed.

Lemma keys_set {V : Type} (d : t V) (k : string) (v : V) :
  keys (set d k v) = add_key (keys d) k.
Proof.
  unfold add_key, keys. induction d as [|[k' v'] d IH]; cbn; [reflexivity|].
  rewrite (String.eqb_sym k k').
  destruct (k' =? k)%string eqn:E; cbn; [reflexivity|].
  rewrite IH. destruct (existsb (String.eqb k) (map fst d)); reflexivity.
Qed.

Lemma add_key_In (ks : list string) (k x : string) :
  In x (add_key ks k) <-> x = k \/ In x ks.
Proof.
  unfold add_key. destruct (existsb (String.eqb k) ks) eqn:E.
  - apply existsb_exists in E as (y & Hy & Heq). apply String.eqb_eq in Heq. subst y.
    split; [auto | intros [-> | H]; assumption].
  - rewrite in_app_iff. cbn. intuition (subst; auto).
Qed.

Lemma add_key_NoDup (ks : list string) (k : string) :
  NoDup ks -> NoDup (add_key ks k).
Proof.
  intros Hnd. unfold add_key. destruct (existsb (String.eqb k) ks) eqn:E; [exact Hnd|].
  apply NoDup_app; [exact Hnd | repeat constructor; auto |].
  intros x Hx [Hk | []]. subst x.
  assert (existsb (String.eqb k) ks = true)
    by (apply existsb_exists; exists k; split; [exact Hx | apply String.eqb_refl]).
  congruence.
Qed.

Lemma add_key_head (ks : list string) (k d : string) :
  ks <> [] -> hd d (add_key ks k) = hd d ks.
Proof.
  intros Hne. unfold add_key. destruct (existsb (String.eqb k) ks); [reflexivity|].
  destruct ks; [contradiction | reflexivity].
Qed.

(** The keys of [dict.fromkeys(l)], accumulated from the keys [ks]. *)
Lemma keys_fold_set (l : list string) (d : t unit) :
  keys (fold_left (fun d k => set d k tt) l d) = fold_left add_key l (keys d).
Proof.
  revert d. induction l as [|x l IH]; intros d; [reflexivity|].
  cbn [fold_left]. rewrite IH, keys_set. reflexivity.
Qed.

Lemma fold_add_key (l ks : list string) :
  NoDup ks ->
  NoDup (fold_left add_key l ks) /\
  (forall x, In x (fold_left add_key l ks) <-> In x ks \/ In x l) /\
  (forall d, ks <> [] -> hd d (fold_left add_key l ks) = hd d ks).
Proof.
  revert ks. induction l as [|y l IH]; intros ks Hnd; cbn [fold_left].
  - split; [exact Hnd|]. split; [intros x; cbn; tauto | reflexivity].
  - destruct (IH (add_key ks y) (add_key_NoDup ks y Hnd)) as (H1 & H2 & H3).
    split; [exact H1|]. split.
    + intros x. rewrite H2, add_key_In. cbn. intuition (subst; auto).
    + intros d Hne. rewrite H3.
      * now apply add_key_head.
      * intros E. assert (In y (add_key ks y)) by (apply add_key_In; now left).
        rewrite E in H. contradiction.
Qed.

(** [list(dict.fromkeys(l))]: the elements of [l], each once, the first one
    first. *)
Lemma fromkeys_keys (l : list string) :
  NoDup (keys (fromkeys l)) /\
  (forall x, In x (keys (fromkeys l)) <-> In x l) /\
  (forall d, hd d (keys (fromkeys l)) = hd d l).
Proof.
  unfold fromkeys. rewrite keys_fold_set. change (keys []) with (@nil string).
  destruct l as [|y l].
  - cbn. split; [constructor|]. split; [tauto | reflexivity].
  - cbn [fold_left]. change (add_key [] y) with [y].
    destruct (fold_add_key l [y]) as (H1 & H2 & H3);
      [repeat constructor; auto|].
    split; [exact H1|]. split.
    + intros x. rewrite H2. cbn. intuition (subst; auto).
    + intros d. rewrite H3 by discriminate. reflexivity.
Qed.

End PyDictFacts.

Section CatalogFacts.
Import PyDictFacts.

Lemma Persona_of_raw_well_formed (p : RawPersona.t) :
  well_formed p = true <-> exists persona, Persona_of_raw p = Some persona.
Proof.
  unfold well_formed, Persona_of_raw.
  destruct (RawPersona.other_keys p), (RawPersona.id p), (RawPersona.name p),
    (RawPersona.archetype p); split; intros H;
    try discriminate; try reflexivity; try (eexists; reflexivity);
    destruct H as (x & Hx); discriminate.
Qed.

Lemma find_after {A : Type} (f : A -> bool) (l l' : list A) :
  find f (l ++ l')%list =
    match find f l with Some x => Some x | None => find f l' end.
Proof.
  induction l as [|x l IH]; cbn; [reflexivity|].
  destruct (f x); [reflexivity | exact IH].
Qed.

(** The loop of [load_personas] from the dictionary [out]. *)
Lemma load_records_inv (raw : list RawPersona.t) :
  forall (out d : PyDict.t Persona.t),
    load_records raw out = Some d ->
    exists personas,
      map Persona_of_raw raw = map Some personas /\
      PyDict.keys d = fold_left add_key (map Persona.id personas) (PyDict.keys out) /\
      forall k,
        PyDict.get d k =
          match find (fun p => (Persona.id p =? k)%string) (rev personas) with
          | Some p => Some p
          | None => PyDict.get out k
          end.
Proof.
  induction raw as [|p raw IH]; intros out d Hrun.
  - cbn in Hrun. injection Hrun as <-. exists []. repeat split.
  - cbn [load_records] in Hrun.
    destruct (Persona_of_raw p) as [persona|] eqn:Hp; [|discriminate].
    apply IH in Hrun as (personas & Hmap & Hkeys & Hget).
    exists (persona :: personas). split; [cbn; now rewrite Hp, Hmap|].
    split; [cbn [map fold_left]; now rewrite Hkeys, keys_set|].
    intros k. rewrite Hget. cbn [rev].
    rewrite find_after.
    destruct (find _ (rev personas)); [reflexivity|].
    cbn [find]. destruct (Persona.id persona =? k)%string eqn:E.
    + apply String.eqb_eq in E. subst k. apply get_set_same.
    + apply get_set_other. intros Hk. subst k. now rewrite String.eqb_refl in E.
Qed.

(** X14 -- [load_personas] returns a catalog exactly when the file can be read and
    every record has its [id], [name] and [archetype] and no key that names
    no field; one record that is not well formed makes the whole call
    raise. *)
Theorem load_personas_returns
    (read_yaml : string -> option (list RawPersona.t)) (path : string) :
  (exists d, load_personas read_yaml path = Some d) <->
  (exists raw, read_yaml path = Some raw /\ forallb well_formed raw = true).
Proof.
  unfold load_personas. destruct (read_yaml path) as [raw|].
  - assert (H : forall out,
               (exists d, load_records raw out = Some d) <-> forallb well_formed raw = true).
    { induction raw as [|p raw IH]; intros out; cbn [load_records forallb].
      - split; [reflexivity | intros _; now exists out].
      - destruct (Persona_of_raw p) as [persona|] eqn:Hp.
        + assert (Hw : well_formed p = true)
            by (apply Persona_of_raw_well_formed; now exists persona).
          rewrite Hw. cbn. apply IH.
        + assert (Hw : well_formed p = false).
          { destruct (well_formed p) eqn:E; [|reflexivity].
            apply Persona_of_raw_well_formed in E as (x & Hx). congruence. }
          rewrite Hw. cbn. split; [intros (d & Hd); discriminate | discriminate]. }
    rewrite H. split.
    + intros Hw. now exists raw.
    + intros (raw' & [= <-] & Hw). exact Hw.
  - split; [intros (d & Hd); discriminate | intros (raw & Hr & _); discriminate].
Qed.

(** X15 -- the catalog holds every id once, in the order of first appearance, and
    under every key a persona whose id is that key. *)
Theorem load_personas_keys_are_ids
    (read_yaml : string -> option (list RawPersona.t)) (path : string)
    (d : PyDict.t Persona.t) :
  load_personas read_yaml path = Some d ->
  NoDup (PyDict.keys d) /\
  (forall k persona, PyDict.get d k = Some persona -> Persona.id persona = k) /\
  exists personas raw,
    read_yaml path = Some raw /\
    map Persona_of_raw raw = map Some personas /\
    PyDict.keys d = PyDict.keys (PyDict.fromkeys (map Persona.id personas)).
Proof.
  unfold load_personas. destruct (read_yaml path) as [raw|]; [|discriminate].
  intros Hrun. apply load_records_inv in Hrun as (personas & Hmap & Hkeys & Hget).
  change (PyDict.keys []) with (@nil string) in Hkeys.
  assert (Hfrom : PyDict.keys d = PyDict.keys (PyDict.fromkeys (map Persona.id personas))).
  { rewrite Hkeys. unfold PyDict.fromkeys. now rewrite keys_fold_set. }
  split; [rewrite Hfrom; apply fromkeys_keys|]. split.
  - intros k persona Hk. rewrite Hget in Hk.
    destruct (find _ (rev personas)) as [p|] eqn:Hf; [|discriminate].
    injection Hk as <-. apply find_some in Hf as [_ Hf]. now apply String.eqb_eq.
  - exists personas, raw. split; [reflexivity|]. split; assumption.
Qed.

(** X16 -- when two records carry the same id the later one wins: the catalog
    answers a key with the last record of that id in the file. *)
Theorem load_personas_last_wins
    (read_yaml : string -> option (list RawPersona.t)) (path : string)
    (d : PyDict.t Persona.t) (raw : list RawPersona.t) :
  read_yaml path = Some raw ->
  load_personas read_yaml path = Some d ->
  exists personas,
    map Persona_of_raw raw = map Some personas /\
    forall k,
      PyDict.get d k = find (fun p => (Persona.id p =? k)%string) (rev personas).
Proof.
  unfold load_personas. intros ->. intros Hrun.
  apply load_records_inv in Hrun as (personas & Hmap & _ & Hget).
  exists personas. split; [exact Hmap|].
  intros k. rewrite Hget. destruct (find _ (rev personas)); reflexivity.
Qed.

End CatalogFacts.

(** ** Properties of the exports *)

Section TextFacts.
Import PyStr PyText.

Lemma append_assoc_s (a b c : string) : (a ++ b) ++ c = a ++ b ++ c.
Proof.
  induction a as [|x a IH]; [reflexivity|]. cbn. now rewrite IH.
Qed.

Lemma append_nil_r (a : string) : a ++ "" = a.
Proof.
  induction a as [|x a IH]; [reflexivity|]. cbn. now rewrite IH.
Qed.

Lemma length_append (a b : string) :
  String.length (a ++ b) = (String.length a + String.length b)%nat.
Proof.
  induction a as [|x a IH]; [reflexivity|]. cbn. now rewrite IH.
Qed.

Lemma append_inv_tail (a1 a2 r : string) : a1 ++ r = a2 ++ r -> a1 = a2.
Proof.
  revert a2. induction a1 as [|x a1 IH]; intros [|y a2] H.
  - reflexivity.
  - apply (f_equal String.length) in H. cbn in H. rewrite length_append in H. lia.
  - apply (f_equal String.length) in H. cbn in H. rewrite length_append in H. lia.
  - cbn in H. injection H as -> H. f_equal. now apply IH.
Qed.

Lemma str_in_char_cons (c a : ascii) (s : string) :
  str_in (String c "") (String a s) = Ascii.eqb c a || str_in (String c "") s.
Proof.
  cbn [str_in startswith]. destruct s; now rewrite andb_true_r.
Qed.

(** Two texts cut at the first occurrence of a character are equal only
    when both halves are. *)
Lemma append_char_inj (c : ascii) (a1 a2 r1 r2 : string) :
  str_in (String c "") a1 = false -> str_in (String c "") a2 = false ->
  a1 ++ String c r1 = a2 ++ String c r2 -> a1 = a2 /\ r1 = r2.
Proof.
  revert a2. induction a1 as [|x a1 IH]; intros [|y a2] H1 H2 H.
  - cbn in H. injection H as ->. now split.
  - cbn [append] in H. injection H as <- _.
    rewrite str_in_char_cons, Ascii.eqb_refl in H2. discriminate.
  - cbn [append] in H. injection H as -> _.
    rewrite str_in_char_cons, Ascii.eqb_refl in H1. discriminate.
  - cbn [append] in H. injection H as -> H.
    rewrite str_in_char_cons in H1, H2.
    apply orb_false_iff in H1 as [_ H1]. apply orb_false_iff in H2 as [_ H2].
    destruct (IH a2 H1 H2 H) as [-> ->]. now split.
Qed.

Lemma uint_no_underscore (d : Decimal.uint) :
  str_in "_" (NilEmpty.string_of_uint d) = false.
Proof.
  induction d; cbn [NilEmpty.string_of_uint]; [reflexivity| ..];
    rewrite str_in_char_cons, IHd; reflexivity.
Qed.

(** The decimal text of an integer has no underscore. *)
Lemma of_int_no_underscore (n : Z) : str_in "_" (of_int n) = false.
Proof.
  unfold of_int, NilZero.string_of_int.
  assert (H : forall d, str_in "_" (NilZero.string_of_uint d) = false).
  { intros d. destruct d; try apply uint_no_underscore. reflexivity. }
  destruct (Z.to_int n); [apply H|].
  rewrite str_in_char_cons, H. reflexivity.
Qed.

Lemma str_in_append_false (k a b : string) :
  str_in k (a ++ b) = false -> str_in k b = false.
Proof.
  intros H. destruct (str_in k b) eqn:E; [|reflexivity].
  now rewrite (str_in_after k a b E) in H.
Qed.

Lemma str_in_char_append (c : ascii) (a b : string) :
  str_in (String c "") (a ++ b) = str_in (String c "") a || str_in (String c "") b.
Proof.
  induction a as [|x a IH]; [reflexivity|].
  cbn [append]. rewrite !str_in_char_cons, IH. now rewrite orb_assoc.
Qed.

(** The scan continues the piece it is reading. *)
Lemma split_from_cur (sep s cur : string) :
  split_from sep s 0 cur =
    (cur ++ hd "" (split sep s)) :: tl (split sep s).
Proof.
  unfold split. revert cur. induction s as [|a s IH]; intros cur.
  - cbn. now rewrite append_nil_r.
  - cbn [split_from]. destruct (startswith (String a s) sep).
    + cbn. now rewrite append_nil_r.
    + rewrite (IH (cur ++ String a "")), (IH ("" ++ String a "")).
      cbn [hd tl]. now rewrite append_assoc_s.
Qed.

(** A text in which the separator does not occur is one piece. *)
Lemma split_no_sep (sep s : string) :
  str_in sep s = false -> split sep s = [s].
Proof.
  unfold split. intros H.
  enough (G : forall cur, split_from sep s 0 cur = [cur ++ s]) by apply G.
  induction s as [|a s IH]; intros cur.
  - cbn. now rewrite append_nil_r.
  - cbn [str_in] in H. apply orb_false_iff in H as [H1 H2].
    cbn [split_from]. rewrite H1, (IH H2), append_assoc_s. reflexivity.
Qed.

(** Splitting at a character: the text before its first occurrence is the
    first piece. *)
Lemma split_char_first (c : ascii) (x rest : string) :
  str_in (String c "") x = false ->
  split (String c "") (x ++ String c rest) = x :: split (String c "") rest.
Proof.
  unfold split. intros H.
  enough (G : forall cur, split_from (String c "") (x ++ String c rest) 0 cur
                          = (cur ++ x) :: split_from (String c "") rest 0 "") by apply G.
  induction x as [|a x IH]; intros cur.
  - cbn [append split_from startswith]. rewrite Ascii.eqb_refl.
    replace (startswith rest "") with true by (destruct rest; reflexivity).
    cbn. now rewrite append_nil_r.
  - rewrite str_in_char_cons in H. apply orb_false_iff in H as [Hc Hx].
    cbn [append split_from startswith]. rewrite Hc. cbn [andb].
    rewrite (IH Hx), append_assoc_s. reflexivity.
Qed.

Lemma strip_space_before (s : string) : strip (" " ++ s) = strip s.
Proof. reflexivity. Qed.

Lemma stripped_nonblank_cons (x : string) (l : list string) :
  stripped_nonblank (x :: l) =
    if truthy (strip x) then strip x :: stripped_nonblank l else stripped_nonblank l.
Proof.
  unfold stripped_nonblank. cbn [filter]. destruct (truthy (strip x)); reflexivity.
Qed.

Lemma stripped_nonblank_In (t : string) (l : list string) :
  In t (stripped_nonblank l) <-> exists x, In x l /\ t = strip x /\ t <> "".
Proof.
  unfold stripped_nonblank. rewrite in_map_iff. split.
  - intros (x & <- & Hx). apply filter_In in Hx as [Hx Ht]. exists x.
    split; [exact Hx|]. split; [reflexivity|]. now destruct (strip x).
  - intros (x & Hx & -> & Hne). exists x. split; [reflexivity|].
    apply filter_In. split; [exact Hx|]. now destruct (strip x).
Qed.

End TextFacts.

Section MarkdownFacts.
Variable rd : Renderer.
Import PyStr.

Lemma markdown_step_block (persona_name body : string) (m : Message.t) :
  markdown_step rd persona_name body m = body ++ message_block rd persona_name m.
Proof.
  unfold message_block, markdown_step.
  cbv zeta. change ("" ++ "**") with "**".
  destruct (meta_truthy (Message.meta m)); rewrite ?append_assoc_s; reflexivity.
Qed.

Lemma markdown_fold (persona_name : string) (ms : list Message.t) (body : string) :
  fold_left (markdown_step rd persona_name) ms body =
    body ++ String.concat "" (map (message_block rd persona_name) ms).
Proof.
  revert body. induction ms as [|m ms IH]; intros body.
  - cbn. now rewrite append_nil_r.
  - cbn [fold_left map]. rewrite IH, markdown_step_block, append_assoc_s.
    f_equal. destruct ms as [|m' ms]; [cbn; now rewrite append_nil_r | reflexivity].
Qed.

(** X17 -- the Markdown export is the header line, the two lines of the creation
    time and the seed, the rule, and then one block for each message, in
    the order of the messages; exporting a record with more messages at its
    end adds their blocks at the end of the text and changes nothing
    before. *)
Theorem to_markdown_blocks
    (feature_id feature_title feature_spec : string) (persona : Persona.t)
    (seed : Z) (messages more : list Message.t) (created_at : string) :
  let conv ms := Conversation.make feature_id feature_title feature_spec
                   persona seed ms created_at in
  to_markdown rd (conv messages) =
    markdown_header rd (conv messages)
      ++ ("- Created: " ++ created_at ++ nl ++ "- Seed: " ++ of_int seed ++ nl
            ++ nl ++ "---" ++ nl)
      ++ String.concat "" (map (message_block rd (Persona.name persona)) messages) /\
  to_markdown rd (conv (messages ++ more)%list) =
    to_markdown rd (conv messages)
      ++ String.concat "" (map (message_block rd (Persona.name persona)) more).
Proof.
  intros conv. unfold to_markdown, conv.
  cbn [Conversation.messages Conversation.persona Conversation.created_at
       Conversation.seed].
  split.
  - rewrite markdown_fold. reflexivity.
  - rewrite fold_left_app, !markdown_fold.
    change (markdown_header rd (Conversation.make _ _ _ _ _ (messages ++ more)%list _))
      with (markdown_header rd (Conversation.make feature_id feature_title feature_spec
              persona seed messages created_at)).
    rewrite !append_assoc_s. reflexivity.
Qed.

End MarkdownFacts.

Section FileFacts.
Context {R : RandomSource}.
Import PyStr.

(** The fields [simulate] fills before the first message. *)
Lemma simulate_record
    (tt : option TinyTroupe) (env : Environ) (clock : Clock)
    (persona : Persona.t) (feature_title feature_spec : string)
    (system_preamble : option string) (turns seed : Z) (conv : Conversation.t) :
  simulate tt env clock persona feature_title feature_spec system_preamble
    turns seed = Some conv ->
  Conversation.feature_id conv
    = of_int (unix_time clock) ++ "-" ++ of_int (suffix_of seed) /\
  1000 <= suffix_of seed <= 9999 /\
  Conversation.persona conv = persona /\
  Conversation.seed conv = seed.
Proof.
  intros Hrun. rewrite simulate_unfold in Hrun.
  destruct (match agent_backend tt env with Some _ => _ | None => _ end)
    as [[ms s1]|]; [|discriminate].
  injection Hrun as <-.
  cbn [Conversation.feature_id Conversation.persona Conversation.seed].
  split; [reflexivity|]. split; [|now split].
  unfold suffix_of.
  pose proof (rng_below_lt 9000 (rng_seed seed) ltac:(lia)) as Hlt. lia.
Qed.

Lemma feature_id_no_underscore (t n : Z) :
  str_in "_" (of_int t ++ "-" ++ of_int n) = false.
Proof.
  rewrite str_in_char_append, of_int_no_underscore.
  change ("-" ++ of_int n) with (String "-" (of_int n)).
  rewrite str_in_char_cons, of_int_no_underscore. reflexivity.
Qed.

(** X18 -- the files of two simulated runs have the same name exactly when the
    runs have the same feature_id and their personas the same id: the
    feature_id holds no underscore, so the first underscore of the name
    ends it, whatever the persona's id is made of. *)
Theorem run_file_name_identifies
    (tt1 tt2 : option TinyTroupe) (env1 env2 : Environ) (clock1 clock2 : Clock)
    (persona1 persona2 : Persona.t) (title1 title2 spec1 spec2 : string)
    (pre1 pre2 : option string) (turns1 turns2 seed1 seed2 : Z)
    (conv1 conv2 : Conversation.t) (ext : string) :
  simulate tt1 env1 clock1 persona1 title1 spec1 pre1 turns1 seed1 = Some conv1 ->
  simulate tt2 env2 clock2 persona2 title2 spec2 pre2 turns2 seed2 = Some conv2 ->
  (run_file_name conv1 ext = run_file_name conv2 ext <->
   Conversation.feature_id conv1 = Conversation.feature_id conv2 /\
   Persona.id persona1 = Persona.id persona2).
Proof.
  intros H1 H2.
  apply simulate_record in H1 as (Hf1 & _ & Hp1 & _).
  apply simulate_record in H2 as (Hf2 & _ & Hp2 & _).
  unfold run_file_name. rewrite Hp1, Hp2. split.
  - intros Hname.
    change ("_" ++ ?x) with (String "_" x) in Hname.
    apply append_char_inj in Hname as [Hfid Hrest];
      [| rewrite Hf1; apply feature_id_no_underscore
       | rewrite Hf2; apply feature_id_no_underscore].
    split; [exact Hfid|]. now apply append_inv_tail in Hrest.
  - intros [-> ->]. reflexivity.
Qed.

(** X19 -- two runs in the same second with the same seed for personas of the same
    id are saved to the same path, whatever their titles, specs and turn
    counts: the later export replaces the earlier one. *)
Theorem save_run_same_second_same_path
    (fsys : FileSystem)
    (tt1 tt2 : option TinyTroupe) (env1 env2 : Environ) (clock1 clock2 : Clock)
    (persona1 persona2 : Persona.t) (title1 title2 spec1 spec2 : string)
    (pre1 pre2 : option string) (turns1 turns2 seed : Z)
    (conv1 conv2 : Conversation.t)
    (base_dir ext text1 text2 path1 path2 : string) (st1 st1' st2 st2' : files fsys) :
  simulate tt1 env1 clock1 persona1 title1 spec1 pre1 turns1 seed = Some conv1 ->
  simulate tt2 env2 clock2 persona2 title2 spec2 pre2 turns2 seed = Some conv2 ->
  unix_time clock1 = unix_time clock2 ->
  Persona.id persona1 = Persona.id persona2 ->
  save_run fsys conv1 base_dir ext text1 st1 = Some (path1, st1') ->
  save_run fsys conv2 base_dir ext text2 st2 = Some (path2, st2') ->
  path1 = path2.
Proof.
  intros H1 H2 Ht Hid Hs1 Hs2.
  apply simulate_record in H1 as (Hf1 & _ & Hp1 & _).
  apply simulate_record in H2 as (Hf2 & _ & Hp2 & _).
  unfold save_run in Hs1, Hs2.
  destruct (mkdir_parents fsys _ st1) as [a1|]; [|discriminate].
  destruct (mkdir_parents fsys _ st2) as [a2|]; [|discriminate].
  destruct (write_text fsys _ text1 a1) as [b1|]; [|discriminate].
  destruct (write_text fsys _ text2 a2) as [b2|]; [|discriminate].
  injection Hs1 as <- _. injection Hs2 as <- _.
  unfold run_file_name. now rewrite Hf1, Hf2, Hp1, Hp2, Ht, Hid.
Qed.

End FileFacts.

Section FormFacts.
Import PyStr PyText PyDictFacts.



(** X21 -- the batch field is cut at the two characters backslash and n, not at
    its line ends: a text without that pair is one title, line feeds
    included. *)
Theorem variant_titles_not_split_at_line_ends
    (feature_title batch : string) (t : string) :
  str_in "\n" batch = false ->
  (In t (variant_titles feature_title (Some batch)) <->
   (t = strip feature_title \/ t = strip batch) /\ t <> "").
Proof.
  intros Hno. unfold variant_titles. cbn [or_default].
  rewrite (split_no_sep _ _ Hno).
  set (l := if truthy (strip feature_title) then _ else _).
  destruct (fromkeys_keys l) as (_ & Hin & _). rewrite Hin. subst l.
  assert (Hb : In t (stripped_nonblank [batch]) <-> t = strip batch /\ t <> "").
  { rewrite stripped_nonblank_In. split.
    - intros (x & [<- | []] & Hx). exact Hx.
    - intros Hx. exists batch. split; [now left | exact Hx]. }
  destruct (truthy (strip feature_title)) eqn:E.
  - rewrite in_app_iff, Hb. cbn [In]. split.
    + intros [[<- | []] | [-> Hne]].
      * split; [now left | now destruct (strip feature_title)].
      * split; [now right | exact Hne].
    + intros [[-> | ->] Hne]; [left; now left | right; now split].
  - rewrite Hb. destruct (strip feature_title) eqn:Et; [|discriminate]. split.
    + intros [-> Hne]. split; [now right | exact Hne].
    + intros [[-> | ->] Hne]; [contradiction | now split].
Qed.

Lemma comma_list_space (s : string) : comma_list (" " ++ s) = comma_list s.
Proof.
  unfold comma_list, split.
  change (" " ++ s) with (String " " s). cbn [split_from startswith].
  change (Ascii.eqb "," " ") with false. cbn [andb].
  rewrite split_from_cur. fold (split "," s).
  destruct (split "," s) as [|p ps] eqn:E.
  - unfold split in E. destruct s; cbn in E; [discriminate|].
    destruct (_ && _) in E; discriminate || (rewrite split_from_cur in E; discriminate).
  - cbn [hd tl]. rewrite !stripped_nonblank_cons.
    change (("" ++ " ") ++ p) with (" " ++ p). now rewrite strip_space_before.
Qed.

(** X22 -- typing items with a comma and a space between them gives back the
    items: the field is the inverse of [", ".join] on items that are not
    blank and have no comma and no space at either end. *)
Theorem comma_list_join (items : list string) :
  forallb list_item items = true ->
  comma_list (join ", " items) = items.
Proof.
  induction items as [|x items IH]; [reflexivity|].
  cbn [forallb]. intros H. apply andb_true_iff in H as [Hx Hrest].
  unfold list_item in Hx. apply andb_true_iff in Hx as [Hx Hc].
  apply andb_true_iff in Hx as [Hne Hs]. apply String.eqb_eq in Hs.
  apply negb_true_iff in Hc. specialize (IH Hrest).
  destruct items as [|y items].
  - cbn [join]. unfold comma_list. rewrite (split_no_sep _ _ Hc).
    rewrite stripped_nonblank_cons, Hs, Hne. reflexivity.
  - change (join ", " (x :: y :: items)) with (x ++ ", " ++ join ", " (y :: items)).
    change (", " ++ ?r) with (String "," (" " ++ r)).
    unfold comma_list. rewrite (split_char_first _ _ _ Hc).
    rewrite stripped_nonblank_cons, Hs, Hne. f_equal.
    fold (comma_list (" " ++ join ", " (y :: items))).
    rewrite comma_list_space. exact IH.
Qed.

End FormFacts.

(** ** The properties on sample runs *)

(** A reply of the security engineer to a greeting, the generator in its
    state 5. *)
Lemma heuristic_reply_confidence_two_places_witness :
  exists reply meta s',
    _heuristic_persona_reply (R := lcg) Sample.ann "Hello" Sample.paywall_spec 5%N
      = Some ((reply, meta), s') /\
    exists n, 25 <= n <= 75 /\ Reasoning.confidence meta = PyFloat.literal n 2.
Proof.
  destruct (_heuristic_persona_reply (R := lcg) Sample.ann "Hello"
              Sample.paywall_spec 5%N) as [[[reply meta] s']|] eqn:Hrun;
    [|vm_compute in Hrun; discriminate].
  exists reply, meta, s'. split; [reflexivity|].
  exact (heuristic_reply_confidence_two_places (R := lcg) Sample.ann "Hello"
           Sample.paywall_spec 5%N s' reply meta Hrun).
Defined.

(** Three turns on the heuristic path. *)
Lemma simulate_heuristic_shape_witness :
  agent_backend None Sample.no_env = None /\
  exists conv,
    simulate (R := lcg) None Sample.no_env Sample.clock1 Sample.ann
      "Smart Collections" Sample.paywall_spec None 3 42 = Some conv /\
    exists first added,
      Conversation.messages conv =
        user_message (user_open_of "Smart Collections" Sample.paywall_spec)
          :: first :: added /\
      reasoned_reply Sample.ann Sample.paywall_spec first /\
      heuristic_added Sample.ann Sample.paywall_spec
        (_extract_followups Sample.ann Sample.paywall_spec) (Z.to_nat (3 - 1)) added.
Proof.
  split; [reflexivity|].
  destruct (simulate (R := lcg) None Sample.no_env Sample.clock1 Sample.ann
              "Smart Collections" Sample.paywall_spec None 3 42)
    as [conv|] eqn:Hrun; [|vm_compute in Hrun; discriminate].
  exists conv. split; [reflexivity|].
  exact (simulate_heuristic_shape (R := lcg) None Sample.no_env Sample.clock1
           Sample.ann "Smart Collections" Sample.paywall_spec None 3 42 conv
           eq_refl Hrun).
Defined.

(** Three turns with the echoing agent. *)
Lemma simulate_agent_shape_witness :
  agent_backend (Some Sample.echo) Sample.keyed_env = Some Sample.echo /\
  exists conv,
    simulate (R := lcg) (Some Sample.echo) Sample.keyed_env Sample.clock1
      Sample.bo "Export" "CSV export from the dashboard" None 3 7 = Some conv /\
    exists added,
      Conversation.messages conv =
        user_message (user_open_of "Export" "CSV export from the dashboard")
          :: added /\
      agent_added (_extract_followups Sample.bo "CSV export from the dashboard")
        (Z.to_nat 3) 0 added.
Proof.
  split; [reflexivity|].
  destruct (simulate (R := lcg) (Some Sample.echo) Sample.keyed_env Sample.clock1
              Sample.bo "Export" "CSV export from the dashboard" None 3 7)
    as [conv|] eqn:Hrun; [|vm_compute in Hrun; discriminate].
  exists conv. split; [reflexivity|].
  exact (simulate_agent_shape (R := lcg) (Some Sample.echo) Sample.keyed_env
           Sample.clock1 Sample.bo "Export" "CSV export from the dashboard"
           None 3 7 Sample.echo conv eq_refl Hrun).
Defined.

(** Two turns with the echoing agent. *)
Lemma simulate_meta_on_persona_only_witness :
  exists conv,
    simulate (R := lcg) (Some Sample.echo) Sample.keyed_env Sample.clock1
      Sample.bo "Export" "CSV export from the dashboard" None 2 7 = Some conv /\
    forallb (fun m => Bool.eqb (meta_truthy (Message.meta m))
                        (Role.eqb (Message.role m) Role.persona))
      (Conversation.messages conv) = true.
Proof.
  destruct (simulate (R := lcg) (Some Sample.echo) Sample.keyed_env Sample.clock1
              Sample.bo "Export" "CSV export from the dashboard" None 2 7)
    as [conv|] eqn:Hrun; [|vm_compute in Hrun; discriminate].
  exists conv. split; [reflexivity|].
  exact (simulate_meta_on_persona_only (R := lcg) (Some Sample.echo)
           Sample.keyed_env Sample.clock1 Sample.bo "Export"
           "CSV export from the dashboard" None 2 7 conv Hrun).
Defined.

(** Three turns with the agent: seven messages, the last one a follow-up. *)
Lemma simulate_length_and_last_witness :
  exists conv,
    simulate (R := lcg) (Some Sample.echo) Sample.keyed_env Sample.clock1
      Sample.bo "Export" "CSV export from the dashboard" None 3 7 = Some conv /\
    Z.of_nat (List.length (Conversation.messages conv)) = 7 /\
    List.last (map Message.role (Conversation.messages conv)) Role.persona
      = Role.user.
Proof.
  destruct (simulate (R := lcg) (Some Sample.echo) Sample.keyed_env Sample.clock1
              Sample.bo "Export" "CSV export from the dashboard" None 3 7)
    as [conv|] eqn:Hrun; [|vm_compute in Hrun; discriminate].
  exists conv. split; [reflexivity|].
  exact (simulate_length_and_last (R := lcg) (Some Sample.echo)
           Sample.keyed_env Sample.clock1 Sample.bo "Export"
           "CSV export from the dashboard" None 3 7 conv Hrun).
Defined.


(** An agent that raises on every prompt. *)
Lemma simulate_agent_error_escapes_witness :
  agent_backend (Some MoreSamples.mute) Sample.keyed_env = Some MoreSamples.mute /\
  1 <= 2 /\
  (forall tiny_person,
     listen_and_act MoreSamples.mute tiny_person
       (user_open_of "Export" "CSV export from the dashboard") = None) /\
  simulate (R := lcg) (Some MoreSamples.mute) Sample.keyed_env Sample.clock1
    Sample.bo "Export" "CSV export from the dashboard" None 2 7 = None.
Proof.
  split; [reflexivity|]. split; [lia|]. split; [reflexivity|].
  apply (simulate_agent_error_escapes (R := lcg) (Some MoreSamples.mute)
           Sample.keyed_env Sample.clock1 Sample.bo "Export"
           "CSV export from the dashboard" None 2 7 MoreSamples.mute);
    [reflexivity | lia | reflexivity].
Defined.

(** Two runs in the same second with the seed 42, for two personas and two
    titles. *)
Lemma simulate_feature_id_witness :
  exists conv1 conv2,
    simulate (R := lcg) None Sample.no_env Sample.clock1 Sample.ann
      "Smart Collections" Sample.paywall_spec None 4 42 = Some conv1 /\
    simulate (R := lcg) None Sample.no_env Sample.clock1 Sample.bo
      "Export" "CSV export from the dashboard" None 2 42 = Some conv2 /\
    unix_time Sample.clock1 = unix_time Sample.clock1 /\
    Conversation.feature_id conv1 = Conversation.feature_id conv2.
Proof.
  destruct (simulate (R := lcg) None Sample.no_env Sample.clock1 Sample.ann
              "Smart Collections" Sample.paywall_spec None 4 42)
    as [conv1|] eqn:Hrun1; [|vm_compute in Hrun1; discriminate].
  destruct (simulate (R := lcg) None Sample.no_env Sample.clock1 Sample.bo
              "Export" "CSV export from the dashboard" None 2 42)
    as [conv2|] eqn:Hrun2; [|vm_compute in Hrun2; discriminate].
  exists conv1, conv2. split; [reflexivity|]. split; [reflexivity|].
  split; [reflexivity|].
  destruct (simulate_feature_id (R := lcg) None None Sample.no_env Sample.no_env
              Sample.clock1 Sample.clock1 Sample.ann Sample.bo
              "Smart Collections" "Export" Sample.paywall_spec
              "CSV export from the dashboard" None None 4 2 42 conv1 conv2
              Hrun1 Hrun2) as [_ Hsame].
  apply Hsame. reflexivity.
Defined.

(** A title and a spec typed with spaces around them. *)
Lemma simulate_stored_text_stripped_witness :
  exists conv,
    simulate (R := lcg) None Sample.no_env Sample.clock1 Sample.bo
      "  Export  " "  CSV export  " None 2 7 = Some conv /\
    Conversation.feature_title conv <> "" /\
    PyStr.strip (Conversation.feature_title conv) = Conversation.feature_title conv /\
    PyStr.strip (Conversation.feature_spec conv) = Conversation.feature_spec conv.
Proof.
  destruct (simulate (R := lcg) None Sample.no_env Sample.clock1 Sample.bo
              "  Export  " "  CSV export  " None 2 7)
    as [conv|] eqn:Hrun; [|vm_compute in Hrun; discriminate].
  exists conv. split; [reflexivity|].
  exact (simulate_stored_text_stripped (R := lcg) None Sample.no_env Sample.clock1
           Sample.bo "  Export  " "  CSV export  " None 2 7 conv Hrun).
Defined.

(** The keyword of the third rule in capitals, in the middle of the spec. *)
Lemma extract_followups_keyword_anywhere_witness :
  In (["paywall"; "pricing"; "trial"], q_trial) followup_rules /\
  In "pricing" (fst (["paywall"; "pricing"; "trial"], q_trial)) /\
  PyStr.lower "PRICING" = "pricing" /\
  In q_trial (_extract_followups Sample.bo ("New " ++ "PRICING" ++ " page")).
Proof.
  assert (H1 : In (["paywall"; "pricing"; "trial"], q_trial) followup_rules)
    by (right; right; left; reflexivity).
  assert (H2 : In "pricing" (fst (["paywall"; "pricing"; "trial"], q_trial)))
    by (right; left; reflexivity).
  split; [exact H1|]. split; [exact H2|]. split; [reflexivity|].
  exact (extract_followups_keyword_anywhere Sample.bo
           (["paywall"; "pricing"; "trial"], q_trial) "pricing"
           "New " "PRICING" " page" H1 H2 eq_refl).
Defined.

(** A catalog of three records, the third under the id of the first. *)
Lemma load_personas_keys_are_ids_witness :
  exists d,
    load_personas MoreSamples.catalog_file "personas.yaml" = Some d /\
    PyDict.keys d = ["p1"; "p2"] /\
    NoDup (PyDict.keys d) /\
    (forall k persona, PyDict.get d k = Some persona -> Persona.id persona = k).
Proof.
  eexists. split; [reflexivity|]. split; [reflexivity|].
  destruct (load_personas_keys_are_ids MoreSamples.catalog_file "personas.yaml"
              _ eq_refl) as (Hnd & Hid & _).
  split; [exact Hnd | exact Hid].
Defined.

(** The same catalog: the key of the first record answers with the third. *)
Lemma load_personas_last_wins_witness :
  exists d,
    MoreSamples.catalog_file "personas.yaml"
      = Some [MoreSamples.raw_ann; MoreSamples.raw_bo; MoreSamples.raw_ann_again] /\
    load_personas MoreSamples.catalog_file "personas.yaml" = Some d /\
    option_map Persona.name (PyDict.get d "p1") = Some "Ann B." /\
    exists personas,
      map Persona_of_raw
        [MoreSamples.raw_ann; MoreSamples.raw_bo; MoreSamples.raw_ann_again]
        = map Some personas /\
      forall k,
        PyDict.get d k = find (fun p => (Persona.id p =? k)%string) (rev personas).
Proof.
  eexists. split; [reflexivity|]. split; [reflexivity|]. split; [reflexivity|].
  exact (load_personas_last_wins MoreSamples.catalog_file "personas.yaml" _
           [MoreSamples.raw_ann; MoreSamples.raw_bo; MoreSamples.raw_ann_again]
           eq_refl eq_refl).
Defined.

(** Two runs in the same second with the same seed, for two personas. *)
Lemma run_file_name_identifies_witness :
  exists conv1 conv2,
    simulate (R := lcg) None Sample.no_env Sample.clock1 Sample.ann
      "Smart Collections" Sample.paywall_spec None 2 42 = Some conv1 /\
    simulate (R := lcg) None Sample.no_env Sample.clock1 Sample.bo
      "Smart Collections" Sample.paywall_spec None 2 42 = Some conv2 /\
    (run_file_name conv1 "md" = run_file_name conv2 "md" <->
     Conversation.feature_id conv1 = Conversation.feature_id conv2 /\
     Persona.id Sample.ann = Persona.id Sample.bo).
Proof.
  destruct (simulate (R := lcg) None Sample.no_env Sample.clock1 Sample.ann
              "Smart Collections" Sample.paywall_spec None 2 42)
    as [conv1|] eqn:Hrun1; [|vm_compute in Hrun1; discriminate].
  destruct (simulate (R := lcg) None Sample.no_env Sample.clock1 Sample.bo
              "Smart Collections" Sample.paywall_spec None 2 42)
    as [conv2|] eqn:Hrun2; [|vm_compute in Hrun2; discriminate].
  exists conv1, conv2. split; [reflexivity|]. split; [reflexivity|].
  exact (run_file_name_identifies (R := lcg) None None Sample.no_env Sample.no_env
           Sample.clock1 Sample.clock1 Sample.ann Sample.bo
           "Smart Collections" "Smart Collections" Sample.paywall_spec
           Sample.paywall_spec None None 2 2 42 42 conv1 conv2 "md" Hrun1 Hrun2).
Defined.

(** Two titles of one batch for one persona, run in the same second: one
    path, and the second export replaces the first. *)
Lemma save_run_same_second_same_path_witness :
  exists conv1 conv2 path1 path2 st1 st2,
    simulate (R := lcg) None Sample.no_env Sample.clock1 Sample.ann
      "Smart Collections" Sample.paywall_spec None 2 42 = Some conv1 /\
    simulate (R := lcg) None Sample.no_env Sample.clock1 Sample.ann
      "Smart Albums" Sample.paywall_spec None 2 42 = Some conv2 /\
    unix_time Sample.clock1 = unix_time Sample.clock1 /\
    Persona.id Sample.ann = Persona.id Sample.ann /\
    save_run MoreSamples.memory_fs conv1 "out" "md" "first" []
      = Some (path1, st1) /\
    save_run MoreSamples.memory_fs conv2 "out" "md" "second" st1
      = Some (path2, st2) /\
    path1 = path2.
Proof.
  destruct (simulate (R := lcg) None Sample.no_env Sample.clock1 Sample.ann
              "Smart Collections" Sample.paywall_spec None 2 42)
    as [conv1|] eqn:Hrun1; [|vm_compute in Hrun1; discriminate].
  destruct (simulate (R := lcg) None Sample.no_env Sample.clock1 Sample.ann
              "Smart Albums" Sample.paywall_spec None 2 42)
    as [conv2|] eqn:Hrun2; [|vm_compute in Hrun2; discriminate].
  exists conv1, conv2.
  destruct (save_run MoreSamples.memory_fs conv1 "out" "md" "first" [])
    as [[path1 st1]|] eqn:Hsave1; [|discriminate].
  exists path1.
  destruct (save_run MoreSamples.memory_fs conv2 "out" "md" "second" st1)
    as [[path2 st2]|] eqn:Hsave2; [|discriminate].
  exists path2, st1, st2.
  split; [reflexivity|]. split; [reflexivity|]. split; [reflexivity|].
  split; [reflexivity|]. split; [reflexivity|]. split; [exact Hsave2|].
  exact (save_run_same_second_same_path (R := lcg) MoreSamples.memory_fs
           None None Sample.no_env Sample.no_env Sample.clock1 Sample.clock1
           Sample.ann Sample.ann "Smart Collections" "Smart Albums"
           Sample.paywall_spec Sample.paywall_spec None None 2 2 42 conv1 conv2
           "out" "md" "first" "second" path1 path2 [] st1 st1 st2
           Hrun1 Hrun2 eq_refl eq_refl Hsave1 Hsave2).
Defined.

(** Two titles on two lines of the batch field: one title of two lines. *)
Lemma variant_titles_not_split_at_line_ends_witness :
  PyStr.str_in "\n" ("A" ++ PyStr.nl ++ "B") = false /\
  variant_titles "T" (Some ("A" ++ PyStr.nl ++ "B")) = ["T"; "A" ++ PyStr.nl ++ "B"] /\
  In ("A" ++ PyStr.nl ++ "B") (variant_titles "T" (Some ("A" ++ PyStr.nl ++ "B"))).
Proof.
  split; [reflexivity|]. split; [reflexivity|].
  apply (variant_titles_not_split_at_line_ends "T" ("A" ++ PyStr.nl ++ "B")
           ("A" ++ PyStr.nl ++ "B") eq_refl).
  split; [right; reflexivity | discriminate].
Defined.

(** The traits the form proposes. *)
Lemma comma_list_join_witness :
  forallb list_item ["curious"; "impatient"; "visual-first"] = true /\
  PyStr.join ", " ["curious"; "impatient"; "visual-first"]
    = "curious, impatient, visual-first" /\
  comma_list (PyStr.join ", " ["curious"; "impatient"; "visual-first"])
    = ["curious"; "impatient"; "visual-first"].
Proof.
  split; [reflexivity|]. split; [reflexivity|].
  exact (comma_list_join ["curious"; "impatient"; "visual-first"] eq_refl).
Defined.
